(** * zk-groupmembership: the ZKGroupMembership class over a model of the
    JavaScript run time it is written against.

    The source (lib/ZKGroupMembership.js) is callback- and promise-driven:
    every operation wraps one call to an injected ZooKeeper client into a
    promise, optionally raced against a timer.  The embedding has these
    layers:

    - [JS]       values, string coercion, truthiness, the string and array
                 built-ins [getMemberPath] uses;
    - [Runtime]  the promise machinery of ECMAScript (promise records,
                 resolving functions with their already-resolved flag,
                 reaction and thenable jobs, the microtask queue), timers,
                 the object heap and the rejection tracker;
    - [ZK]       the module itself: [resolverAsCallback],
                 [timedPromiseByCallback], [delay], [withTimeout] and the
                 methods of the class;
    - [Loop]     the event loop that drives them: user code, timers, and
                 what the client does on its own.

    Closures are defunctionalised: each arrow function of the source is a
    constructor, and [call_handler] / [call_listener] run their bodies.

    Modelling assumptions, stated once:
    - numbers are integers ([Z]), printed as the Number nearest to them;
      time is in milliseconds ([N]);
    - objects whose properties the program writes or reads are references
      into the heap ([VObj]); arrays, buffers and errors are kept by value;
    - a timer gets the delay the host gives it: the delay asked for when it
      is between 1 and 2^31 - 1 ms, and 1 ms otherwise;
    - timers are punctual: a timer runs as a task of its own, never before
      its delay has passed, and before every task of a later instant; the
      order between a timer and the other tasks of the very instant at
      which it falls due is not fixed, it is part of the script
      ([TimersRun]);
    - the microtask queue is emptied with a fuel; the statements about
      results hold for every fuel above a bound;
    - the ZooKeeper client, [uuid()] and [JSON] are collaborators outside the
      repository: the client is the environment (it logs the calls it
      receives and answers when the environment says so; a watcher it was
      given is called once, at the next structural change), [uuid] and
      [JSON] are fields of the [host]. *)

From stdpp Require Import base numbers list strings.
From Stdlib Require Import DecimalString.

Local Open Scope list_scope.
Set Warnings "-register-all".

(* ================================================================== *)
(** ** JavaScript values *)
(* ================================================================== *)

Module JS.

Abbreviation loc := nat (only parsing).   (* address of an object in the heap *)
Abbreviation pid := nat (only parsing).   (* index of a promise in the promise store *)
Abbreviation rid := nat (only parsing).   (* index of an already-resolved flag *)

Inductive value : Type :=
| VUndefined
| VNull
| VBool (b : bool)
| VNum (n : Z)
| VStr (s : string)
| VArr (vs : list value)
| VBuffer (bytes : string)
| VError (message : string) (cause : option value)
| VObj (l : loc)
| VPromise (p : pid)
| VThis.

(** Completion of a call: it returns or it throws. *)
Inductive completion : Type :=
| Normal (v : value)
| Throw (e : value).

(** [new Error(message)] *)
Definition new_Error (message : string) : value := VError message None.

(** ToBoolean, as used by [if (err)]. *)
Definition truthy (v : value) : bool :=
  match v with
  | VUndefined | VNull => false
  | VBool b => b
  | VNum n => negb (n =? 0)%Z
  | VStr s => negb (String.eqb s "")
  | _ => true
  end.

(** The decimal digits of a natural number. *)
Definition digits_of (m : Z) : string :=
  NilZero.string_of_int (Z.to_int m).

(** Numbers are IEEE doubles.  The Number nearest to the natural number
    [m], as an integer: 53 significant bits, ties to the even one. *)
Definition nearest_Number (m : Z) : Z :=
  let e := (Z.log2 m - 52)%Z in
  if (e <=? 0)%Z then m
  else
    let q := Z.shiftr m e in
    let r := (m - Z.shiftl q e)%Z in
    let half := Z.shiftl 1 (e - 1) in
    let q' := if (half <? r)%Z || ((r =? half)%Z && Z.odd q)
              then (q + 1)%Z else q in
    Z.shiftl q' e.

(** The digits [s] ([k] of them) and the number [n] of integer digits for
    which [s * 10^(n - k)] denotes the Number [x], itself of [len] digits,
    if [k] digits are enough; the nearest to [x] of them. *)
Definition shortest (x : Z) (len k : nat) : option (Z * nat) :=
  let p := (10 ^ Z.of_nat (len - k))%Z in
  let lo := (x / p)%Z in
  let hi := (lo + 1)%Z in
  let denotes s := (nearest_Number (s * p) =? x)%Z in
  let up := if (hi =? 10 ^ Z.of_nat k)%Z
            then (10 ^ Z.of_nat (k - 1), S len)%Z else (hi, len) in
  if bool_decide (len < k) then None
  else
    match denotes lo, denotes hi with
    | true, true => Some (if (x - lo * p <=? hi * p - x)%Z then (lo, len) else up)
    | true, false => Some (lo, len)
    | false, true => Some up
    | false, false => None
    end.

Fixpoint zeros (k : nat) : string :=
  match k with
  | O => ""
  | S k' => "0" +:+ zeros k'
  end.

(** Number::toString: the fewest digits that denote the Number, followed by
    zeros up to 21 digits, and in exponent notation beyond. *)
Definition num_to_string (n : Z) : string :=
  if (n =? 0)%Z then "0"
  else
    let sign := if (n <? 0)%Z then "-" else "" in
    let x := nearest_Number (Z.abs n) in
    if (2 ^ 1024 <=? x)%Z then sign +:+ "Infinity"
    else
      match head (omap (shortest x (String.length (digits_of x))) (seq 1 17)) with
      | None => sign +:+ digits_of x
      | Some (s, len) =>
          let ds := digits_of s in
          if bool_decide (len <= 21)
          then sign +:+ ds +:+ zeros (len - String.length ds)
          else
            sign +:+
            match ds with
            | String c EmptyString => String c EmptyString
            | String c rest => String c EmptyString +:+ "." +:+ rest
            | EmptyString => ""
            end +:+ "e+" +:+ digits_of (Z.of_nat (len - 1))
      end.

(** Array.prototype.join on the string forms of the elements. *)
Fixpoint join (sep : string) (parts : list string) : string :=
  match parts with
  | [] => ""
  | [x] => x
  | x :: rest => x +:+ sep +:+ join sep rest
  end.

(** String(v).  Inside an array, [undefined] and [null] print as the empty
    string. *)
Fixpoint ToString (v : value) : string :=
  match v with
  | VUndefined => "undefined"
  | VNull => "null"
  | VBool true => "true"
  | VBool false => "false"
  | VNum n => num_to_string n
  | VStr s => s
  | VArr vs =>
      join "," (map (fun x => match x with
                              | VUndefined | VNull => ""
                              | _ => ToString x
                              end) vs)
  | VBuffer bytes => bytes
  | VError "" _ => "Error"
  | VError message _ => "Error: " +:+ message
  | VObj _ => "[object Object]"
  | VPromise _ => "[object Promise]"
  | VThis => "[object Object]"
  end.

(** String.prototype.includes: [needle] occurs somewhere in [hay]. *)
Fixpoint includes (hay needle : string) : bool :=
  if String.prefix needle hay then true
  else match hay with
       | EmptyString => false
       | String _ rest => includes rest needle
       end.

(** [v === s] for a string literal [s]. *)
Definition is_string (v : value) (s : string) : bool :=
  match v with
  | VStr s' => String.eqb s' s
  | _ => false
  end.

(** Objects are ordered property lists. *)
Definition object := list (string * value).

Fixpoint get_field (k : string) (o : object) : value :=
  match o with
  | [] => VUndefined
  | (k', v) :: rest => if String.eqb k k' then v else get_field k rest
  end.

(** [o[k] = v]: overwrite in place, or append a new property. *)
Fixpoint set_field (k : string) (v : value) (o : object) : object :=
  match o with
  | [] => [(k, v)]
  | (k', v') :: rest =>
      if String.eqb k k' then (k', v) :: rest
      else (k', v') :: set_field k v rest
  end.

End JS.
Export JS.

(* ================================================================== *)
(** ** Run time: promises, microtasks, timers, heap *)
(* ================================================================== *)

Module Runtime.

(** The arrow functions the module passes to [then].  [H_resolve p r] and
    [H_reject p r] are the resolving functions of promise [p] guarded by the
    already-resolved flag [r] (what the Promise constructor hands to its
    executor, and what [Promise.race] passes on). *)
Inductive handler : Type :=
| H_resolve (p : pid) (r : rid)
| H_reject (p : pid) (r : rid)
| ReturnThis                                (* () => this *)
| EmitMembers                               (* nodeList => this.emit('members', nodeList) *)
| EmitError                                 (* err => this.emit('error', err) *)
| TimeoutThrower                            (* () => Promise.reject(new Error('Timeout')) *)
| RegisterResult (id data : value)          (* () => ({ id: id, data: data }) *)
| MemberDataResult (id : value)             (* ([buffer, stat]) => ({ id, data: JSON.parse(..), stat }) *)
| Observe (k : nat)                         (* the caller's onFulfilled for its k-th call *)
| ObserveErr (k : nat).                     (* the caller's onRejected for its k-th call *)

(** The callback built by [resolverAsCallback(resolve, reject, array)]:
    the pair of resolving functions it closes over, and the [array] flag. *)
Record node_callback := {
  cb_promise : pid;
  cb_flag : rid;
  cb_array : bool;
}.

Inductive pstate : Type :=
| Pending
| Fulfilled (v : value)
| Rejected (e : value).

(** One entry of [[PromiseFulfillReactions]] / [[PromiseRejectReactions]]:
    the two lists of the standard always grow together, so one record holds
    both handlers and the capability of the derived promise. *)
Record reaction := {
  on_fulfilled : option handler;
  on_rejected : option handler;
  cap_promise : pid;
  cap_flag : rid;
}.

Record promise := {
  p_state : pstate;
  p_reactions : list reaction;
  p_handled : bool;
}.

Inductive job : Type :=
| ReactionJob (h : option handler) (rejected : bool) (cp : pid) (cr : rid) (arg : value)
| ThenableJob (p : pid) (thenable : pid)
| CallbackJob (cb : node_callback) (args : list value).

Record runtime := {
  clock : N;                          (* Date.now() *)
  promises : list promise;
  flags : list bool;                  (* [[AlreadyResolved]] of each pair of resolving functions *)
  microtasks : list job;
  timers : list (N * (pid * rid));    (* setTimeout(resolve, _): due time and the resolve it runs *)
  heap : list object;
  tracked : list pid;                 (* rejected while unhandled, not yet reported *)
  unhandled : list pid;               (* reported as unhandled rejections *)
  uncaught : list value;              (* exceptions that escaped a task *)
  closures : nat;                     (* listener functions created so far *)
  uuids : nat;                        (* identifiers drawn from uuid() so far *)
}.

Definition set_clock (f : N -> N) (s : runtime) : runtime :=
  {| clock := f (clock s); promises := promises s; flags := flags s;
     microtasks := microtasks s; timers := timers s; heap := heap s;
     tracked := tracked s; unhandled := unhandled s; uncaught := uncaught s;
     closures := closures s; uuids := uuids s |}.
Definition set_promises (f : list promise -> list promise) (s : runtime) : runtime :=
  {| clock := clock s; promises := f (promises s); flags := flags s;
     microtasks := microtasks s; timers := timers s; heap := heap s;
     tracked := tracked s; unhandled := unhandled s; uncaught := uncaught s;
     closures := closures s; uuids := uuids s |}.
Definition set_flags (f : list bool -> list bool) (s : runtime) : runtime :=
  {| clock := clock s; promises := promises s; flags := f (flags s);
     microtasks := microtasks s; timers := timers s; heap := heap s;
     tracked := tracked s; unhandled := unhandled s; uncaught := uncaught s;
     closures := closures s; uuids := uuids s |}.
Definition set_microtasks (f : list job -> list job) (s : runtime) : runtime :=
  {| clock := clock s; promises := promises s; flags := flags s;
     microtasks := f (microtasks s); timers := timers s; heap := heap s;
     tracked := tracked s; unhandled := unhandled s; uncaught := uncaught s;
     closures := closures s; uuids := uuids s |}.
Definition set_timers (f : list (N * (pid * rid)) -> list (N * (pid * rid)))
    (s : runtime) : runtime :=
  {| clock := clock s; promises := promises s; flags := flags s;
     microtasks := microtasks s; timers := f (timers s); heap := heap s;
     tracked := tracked s; unhandled := unhandled s; uncaught := uncaught s;
     closures := closures s; uuids := uuids s |}.
Definition set_heap (f : list object -> list object) (s : runtime) : runtime :=
  {| clock := clock s; promises := promises s; flags := flags s;
     microtasks := microtasks s; timers := timers s; heap := f (heap s);
     tracked := tracked s; unhandled := unhandled s; uncaught := uncaught s;
     closures := closures s; uuids := uuids s |}.
Definition set_tracked (f : list pid -> list pid) (s : runtime) : runtime :=
  {| clock := clock s; promises := promises s; flags := flags s;
     microtasks := microtasks s; timers := timers s; heap := heap s;
     tracked := f (tracked s); unhandled := unhandled s; uncaught := uncaught s;
     closures := closures s; uuids := uuids s |}.
Definition set_unhandled (f : list pid -> list pid) (s : runtime) : runtime :=
  {| clock := clock s; promises := promises s; flags := flags s;
     microtasks := microtasks s; timers := timers s; heap := heap s;
     tracked := tracked s; unhandled := f (unhandled s); uncaught := uncaught s;
     closures := closures s; uuids := uuids s |}.
Definition set_uncaught (f : list value -> list value) (s : runtime) : runtime :=
  {| clock := clock s; promises := promises s; flags := flags s;
     microtasks := microtasks s; timers := timers s; heap := heap s;
     tracked := tracked s; unhandled := unhandled s; uncaught := f (uncaught s);
     closures := closures s; uuids := uuids s |}.
Definition set_closures (f : nat -> nat) (s : runtime) : runtime :=
  {| clock := clock s; promises := promises s; flags := flags s;
     microtasks := microtasks s; timers := timers s; heap := heap s;
     tracked := tracked s; unhandled := unhandled s; uncaught := uncaught s;
     closures := f (closures s); uuids := uuids s |}.
Definition set_uuids (f : nat -> nat) (s : runtime) : runtime :=
  {| clock := clock s; promises := promises s; flags := flags s;
     microtasks := microtasks s; timers := timers s; heap := heap s;
     tracked := tracked s; unhandled := unhandled s; uncaught := uncaught s;
     closures := closures s; uuids := f (uuids s) |}.

Definition empty_runtime : runtime :=
  {| clock := 0%N; promises := []; flags := []; microtasks := []; timers := [];
     heap := []; tracked := []; unhandled := []; uncaught := [];
     closures := 0; uuids := 0 |}.

Definition pending_promise : promise :=
  {| p_state := Pending; p_reactions := []; p_handled := false |}.

(** A fresh pending promise together with a fresh pair of resolving
    functions (CreateResolvingFunctions). *)
Definition new_promise (s : runtime) : pid * rid * runtime :=
  (length (promises s), length (flags s),
   set_flags (fun fl => fl ++ [false])
     (set_promises (fun ps => ps ++ [pending_promise]) s)).

(** A fresh pair of resolving functions for an existing promise. *)
Definition new_flag (s : runtime) : rid * runtime :=
  (length (flags s), set_flags (fun fl => fl ++ [false]) s).

Definition enqueue (j : job) (s : runtime) : runtime :=
  set_microtasks (fun q => q ++ [j]) s.

(** TriggerPromiseReactions: one reaction job per registered reaction. *)
Definition trigger (rs : list reaction) (rejected : bool) (arg : value) : list job :=
  map (fun rc => ReactionJob (if rejected then on_rejected rc else on_fulfilled rc)
                   rejected (cap_promise rc) (cap_flag rc) arg) rs.

(** FulfillPromise *)
Definition fulfill_promise (p : pid) (v : value) (s : runtime) : runtime :=
  match promises s !! p with
  | None => s
  | Some pr =>
      set_microtasks (fun q => q ++ trigger (p_reactions pr) false v)
        (set_promises
           <[p := {| p_state := Fulfilled v; p_reactions := [];
                      p_handled := p_handled pr |}]> s)
  end.

(** RejectPromise; a promise rejected while it has no handler is handed to
    the rejection tracker. *)
Definition reject_promise (p : pid) (e : value) (s : runtime) : runtime :=
  match promises s !! p with
  | None => s
  | Some pr =>
      let s1 :=
        set_microtasks (fun q => q ++ trigger (p_reactions pr) true e)
          (set_promises
             <[p := {| p_state := Rejected e; p_reactions := [];
                        p_handled := p_handled pr |}]> s) in
      if p_handled pr then s1 else set_tracked (fun t => t ++ [p]) s1
  end.

Definition flag_is_clear (r : rid) (s : runtime) : bool :=
  match flags s !! r with
  | Some false => true
  | _ => false
  end.

(** The resolve function of promise [p]: a second call of either function
    of the pair does nothing; a promise is adopted through a thenable job;
    anything else fulfils. *)
Definition resolve_fn (p : pid) (r : rid) (v : value) (s : runtime) : runtime :=
  if flag_is_clear r s then
    let s1 := set_flags <[r := true]> s in
    match v with
    | VPromise q =>
        if Nat.eqb q p
        then reject_promise p (new_Error "Chaining cycle detected for promise") s1
        else enqueue (ThenableJob p q) s1
    | _ => fulfill_promise p v s1
    end
  else s.

(** The reject function of promise [p]. *)
Definition reject_fn (p : pid) (r : rid) (e : value) (s : runtime) : runtime :=
  if flag_is_clear r s then reject_promise p e (set_flags <[r := true]> s)
  else s.

Definition mark_handled (p : pid) (s : runtime) : runtime :=
  set_promises
    (alter (fun pr => {| p_state := p_state pr; p_reactions := p_reactions pr;
                         p_handled := true |}) p) s.

Definition add_reaction (p : pid) (rc : reaction) (s : runtime) : runtime :=
  set_promises
    (alter (fun pr => {| p_state := p_state pr;
                         p_reactions := p_reactions pr ++ [rc];
                         p_handled := p_handled pr |}) p) s.

Definition untrack (p : pid) (s : runtime) : runtime :=
  set_tracked (filter (fun q => q ≠ p)) s.

(** Promise.prototype.then (PerformPromiseThen): the derived promise is
    returned; on a settled promise the reaction job is queued at once. *)
Definition then_ (p : pid) (onF onR : option handler) (s : runtime) : pid * runtime :=
  let '(d, r, s1) := new_promise s in
  match promises s1 !! p with
  | None => (d, s1)
  | Some pr =>
      let s2 :=
        match p_state pr with
        | Pending =>
            add_reaction p {| on_fulfilled := onF; on_rejected := onR;
                              cap_promise := d; cap_flag := r |} s1
        | Fulfilled v => enqueue (ReactionJob onF false d r v) s1
        | Rejected e => enqueue (ReactionJob onR true d r e) (untrack p s1)
        end in
      (d, mark_handled p s2)
  end.

(** Promise.reject(e) *)
Definition Promise_reject (e : value) (s : runtime) : pid * runtime :=
  let '(p, r, s1) := new_promise s in
  (p, reject_fn p r e s1).

(** Promise.race(items), every item being a native promise. *)
Definition Promise_race (items : list pid) (s : runtime) : pid * runtime :=
  let '(p, r, s1) := new_promise s in
  (p, foldl (fun acc item =>
               snd (then_ item (Some (H_resolve p r)) (Some (H_reject p r)) acc))
        s1 items).

(** Timers are kept ordered by due time, first set first among equals. *)
Fixpoint insert_timer (t : N * (pid * rid)) (l : list (N * (pid * rid)))
  : list (N * (pid * rid)) :=
  match l with
  | [] => [t]
  | t' :: rest =>
      if (fst t <? fst t')%N then t :: l else t' :: insert_timer t rest
  end.

(** The delay the host gives a timer: a delay from 1 to 2^31 - 1 ms is
    kept, any other is replaced by 1 ms. *)
Definition TIMEOUT_MAX : N := 2147483647.

Definition timer_delay (ms : N) : N :=
  if (ms <? 1)%N || (TIMEOUT_MAX <? ms)%N then 1%N else ms.

(** setTimeout(resolve_p, ms) *)
Definition setTimeout (p : pid) (r : rid) (ms : N) (s : runtime) : runtime :=
  set_timers (insert_timer ((clock s + timer_delay ms)%N, (p, r))) s.

(** The timers that fall due before the instant [before], in firing order,
    and those that do not. *)
Fixpoint split_due (before : N) (l : list (N * (pid * rid)))
  : list (pid * rid) * list (N * (pid * rid)) :=
  match l with
  | [] => ([], [])
  | t :: rest =>
      if (fst t <? before)%N
      then let '(due, later) := split_due before rest in (snd t :: due, later)
      else ([], l)
  end.

(** [new Object] with the given properties. *)
Definition alloc (o : object) (s : runtime) : loc * runtime :=
  (length (heap s), set_heap (fun h => h ++ [o]) s).

Definition read (l : loc) (s : runtime) : object :=
  default [] (heap s !! l).

(** The callback of [resolverAsCallback], called with [args]:
    [(err, ...values)] resolves with the array of the remaining arguments,
    [(err, value)] with the second one. *)
Definition call_node_callback (cb : node_callback) (args : list value)
    (s : runtime) : runtime :=
  let err := default VUndefined (head args) in
  if truthy err then reject_fn (cb_promise cb) (cb_flag cb) err s
  else if cb_array cb
       then resolve_fn (cb_promise cb) (cb_flag cb) (VArr (tail args)) s
       else resolve_fn (cb_promise cb) (cb_flag cb)
              (default VUndefined (tail args !! 0)) s.

(** End of a task, once the microtask queue has been drained: the promises
    still tracked are reported as unhandled rejections. *)
Definition report_rejections (s : runtime) : runtime :=
  set_tracked (fun _ => []) (set_unhandled (fun u => u ++ tracked s) s).

End Runtime.
Export Runtime.

(* ================================================================== *)
(** ** The module: client, manager, and the functions of the source *)
(* ================================================================== *)

Module ZK.

Definition ZK_CREATE_MODE_EPHEMERAL : Z := 1.

(** The two event listeners the class creates.  The index is the identity
    of the function object (each evaluation of an arrow expression yields a
    new one). *)
Inductive listener : Type :=
| Relay (k : nat)            (* () => { this.getMembers().then(.., ..) } *)
| StateListener (k : nat).   (* state => { if (state.name !== 'SYNC_CONNECTED') .. } *)

(** What the client is asked to do, with the arguments it receives; the
    node-style callback always comes last. *)
Inductive request : Type :=
| Mkdirp (path : string)
| GetChildren (path : string) (watcher : option listener)
| Create (path : string) (data : string) (acls : value) (mode : Z)
| GetData (path : string) (watcher : option listener).

Record client_call := {
  call_request : request;
  call_cb : node_callback;
}.

Definition call_watcher (c : client_call) : option listener :=
  match call_request c with
  | GetChildren _ wt | GetData _ wt => wt
  | _ => None
  end.

(** When the client answers a call: not before a later task, or by calling
    back before the call returns, or from the microtask queue. *)
Inductive reply_mode : Type :=
| Reply_later
| Reply_sync (args : list value)
| Reply_microtask (args : list value).

(** The injected client.  It is outside the repository; the model keeps
    what the module can observe of it: the calls it received, the one-shot
    watchers it has armed, the listeners of its 'state' event, and how it
    answers. *)
Record client := {
  replies : nat -> client_call -> reply_mode;
  calls : list client_call;
  armed : list listener;
  state_listeners : list listener;
}.

(** [uuid()] and [JSON], outside the repository as well. *)
Inductive parsed : Type :=
| SyntaxError
| Primitive (v : value)
| Document (fields : object).

(** [JSON_text hp v own] is the text [JSON.stringify(v)] returns in the
    heap [hp] when it returns, [own] being the properties the program has
    put on a [v] that the model keeps by value.  The manager holds the
    client: whether the client can be written as JSON is the host's to
    say. *)
Record host := {
  uuid_v4 : nat -> string;              (* the k-th identifier uuid() returns *)
  JSON_text : list object -> value -> object -> string;
  JSON_parse : string -> parsed;
  client_has_JSON : bool;
}.

(** [JSON.stringify] throws when it meets an object that it is in the
    middle of writing.  [stack] holds the objects being written; an error
    is written with the value it wraps, and the manager with its client
    ([this_ok] says whether that can be done). *)
Fixpoint acyclic_value (this_ok : bool) (deref : list loc -> loc -> bool)
    (stack : list loc) (v : value) : bool :=
  match v with
  | VObj l => deref stack l
  | VArr vs => forallb (acyclic_value this_ok deref stack) vs
  | VError _ (Some cause) => acyclic_value this_ok deref stack cause
  | VThis => this_ok
  | _ => true
  end.

Fixpoint acyclic_object (this_ok : bool) (hp : list object) (fuel : nat)
    (stack : list loc) (l : loc) : bool :=
  match fuel with
  | O => false
  | S n =>
      negb (existsb (Nat.eqb l) stack) &&
      forallb (fun kv => acyclic_value this_ok (acyclic_object this_ok hp n)
                           (l :: stack) (snd kv))
        (default [] (hp !! l))
  end.

(** The objects on a path down from a value are all different, so a path
    is no longer than the heap. *)
Definition serialisable (h : host) (hp : list object) (v : value) : bool :=
  acyclic_value (client_has_JSON h)
    (acyclic_object (client_has_JSON h) hp (S (length hp))) [] v.

(** [JSON.stringify(v)]: the text, or the TypeError. *)
Definition JSON_stringify (h : host) (hp : list object) (v : value) (own : object)
  : option string :=
  if serialisable h hp v then Some (JSON_text h hp v own) else None.

(** The fields of a ZKGroupMembership instance, and what its EventEmitter
    part has seen: every [emit], and the event names the user listens to. *)
Record manager := {
  _groupPath : string;
  _timeout : option N;
  _setupTimeout : option N;
  _membersChangedListener : option listener;
  emitted : list (string * value);
  subscribed : list string;
}.

Inductive outcome : Type :=
| Fulfils (v : value)
| Rejects (e : value).

Record world := {
  rt : runtime;
  cl : client;
  mg : manager;
  hs : host;
  returned : list completion;          (* what each call of the user returned *)
  observed : list (nat * outcome);     (* how the promise of the k-th call settled *)
}.

Definition set_rt (s : runtime) (w : world) : world :=
  {| rt := s; cl := cl w; mg := mg w; hs := hs w;
     returned := returned w; observed := observed w |}.
Definition with_rt (f : runtime -> runtime) (w : world) : world :=
  set_rt (f (rt w)) w.
Definition with_cl (f : client -> client) (w : world) : world :=
  {| rt := rt w; cl := f (cl w); mg := mg w; hs := hs w;
     returned := returned w; observed := observed w |}.
Definition with_mg (f : manager -> manager) (w : world) : world :=
  {| rt := rt w; cl := cl w; mg := f (mg w); hs := hs w;
     returned := returned w; observed := observed w |}.
Definition set_returned (f : list completion -> list completion) (w : world) : world :=
  {| rt := rt w; cl := cl w; mg := mg w; hs := hs w;
     returned := f (returned w); observed := observed w |}.
Definition set_observed (f : list (nat * outcome) -> list (nat * outcome))
    (w : world) : world :=
  {| rt := rt w; cl := cl w; mg := mg w; hs := hs w;
     returned := returned w; observed := f (observed w) |}.

Definition log_call (c : client_call) (k : client) : client :=
  {| replies := replies k; calls := calls k ++ [c];
     armed := armed k ++ match call_watcher c with Some wt => [wt] | None => [] end;
     state_listeners := state_listeners k |}.
Definition disarm (k : client) : client :=
  {| replies := replies k; calls := calls k; armed := [];
     state_listeners := state_listeners k |}.
Definition add_state_listener (f : listener) (k : client) : client :=
  {| replies := replies k; calls := calls k; armed := armed k;
     state_listeners := state_listeners k ++ [f] |}.

Definition set_listener (f : option listener) (m : manager) : manager :=
  {| _groupPath := _groupPath m; _timeout := _timeout m;
     _setupTimeout := _setupTimeout m; _membersChangedListener := f;
     emitted := emitted m; subscribed := subscribed m |}.
Definition log_emit (name : string) (arg : value) (m : manager) : manager :=
  {| _groupPath := _groupPath m; _timeout := _timeout m;
     _setupTimeout := _setupTimeout m;
     _membersChangedListener := _membersChangedListener m;
     emitted := emitted m ++ [(name, arg)]; subscribed := subscribed m |}.
Definition subscribe (name : string) (m : manager) : manager :=
  {| _groupPath := _groupPath m; _timeout := _timeout m;
     _setupTimeout := _setupTimeout m;
     _membersChangedListener := _membersChangedListener m;
     emitted := emitted m; subscribed := subscribed m ++ [name] |}.

(** A call of a client method: the client records it, arms the watcher it
    was given, and answers according to its [replies]. *)
Definition client_invoke (c : client_call) (w : world) : world :=
  let i := length (calls (cl w)) in
  let w1 := with_cl (log_call c) w in
  match replies (cl w) i c with
  | Reply_later => w1
  | Reply_sync args => with_rt (call_node_callback (call_cb c) args) w1
  | Reply_microtask args => with_rt (enqueue (CallbackJob (call_cb c) args)) w1
  end.

(** [client.on('state', f)] *)
Definition client_on_state (f : listener) (w : world) : world :=
  with_cl (add_state_listener f) w.

(** EventEmitter.prototype.emit on the manager.  The user's listeners have
    no effect on the model; an 'error' event nobody listens to is thrown. *)
Definition emit (name : string) (arg : value) (w : world) : completion * world :=
  let w1 := with_mg (log_emit name arg) w in
  if bool_decide (name ∈ subscribed (mg w)) then (Normal (VBool true), w1)
  else if String.eqb name "error"
       then (Throw (match arg with
                    | VError _ _ => arg
                    | _ => VError "Unhandled error." (Some arg)
                    end), w1)
       else (Normal (VBool false), w1).

(** *** lib/ZKGroupMembership.js, lines 13-61 *)

Definition resolverAsCallback (p : pid) (r : rid) (array : bool) : node_callback :=
  {| cb_promise := p; cb_flag := r; cb_array := array |}.

(** [delay(timeout)]: new Promise(resolve => setTimeout(resolve, timeout)) *)
Definition delay (timeout : N) (s : runtime) : pid * runtime :=
  let '(p, r, s1) := new_promise s in
  (p, setTimeout p r timeout s1).

(** [withTimeout(promise, timeout)]; the array literal is evaluated before
    [Promise.race] is called. *)
Definition withTimeout (promise : pid) (timeout : option N) (s : runtime)
  : pid * runtime :=
  match timeout with
  | None => (promise, s)
  | Some ms =>
      let '(pd, s1) := delay ms s in
      let '(pt, s2) := then_ pd (Some TimeoutThrower) None s1 in
      Promise_race [promise; pt] s2
  end.

(** The executors given to [timedPromiseByCallback]: [cb => this._client.m(.., cb)]. *)
Inductive executor : Type :=
| Exec_mkdirp
| Exec_getChildren
| Exec_create (path : string) (asBuffer : string)
| Exec_getData (path : string).

Definition request_of (ex : executor) (m : manager) : request :=
  match ex with
  | Exec_mkdirp => Mkdirp (_groupPath m)
  | Exec_getChildren => GetChildren (_groupPath m) (_membersChangedListener m)
  | Exec_create path asBuffer => Create path asBuffer VNull ZK_CREATE_MODE_EPHEMERAL
  | Exec_getData path => GetData path None
  end.

Definition run_executor (ex : executor) (cb : node_callback) (w : world) : world :=
  client_invoke {| call_request := request_of ex (mg w); call_cb := cb |} w.

Definition timedPromiseByCallback (ex : executor) (timeout : option N)
    (array : bool) (w : world) : pid * world :=
  let '(p, r, s1) := new_promise (rt w) in
  let w1 := run_executor ex (resolverAsCallback p r array) (set_rt s1 w) in
  let '(res, s2) := withTimeout p timeout (rt w1) in
  (res, set_rt s2 w1).

(** *** The class *)

Definition constructor (h : host) (k : client) (groupPath : string)
    (timeout setupTimeout : option N) : world :=
  {| rt := empty_runtime; cl := k;
     mg := {| _groupPath := groupPath; _timeout := timeout;
              _setupTimeout := setupTimeout; _membersChangedListener := None;
              emitted := []; subscribed := [] |};
     hs := h; returned := []; observed := [] |}.

Definition setup (w : world) : completion * world :=
  let '(p, w1) := timedPromiseByCallback Exec_mkdirp (_setupTimeout (mg w)) false w in
  let '(d, s2) := then_ p (Some ReturnThis) None (rt w1) in
  (Normal (VPromise d), set_rt s2 w1).

Definition getMembers (w : world) : pid * world :=
  timedPromiseByCallback Exec_getChildren (_timeout (mg w)) false w.

Definition getMemberPath (m : manager) (id : value) : option string :=
  let id := match id with VStr s => s | _ => ToString id end in
  if includes id "/" then None else Some (join "/" [_groupPath m; id]).

(** [!path] *)
Definition usable_path (path : option string) : option string :=
  match path with
  | Some EmptyString => None
  | _ => path
  end.

(** The bodies of the functions passed to [then]. *)
Definition call_handler (h : handler) (arg : value) (w : world) : completion * world :=
  match h with
  | H_resolve p r => (Normal VUndefined, with_rt (resolve_fn p r arg) w)
  | H_reject p r => (Normal VUndefined, with_rt (reject_fn p r arg) w)
  | ReturnThis => (Normal VThis, w)
  | EmitMembers => emit "members" arg w
  | EmitError => emit "error" arg w
  | TimeoutThrower =>
      let '(q, s1) := Promise_reject (new_Error "Timeout") (rt w) in
      (Normal (VPromise q), set_rt s1 w)
  | RegisterResult id data =>
      let '(l, s1) := alloc [("id", id); ("data", data)] (rt w) in
      (Normal (VObj l), set_rt s1 w)
  | MemberDataResult id =>
      match arg with
      | VArr vs =>
          let buffer := default VUndefined (vs !! 0) in
          let stat := default VUndefined (vs !! 1) in
          match buffer with
          | VUndefined | VNull =>
              (Throw (new_Error "TypeError: Cannot read property 'toString'"), w)
          | _ =>
              match JSON_parse (hs w) (ToString buffer) with
              | SyntaxError => (Throw (new_Error "SyntaxError"), w)
              | Primitive v =>
                  let '(l, s1) := alloc [("id", id); ("data", v); ("stat", stat)] (rt w) in
                  (Normal (VObj l), set_rt s1 w)
              | Document fields =>
                  let '(ld, s1) := alloc fields (rt w) in
                  let '(l, s2) :=
                    alloc [("id", id); ("data", VObj ld); ("stat", stat)] s1 in
                  (Normal (VObj l), set_rt s2 w)
              end
          end
      | _ => (Throw (new_Error "TypeError: undefined is not iterable"), w)
      end
  | Observe k =>
      (Normal VUndefined, set_observed (fun o => o ++ [(k, Fulfils arg)]) w)
  | ObserveErr k =>
      (Normal VUndefined, set_observed (fun o => o ++ [(k, Rejects arg)]) w)
  end.

(** [state.name] *)
Definition state_name (state : value) (s : runtime) : completion :=
  match state with
  | VUndefined | VNull => Throw (new_Error "TypeError: Cannot read property 'name'")
  | VObj l => Normal (get_field "name" (read l s))
  | VError _ _ => Normal (VStr "Error")
  | _ => Normal VUndefined
  end.

(** The bodies of the two listeners. *)
Definition call_listener (f : listener) (args : list value) (w : world)
  : completion * world :=
  match f with
  | Relay _ =>
      let '(p, w1) := getMembers w in
      let '(_, s2) := then_ p (Some EmitMembers) (Some EmitError) (rt w1) in
      (Normal VUndefined, set_rt s2 w1)
  | StateListener _ =>
      match state_name (default VUndefined (head args)) (rt w) with
      | Throw e => (Throw e, w)
      | Normal name =>
          if is_string name "SYNC_CONNECTED" then (Normal VUndefined, w)
          else match emit "error" (new_Error "Disconnected") w with
               | (Throw e, w1) => (Throw e, w1)
               | (Normal _, w1) => (Normal VUndefined, w1)
               end
      end
  end.

Definition startMonitor (w : world) : completion * world :=
  match _membersChangedListener (mg w) with
  | None =>
      let relay := Relay (closures (rt w)) in
      let w1 := with_mg (set_listener (Some relay)) (with_rt (set_closures S) w) in
      match call_listener relay [] w1 with
      | (Throw e, w2) => (Throw e, w2)
      | (Normal _, w2) =>
          (Normal VThis,
           client_on_state (StateListener (closures (rt w2)))
             (with_rt (set_closures S) w2))
      end
  | Some _ => (Normal VThis, w)
  end.

(** l.152, [data.registrationTimeUTC = now]: an object of the heap is
    written in place; the objects the model keeps by value take the
    property as well, and it is returned apart; null and the primitives
    make the assignment throw (the class body is strict code). *)
Definition assign_registrationTime (data now : value) (w : world)
  : option (world * object) :=
  match data with
  | VObj l =>
      Some (with_rt (set_heap (alter (set_field "registrationTimeUTC" now) l)) w, [])
  | VArr _ | VBuffer _ | VError _ _ | VPromise _ | VThis =>
      Some (w, [("registrationTimeUTC", now)])
  | VUndefined | VNull | VBool _ | VNum _ | VStr _ => None
  end.

(** lines 155-157: the call of the client, once the payload is there. *)
Definition send_member (path : string) (id data : value) (asBuffer : string)
    (w : world) : completion * world :=
  let '(p, w1) :=
    timedPromiseByCallback (Exec_create path asBuffer) (_timeout (mg w)) false w in
  let '(d, s2) := then_ p (Some (RegisterResult id data)) None (rt w1) in
  (Normal (VPromise d), set_rt s2 w1).

(** lines 152-157: the registration proper, once the path is known.  The
    assignment comes first; [JSON.stringify] may throw after it. *)
Definition create_member (path : string) (id data : value) (w : world)
  : completion * world :=
  let now := VNum (Z.of_N (clock (rt w))) in
  match assign_registrationTime data now w with
  | None =>
      (Throw (new_Error "TypeError: Cannot create property 'registrationTimeUTC'"), w)
  | Some (w1, own) =>
      match JSON_stringify (hs w1) (heap (rt w1)) data own with
      | None => (Throw (new_Error "TypeError: Converting circular structure to JSON"), w1)
      | Some asBuffer => send_member path id data asBuffer w1
      end
  end.

Definition registerMember (id data : value) (w : world) : completion * world :=
  (* data = {} *)
  let '(data, w) :=
    match data with
    | VUndefined => let '(l, s1) := alloc [] (rt w) in (VObj l, set_rt s1 w)
    | _ => (data, w)
    end in
  let '(id, w) :=
    match id with
    | VUndefined => (VStr (uuid_v4 (hs w) (uuids (rt w))), with_rt (set_uuids S) w)
    | _ => (id, w)
    end in
  match usable_path (getMemberPath (mg w) id) with
  | None =>
      let '(p, s1) := Promise_reject (new_Error "Illegal member ID") (rt w) in
      (Normal (VPromise p), set_rt s1 w)
  | Some path => create_member path id data w
  end.

(** lines 173-175: the retrieval proper, once the path is known. *)
Definition fetch_member (path : string) (id : value) (w : world)
  : completion * world :=
  let '(p, w1) := timedPromiseByCallback (Exec_getData path) (_timeout (mg w)) true w in
  let '(d, s2) := then_ p (Some (MemberDataResult id)) None (rt w1) in
  (Normal (VPromise d), set_rt s2 w1).

Definition getMemberData (id : value) (w : world) : completion * world :=
  match usable_path (getMemberPath (mg w) id) with
  | None =>
      let '(p, s1) := Promise_reject (new_Error "Illegal member ID") (rt w) in
      (Normal (VPromise p), set_rt s1 w)
  | Some path => fetch_member path id w
  end.

End ZK.
Export ZK.

(* ================================================================== *)
(** ** The event loop *)
(* ================================================================== *)

Module Loop.

(** One microtask. *)
Definition run_job (j : job) (w : world) : world :=
  match j with
  | ReactionJob None false cp cr arg => with_rt (resolve_fn cp cr arg) w
  | ReactionJob None true cp cr arg => with_rt (reject_fn cp cr arg) w
  | ReactionJob (Some h) _ cp cr arg =>
      match call_handler h arg w with
      | (Normal v, w1) => with_rt (resolve_fn cp cr v) w1
      | (Throw e, w1) => with_rt (reject_fn cp cr e) w1
      end
  | ThenableJob p q =>
      let '(r, s1) := new_flag (rt w) in
      let '(_, s2) := then_ q (Some (H_resolve p r)) (Some (H_reject p r)) s1 in
      set_rt s2 w
  | CallbackJob cb args => with_rt (call_node_callback cb args) w
  end.

(** The microtask queue is emptied, oldest job first. *)
Fixpoint drain (fuel : nat) (w : world) : world :=
  match microtasks (rt w), fuel with
  | j :: rest, S n =>
      drain n (run_job j (with_rt (set_microtasks (fun _ => rest)) w))
  | _, _ => w
  end.

(** What follows the synchronous part of every task. *)
Definition finish (fuel : nat) (w : world) : world :=
  with_rt report_rejections (drain fuel w).

(** Every timer that is due runs as a task of its own. *)
Definition fire (fuel : nat) (w : world) (t : pid * rid) : world :=
  finish fuel (with_rt (resolve_fn (fst t) (snd t) VUndefined) w).

Definition fire_timers (fuel : nat) (before : N) (w : world) : world :=
  let '(due, later) := split_due before (timers (rt w)) in
  foldl (fire fuel) (with_rt (set_timers (fun _ => later)) w) due.

(** What the user of the class does. *)
Inductive api_call : Type :=
| Call_setup
| Call_getMembers
| Call_startMonitor
| Call_registerMember (id data : value)
| Call_getMemberData (id : value)
| Call_timedPromiseByCallback (ex : executor) (timeout : option N) (array : bool)
| Call_on (name : string)          (* group.on(name, ..) *)
| New_object (o : object).         (* an object literal, to be passed as data *)

Definition api_body (c : api_call) (w : world) : completion * world :=
  match c with
  | Call_setup => setup w
  | Call_getMembers => let '(p, w1) := getMembers w in (Normal (VPromise p), w1)
  | Call_startMonitor => startMonitor w
  | Call_registerMember id data => registerMember id data w
  | Call_getMemberData id => getMemberData id w
  | Call_timedPromiseByCallback ex timeout array =>
      let '(p, w1) := timedPromiseByCallback ex timeout array w in
      (Normal (VPromise p), w1)
  | Call_on name => (Normal VThis, with_mg (subscribe name) w)
  | New_object o => let '(l, s1) := alloc o (rt w) in (Normal (VObj l), set_rt s1 w)
  end.

(** The user keeps what a call returns and, when it is a promise, attaches
    [then(Observe k, ObserveErr k)] to it. *)
Definition user_call (c : api_call) (w : world) : completion * world :=
  let k := length (returned w) in
  let '(res, w1) := api_body c w in
  let w2 := set_returned (fun l => l ++ [res]) w1 in
  match res with
  | Normal (VPromise p) =>
      let '(_, s3) := then_ p (Some (Observe k)) (Some (ObserveErr k)) (rt w2) in
      (res, set_rt s3 w2)
  | _ => (res, w2)
  end.

Fixpoint user_code (cs : list api_call) (w : world) : world :=
  match cs with
  | [] => w
  | c :: rest =>
      match user_call c w with
      | (Throw e, w1) => with_rt (set_uncaught (fun u => u ++ [e])) w1
      | (Normal _, w1) => user_code rest w1
      end
  end.

(** The client calls listeners one after the other; an exception ends it. *)
Fixpoint notify (fs : list listener) (args : list value) (w : world) : world :=
  match fs with
  | [] => w
  | f :: rest =>
      match call_listener f args w with
      | (Throw e, w1) => with_rt (set_uncaught (fun u => u ++ [e])) w1
      | (Normal _, w1) => notify rest args w1
      end
  end.

(** The tasks of a run: user code; the passing of time, during which the
    timers that fall due before the new instant run; the timers that fall
    due at the present instant; and what the client does on its own: it
    calls back for call number [call], it reports a change of the children
    of the group path to the watchers it has armed (each once, and they are
    disarmed), it announces a connection state. *)
Inductive task : Type :=
| UserCode (cs : list api_call)
| TimePasses (ms : N)
| TimersRun
| ClientReplies (call : nat) (args : list value)
| StructuralChange
| ConnectionState (state : object).

(** The clock moves when time passes. *)
Definition advance (t : task) (w : world) : world :=
  match t with
  | TimePasses ms => with_rt (set_clock (fun c => (c + ms)%N)) w
  | _ => w
  end.

(** The timers that run at the start of a task are those that fell due
    before the present instant; [TimersRun] adds those of the instant. *)
Definition horizon (t : task) (s : runtime) : N :=
  match t with
  | TimersRun => (clock s + 1)%N
  | _ => clock s
  end.

Definition task_body (t : task) (w : world) : world :=
  match t with
  | UserCode cs => user_code cs w
  | TimePasses _ | TimersRun => w
  | ClientReplies i args =>
      match calls (cl w) !! i with
      | Some c => with_rt (call_node_callback (call_cb c) args) w
      | None => w
      end
  | StructuralChange => notify (armed (cl w)) [] (with_cl disarm w)
  | ConnectionState state =>
      let '(l, s1) := alloc state (rt w) in
      notify (state_listeners (cl w)) [VObj l] (set_rt s1 w)
  end.

(** One turn of the loop: the clock advances, the timers that are due run,
    then the task itself. *)
Definition perform (fuel : nat) (t : task) (w : world) : world :=
  let w1 := advance t w in
  finish fuel (task_body t (fire_timers fuel (horizon t (rt w1)) w1)).

Definition run (fuel : nat) (script : list task) (w : world) : world :=
  foldl (fun acc t => perform fuel t acc) w script.

End Loop.
Export Loop.

(* ================================================================== *)
(** ** Vocabulary of the statements *)
(* ================================================================== *)

Module Scenario.

(** A client that has received no call yet and answers as [r] says. *)
Definition fresh_client (r : nat -> client_call -> reply_mode) : client :=
  {| replies := r; calls := []; armed := []; state_listeners := [] |}.

(** A client that answers every call in a later task (a network client). *)
Definition networked : client := fresh_client (fun _ _ => Reply_later).

(** How the client reports the outcome of an operation through a
    node-style callback: [cb(null, v)] or [cb(e)]. *)
Definition op_reply (o : outcome) : list value :=
  match o with
  | Fulfils v => [VNull; v]
  | Rejects e => [e]
  end.

(** A client that calls back before the call returns, with outcome [o]. *)
Definition synchronous (o : outcome) : client :=
  fresh_client (fun _ _ => Reply_sync (op_reply o)).

(** A client that calls back from the microtask queue, with outcome [o]. *)
Definition prompt (o : outcome) : client :=
  fresh_client (fun _ _ => Reply_microtask (op_reply o)).

(** The outcome of the promise that [timedPromiseByCallback] builds around
    the callback, for an operation with outcome [o]. *)
Definition settles_as (array : bool) (o : outcome) : outcome :=
  match o with
  | Fulfils v => Fulfils (if array then VArr [v] else v)
  | Rejects e => Rejects e
  end.

(** Outcomes an operation can report: an error is a truthy value, and a
    result is a value, not a promise of this program. *)
Definition plain (o : outcome) : Prop :=
  match o with
  | Fulfils (VPromise _) => False
  | Fulfils _ => True
  | Rejects e => truthy e = true
  end.

(** The reply comes before the deadline, if there is one, has passed on
    the timer of the host. *)
Definition in_time (t : N) (timeout : option N) : Prop :=
  match timeout with
  | None => True
  | Some d => (t < timer_delay d)%N
  end.

Definition Timeout : value := new_Error "Timeout".
Definition IllegalMemberId : value := new_Error "Illegal member ID".

(** An error of kind [kind] that wraps [cause]. *)
Definition wraps (kind : string) (cause : value) (e : value) : Prop :=
  e = VError kind (Some cause).

(** A host for the concrete runs: identifiers member-0, member-1, ..; the
    serialisation is irrelevant there. *)
Definition sample_host : host :=
  {| uuid_v4 := fun k => "member-" +:+ num_to_string (Z.of_nat k);
     JSON_text := fun _ _ _ => "{}";
     JSON_parse := fun _ => Document [];
     client_has_JSON := false |}.

(** The separator occurs somewhere in [s]. *)
Definition contains_separator (s : string) : Prop :=
  exists a b, s = a +:+ "/" +:+ b.

End Scenario.
Export Scenario.

(* ================================================================== *)
(** ** Vocabulary of the invariants *)
(* ================================================================== *)

Module Monitor.

(** The relay field of the manager. *)
Definition relay_of (w : world) : option listener :=
  _membersChangedListener (mg w).

(** A call carries [r] when, being a getChildren call, it passes [r] as its
    watcher (no other call of the class passes a watcher at all). *)
Definition carries (r : option listener) (c : client_call) : Prop :=
  call_watcher c = match call_request c with
                   | GetChildren _ _ => r
                   | _ => None
                   end.

Definition new_watchers (cs : list client_call) : list listener :=
  omap call_watcher cs.

(** 'members' events emitted so far. *)
Definition members_events (w : world) : nat :=
  length (filter (fun ev => fst ev = "members") (emitted (mg w))).

(** 'members' events that may still come: the [EmitMembers] handlers that
    wait in a promise or in the microtask queue. *)
Definition emits (h : option handler) : nat :=
  match h with
  | Some EmitMembers => 1
  | _ => 0
  end.

Definition reaction_weight (rc : reaction) : nat :=
  emits (on_fulfilled rc) + emits (on_rejected rc).

Definition promise_weight (pr : promise) : nat :=
  sum_list_with reaction_weight (p_reactions pr).

Definition job_weight (j : job) : nat :=
  match j with
  | ReactionJob h _ _ _ _ => emits h
  | _ => 0
  end.

Definition potential (s : runtime) : nat :=
  sum_list_with promise_weight (promises s) + sum_list_with job_weight (microtasks s).

(** How a stretch of the program that neither installs the relay nor
    disarms the watchers changes what the client and the manager hold: the
    relay field and the 'state' listeners stay, the calls [new] are added to
    those the client has seen, each carrying the relay, their watchers are
    armed, and the 'members' events emitted or still to come grow by [k] at
    most. *)
Record evolves (k : nat) (new : list client_call) (w w' : world) : Prop := {
  ev_relay : relay_of w' = relay_of w;
  ev_state : state_listeners (cl w') = state_listeners (cl w);
  ev_calls : calls (cl w') = calls (cl w) ++ new;
  ev_armed : armed (cl w') = armed (cl w) ++ new_watchers new;
  ev_carry : Forall (carries (relay_of w)) new;
  ev_budget : members_events w' + potential (rt w')
              <= members_events w + potential (rt w) + k;
}.

(** User calls that leave the client alone once monitoring has started. *)
Definition quiet_call (c : api_call) : Prop :=
  match c with
  | Call_startMonitor | Call_on _ | New_object _ => True
  | _ => False
  end.

(** A script in which the user does nothing but (re)start the monitor,
    subscribe to events and build objects. *)
Definition monitoring_only (script : list task) : Prop :=
  Forall (fun t => match t with
                   | UserCode cs => Forall quiet_call cs
                   | _ => True
                   end) script.

(** A script in which the user never starts the monitor. *)
Definition never_monitors (script : list task) : Prop :=
  Forall (fun t => match t with
                   | UserCode cs => Forall (fun c => c <> Call_startMonitor) cs
                   | _ => True
                   end) script.

(** From call number [n0] on, every call carries the relay [r], which is
    what the relay field holds. *)
Definition carrying (r : option listener) (n0 : nat) (w : world) : Prop :=
  relay_of w = r /\
  forall i c, n0 <= i -> calls (cl w) !! i = Some c -> carries r c.

(** Monitoring is on, with relay [relay] and one 'state' listener, and [n]
    structural changes have been reported: at most one watcher is armed,
    the client has seen at most [n + 1] calls, and there are no more
    'members' events, emitted or still to come, than calls. *)
Record monitoring (relay : listener) (sl : nat) (n : nat) (w : world) : Prop := {
  mo_relay : relay_of w = Some relay;
  mo_state : state_listeners (cl w) = [StateListener sl];
  mo_armed : length (armed (cl w)) <= 1;
  mo_budget : members_events w + potential (rt w) <= length (calls (cl w));
  mo_calls : length (calls (cl w)) <= n + 1;
}.

(** The event the relay emits for an outcome of getMembers(). *)
Definition relayed (o : outcome) : string * value :=
  match o with
  | Fulfils nodeList => ("members", nodeList)
  | Rejects err => ("error", err)
  end.

(** No relay is installed and no watcher is armed. *)
Definition unarmed (w : world) : Prop :=
  relay_of w = None /\ armed (cl w) = [].

(** What "fails immediately with [e], without any call to the client"
    means for the result [res] of a method called in world [w]: it is a
    promise that did not exist before and is already rejected with [e]; the
    client has seen nothing and no job or timer has been added. *)
Definition rejected_at_once (e : value) (w : world) (res : completion * world) : Prop :=
  exists p,
    fst res = Normal (VPromise p) /\
    promises (rt w) !! p = None /\
    p_state <$> promises (rt (snd res)) !! p = Some (Rejected e) /\
    cl (snd res) = cl w /\
    mg (snd res) = mg w /\
    microtasks (rt (snd res)) = microtasks (rt w) /\
    timers (rt (snd res)) = timers (rt w).

(** Structural changes reported in a script. *)
Fixpoint changes (script : list task) : nat :=
  match script with
  | [] => 0
  | StructuralChange :: rest => S (changes rest)
  | _ :: rest => changes rest
  end.

End Monitor.
Export Monitor.

(* ================================================================== *)
(** ** Vocabulary of the further properties *)
(* ================================================================== *)

Module Further.

(** The first argument of a node-style callback says "no error". *)
Definition falsy (v : value) : Prop := truthy v = false.

(** Null and the primitive values: a property cannot be written on them. *)
Definition primitive (v : value) : Prop :=
  match v with
  | VNull | VBool _ | VNum _ | VStr _ => True
  | _ => False
  end.

(** A value that is not a promise of this program. *)
Definition settled_value (v : value) : Prop :=
  match v with
  | VPromise _ => False
  | _ => True
  end.

(** What an operation that the client has not answered shows: how its
    promise settled, and the timers that are still to run. *)
Definition standing (w : world) : list (nat * outcome) * list (N * (pid * rid)) :=
  (observed w, timers (rt w)).

(** The requests the client has received. *)
Definition requests (w : world) : list request :=
  call_request <$> calls (cl w).

End Further.
Export Further.
(* ================================================================== *)
(** ** Member paths *)
(* ================================================================== *)

Section MemberPath.

Local Arguments Ascii.ascii_dec : simpl never.

Lemma includes_separator (s : string) :
  includes s "/" = true <-> contains_separator s.
Proof.
  unfold contains_separator. induction s as [|c s IH]; simpl.
  - split; [discriminate|]. intros ([|? ?] & b & E); discriminate.
  - match goal with
    | |- context [Ascii.ascii_dec ?a c] => destruct (Ascii.ascii_dec a c) as [<-|Hc]
    end; simpl.
    + split; [|intros _; destruct s; reflexivity].
      intros _. exists "", s. reflexivity.
    + rewrite IH. split.
      * intros (a & b & ->). exists (String c a), b. reflexivity.
      * intros ([|c' a] & b & E); simpl in E; injection E as E1 E2.
        -- congruence.
        -- exists a, b. assumption.
Qed.

Lemma includes_separator_false (s : string) :
  includes s "/" = false <-> ~ contains_separator s.
Proof.
  rewrite <- includes_separator. destruct (includes s "/"); split; congruence.
Qed.

Lemma ToString_string_arg (id : value) :
  match id with VStr s => s | _ => ToString id end = ToString id.
Proof. destruct id; reflexivity. Qed.

(** C6. [getMemberPath(id)] is a function of the group path and of the
    string form of [id] alone: it yields no path (undefined, and no
    exception) exactly when that string contains '/', and otherwise the
    group path, '/', and that string. *)
Theorem getMemberPath_spec (m : manager) (id : value) :
  match getMemberPath m id with
  | None => contains_separator (ToString id)
  | Some path =>
      ~ contains_separator (ToString id) /\
      path = _groupPath m +:+ "/" +:+ ToString id
  end.
Proof.
  unfold getMemberPath. rewrite ToString_string_arg.
  destruct (includes (ToString id) "/") eqn:E.
  - apply includes_separator. exact E.
  - split; [|reflexivity]. apply includes_separator_false. exact E.
Qed.

Lemma getMemberPath_usable (m : manager) (id : value) :
  usable_path (getMemberPath m id) = getMemberPath m id.
Proof.
  unfold getMemberPath. destruct (includes _ "/"); [reflexivity|].
  simpl. destruct (_groupPath m); reflexivity.
Qed.

End MemberPath.
(* ================================================================== *)
(** ** Running a script step by step *)
(* ================================================================== *)

Section Stepping.

Lemma run_cons fuel t script w :
  run fuel (t :: script) w = run fuel script (perform fuel t w).
Proof. reflexivity. Qed.

Lemma run_nil fuel w : run fuel [] w = w.
Proof. reflexivity. Qed.

Lemma run_app fuel s1 s2 w :
  run fuel (s1 ++ s2) w = run fuel s2 (run fuel s1 w).
Proof. unfold run. apply foldl_app. Qed.

Lemma split_due_cons_due before t rest :
  (fst t < before)%N ->
  split_due before (t :: rest) =
    (snd t :: fst (split_due before rest), snd (split_due before rest)).
Proof.
  intros H. simpl. apply N.ltb_lt in H. rewrite H.
  destruct (split_due before rest). reflexivity.
Qed.

Lemma split_due_cons_later before t rest :
  (before <= fst t)%N -> split_due before (t :: rest) = ([], t :: rest).
Proof. intros H. simpl. apply N.ltb_ge in H. rewrite H. reflexivity. Qed.

Lemma perform_eq fuel t w due later :
  split_due (horizon t (rt (advance t w))) (timers (rt (advance t w))) = (due, later) ->
  perform fuel t w =
    finish fuel (task_body t
      (foldl (fire fuel) (with_rt (set_timers (fun _ => later)) (advance t w)) due)).
Proof. intros H. unfold perform, fire_timers. cbv zeta. rewrite H. reflexivity. Qed.

(** The delay of the host. *)
Lemma timer_delay_kept (d : N) :
  (1 <= d <= TIMEOUT_MAX)%N -> timer_delay d = d.
Proof.
  intros [H1 H2]. unfold timer_delay.
  apply N.ltb_ge in H1. apply N.ltb_ge in H2. rewrite H1, H2. reflexivity.
Qed.

Lemma timer_delay_replaced (d : N) :
  (d < 1 \/ TIMEOUT_MAX < d)%N -> timer_delay d = 1%N.
Proof.
  intros [H|H]; unfold timer_delay; apply N.ltb_lt in H; rewrite H;
    [|rewrite orb_true_r]; reflexivity.
Qed.

Lemma timer_delay_positive (d : N) : (1 <= timer_delay d)%N.
Proof.
  unfold timer_delay.
  destruct (d <? 1)%N eqn:E; [simpl; lia|]. apply N.ltb_ge in E.
  destruct (TIMEOUT_MAX <? d)%N; simpl; lia.
Qed.

End Stepping.

Global Arguments timer_delay : simpl never.

(** [timers_due] decides which timers fire, [crunch] evaluates the task on
    the explicit world, [step] does both for the next task of the script. *)
Ltac timers_due :=
  cbn [horizon clock timers rt advance with_rt set_rt set_clock];
  repeat first [ rewrite split_due_cons_due by (cbn [fst snd]; lia)
               | rewrite split_due_cons_later by (cbn [fst snd]; lia) ];
  reflexivity.

Ltac crunch :=
  match goal with
  | |- context [finish ?f ?w] =>
      let w' := fresh "w" in
      set (w' := finish f w);
      lazy -[N.add N.leb N.ltb Z.of_N timer_delay] in (value of w'); subst w'
  end.

Ltac step := rewrite run_cons; erewrite perform_eq by timers_due; crunch.

(** [settle_timers] decides the comparisons of due times that the setting
    of a second timer leaves open. *)
Ltac settle_timers :=
  repeat match goal with
         | |- context [N.ltb ?a ?b] =>
             first [ rewrite (proj2 (N.ltb_lt a b)) by lia
                   | rewrite (proj2 (N.ltb_ge a b)) by lia ]
         end;
  cbv iota.

Ltac truthy_cases e H :=
  destruct e as [| |[|]|[|?|?]|[|? ?]| | | | | |]; try discriminate H.

Ltac outcome_cases o H :=
  let v := fresh "v" in
  let e := fresh "e" in
  destruct o as [v|e]; [destruct v; try contradiction | truthy_cases e H].

(** The methods whose first step is the derivation of the member path. *)
Section LegalIds.

Lemma registerMember_object (id : value) (l : loc) (path : string) (w : world) :
  id <> VUndefined ->
  getMemberPath (mg w) id = Some path ->
  registerMember id (VObj l) w = create_member path id (VObj l) w.
Proof.
  intros Hid Hp. unfold registerMember.
  destruct id; try congruence;
    rewrite getMemberPath_usable, Hp; reflexivity.
Qed.

Lemma registerMember_default (id : value) (path : string) (w : world) :
  id <> VUndefined ->
  getMemberPath (mg w) id = Some path ->
  registerMember id VUndefined w =
    create_member path id (VObj (length (heap (rt w))))
      (with_rt (set_heap (fun hp => hp ++ [[]])) w).
Proof.
  intros Hid Hp. unfold registerMember.
  destruct id; try congruence;
    cbn [alloc with_rt set_rt mg]; rewrite getMemberPath_usable, Hp; reflexivity.
Qed.

Lemma registerMember_generated (path : string) (w : world) :
  getMemberPath (mg w) (VStr (uuid_v4 (hs w) (uuids (rt w)))) = Some path ->
  registerMember VUndefined VUndefined w =
    create_member path (VStr (uuid_v4 (hs w) (uuids (rt w))))
      (VObj (length (heap (rt w))))
      (with_rt (set_uuids S) (with_rt (set_heap (fun hp => hp ++ [[]])) w)).
Proof.
  intros Hp. unfold registerMember.
  cbn [alloc with_rt set_rt mg hs rt uuids set_heap set_uuids].
  rewrite getMemberPath_usable, Hp. reflexivity.
Qed.

Lemma registerMember_generated_for (data : value) (path : string) (w : world) :
  data <> VUndefined ->
  getMemberPath (mg w) (VStr (uuid_v4 (hs w) (uuids (rt w)))) = Some path ->
  registerMember VUndefined data w =
    create_member path (VStr (uuid_v4 (hs w) (uuids (rt w)))) data
      (with_rt (set_uuids S) w).
Proof.
  intros Hd Hp. unfold registerMember.
  destruct data; try congruence;
    cbn [with_rt set_rt mg hs rt uuids set_uuids];
    rewrite getMemberPath_usable, Hp; reflexivity.
Qed.

(** The registration proper for an object of the heap that the host can
    serialise. *)
Lemma create_member_object (path : string) (id : value) (l : loc) (w : world) :
  let w1 := with_rt (set_heap (alter (set_field "registrationTimeUTC"
                                        (VNum (Z.of_N (clock (rt w)))) ) l)) w in
  serialisable (hs w) (heap (rt w1)) (VObj l) = true ->
  create_member path id (VObj l) w =
    send_member path id (VObj l) (JSON_text (hs w) (heap (rt w1)) (VObj l) []) w1.
Proof.
  intros w1 Hs. unfold create_member, JSON_stringify. cbn [assign_registrationTime].
  fold w1. change (hs w1) with (hs w). rewrite Hs. reflexivity.
Qed.

Lemma create_member_unserialisable (path : string) (id : value) (l : loc) (w : world) :
  let w1 := with_rt (set_heap (alter (set_field "registrationTimeUTC"
                                        (VNum (Z.of_N (clock (rt w)))) ) l)) w in
  serialisable (hs w) (heap (rt w1)) (VObj l) = false ->
  create_member path id (VObj l) w =
    (Throw (new_Error "TypeError: Converting circular structure to JSON"), w1).
Proof.
  intros w1 Hs. unfold create_member, JSON_stringify. cbn [assign_registrationTime].
  fold w1. change (hs w1) with (hs w). rewrite Hs. reflexivity.
Qed.

Lemma get_field_set_field (k : string) (v : value) (o : object) :
  get_field k (set_field k v o) = v.
Proof.
  induction o as [|[k' v'] o IH]; simpl.
  - rewrite String.eqb_refl. reflexivity.
  - destruct (String.eqb k k') eqn:E; simpl; rewrite E; [reflexivity|exact IH].
Qed.

Lemma getMemberData_legal (id : value) (path : string) (w : world) :
  getMemberPath (mg w) id = Some path ->
  getMemberData id w = fetch_member path id w.
Proof.
  intros Hp. unfold getMemberData. rewrite getMemberPath_usable, Hp. reflexivity.
Qed.

End LegalIds.

(** [expose] shows the method call inside the user's task. *)
Ltac expose := cbn [task_body user_code]; unfold user_call, api_body.
(* ================================================================== *)
(** ** The timeout race *)
(* ================================================================== *)

Section TimeoutRace.

Variables (h : host) (gp : string) (tm stm : option N).
Variables (ex : executor) (array : bool) (o : outcome).
Hypothesis o_plain : plain o.

Let timed (timeout : option N) : task :=
  UserCode [Call_timedPromiseByCallback ex timeout array].
Let w0 : world := constructor h networked gp tm stm.

(** The operation answers at [t], before the timer of the deadline [d] is
    due: its outcome is the result, and the timer that runs later changes
    nothing. *)
Lemma race_won_by_operation (d t t' : N) (fuel : nat) :
  (t < timer_delay d)%N ->
  let w := run (20 + fuel)
             [timed (Some d); TimePasses t; ClientReplies 0 (op_reply o)] w0 in
  let w' := perform (20 + fuel) (TimePasses t') w in
  observed w = [(0, settles_as array o)] /\
  observed w' = [(0, settles_as array o)] /\
  unhandled (rt w') = [] /\ uncaught (rt w') = [] /\ microtasks (rt w') = [].
Proof.
  intros Ht. subst timed w0. unfold constructor, networked, fresh_client.
  outcome_cases o o_plain; destruct array; cbv zeta.
  all: do 3 step; rewrite !run_nil.
  all: split; [reflexivity|].
  all: destruct (N.lt_ge_cases (timer_delay d) (t + t')).
  all: erewrite perform_eq by timers_due; crunch; repeat split; reflexivity.
Qed.

(** The timer of the deadline [d] has run before [t]: the result is the
    Timeout rejection, and the answer of the operation, whenever it comes,
    changes nothing. *)
Lemma race_won_by_timer (d t t' : N) (fuel : nat) :
  (timer_delay d < t)%N ->
  let w := run (20 + fuel) [timed (Some d); TimePasses t] w0 in
  let w' := run (20 + fuel) [TimePasses t'; ClientReplies 0 (op_reply o)] w in
  observed w = [(0, Rejects Timeout)] /\
  observed w' = [(0, Rejects Timeout)] /\
  unhandled (rt w') = [] /\ uncaught (rt w') = [] /\ microtasks (rt w') = [].
Proof.
  intros Ht. subst timed w0. unfold constructor, networked, fresh_client.
  outcome_cases o o_plain; destruct array; cbv zeta.
  all: do 2 step; rewrite !run_nil.
  all: split; [reflexivity|].
  all: do 2 step; rewrite !run_nil; repeat split; reflexivity.
Qed.

(** The answer and the timer fall in the same instant and the answer is
    handled first. *)
Lemma tie_won_by_operation (d t' : N) (fuel : nat) :
  let w := run (20 + fuel)
             [timed (Some d); TimePasses (timer_delay d);
              ClientReplies 0 (op_reply o)] w0 in
  let w' := run (20 + fuel) [TimersRun; TimePasses t'] w in
  observed w = [(0, settles_as array o)] /\
  observed w' = [(0, settles_as array o)] /\
  unhandled (rt w') = [] /\ uncaught (rt w') = [] /\ microtasks (rt w') = [].
Proof.
  subst timed w0. unfold constructor, networked, fresh_client.
  outcome_cases o o_plain; destruct array; cbv zeta.
  all: do 3 step; rewrite !run_nil.
  all: split; [reflexivity|].
  all: do 2 step; rewrite !run_nil; repeat split; reflexivity.
Qed.

(** They fall in the same instant and the timer runs first. *)
Lemma tie_won_by_timer (d t' : N) (fuel : nat) :
  let w := run (20 + fuel)
             [timed (Some d); TimePasses (timer_delay d); TimersRun] w0 in
  let w' := run (20 + fuel) [ClientReplies 0 (op_reply o); TimePasses t'] w in
  observed w = [(0, Rejects Timeout)] /\
  observed w' = [(0, Rejects Timeout)] /\
  unhandled (rt w') = [] /\ uncaught (rt w') = [] /\ microtasks (rt w') = [].
Proof.
  subst timed w0. unfold constructor, networked, fresh_client.
  outcome_cases o o_plain; destruct array; cbv zeta.
  all: do 3 step; rewrite !run_nil.
  all: split; [reflexivity|].
  all: do 2 step; rewrite !run_nil; repeat split; reflexivity.
Qed.

(** No deadline: no timer is set, the promise stays pending for as long as
    the operation takes, and then has its outcome. *)
Lemma no_deadline_no_timer (t : N) (fuel : nat) :
  let w := run (20 + fuel) [timed None; TimePasses t; TimersRun] w0 in
  let w' := perform (20 + fuel) (ClientReplies 0 (op_reply o)) w in
  timers (rt w) = [] /\ observed w = [] /\
  observed w' = [(0, settles_as array o)] /\
  unhandled (rt w') = [] /\ uncaught (rt w') = [].
Proof.
  subst timed w0. unfold constructor, networked, fresh_client.
  outcome_cases o o_plain; destruct array; cbv zeta.
  all: do 3 step; rewrite !run_nil.
  all: do 2 (split; [reflexivity|]).
  all: erewrite perform_eq by timers_due; crunch; repeat split; reflexivity.
Qed.

End TimeoutRace.

(** C2 (as amended). For every operation wrapped by
    [timedPromiseByCallback] and every deadline [d], the race is against the
    timer the host sets for [d]: it is due after [d] ms when [d] is between
    1 and 2^31 - 1, and after 1 ms for every other [d].  When the operation
    settles before the timer is due the result is its own outcome; when the
    timer has run first the result is the Timeout rejection; when both fall
    in the same instant the one that is handled first decides.  In every
    case what the loser of the race does later leaves the result as it is,
    reaches the caller only once, and causes no unhandled rejection and no
    uncaught exception.  Without a deadline no timer is set and the result
    is the outcome of the operation whenever it comes. *)
Theorem withTimeout_contract
    (h : host) (gp : string) (tm stm : option N) (ex : executor) (array : bool)
    (o : outcome) (d t t' : N) (fuel : nat) :
  plain o ->
  let w0 := constructor h networked gp tm stm in
  let timed timeout := UserCode [Call_timedPromiseByCallback ex timeout array] in
  let answer := ClientReplies 0 (op_reply o) in
  let quiet (w : world) :=
    unhandled (rt w) = [] /\ uncaught (rt w) = [] /\ microtasks (rt w) = [] in
  let due := timer_delay d in
  (* the timer of the host *)
  ((1 <= d <= 2147483647)%N -> due = d) /\
  ((d < 1 \/ 2147483647 < d)%N -> due = 1%N) /\
  (* the operation settles first *)
  ((t < due)%N ->
   let w := run (20 + fuel) [timed (Some d); TimePasses t; answer] w0 in
   let w' := perform (20 + fuel) (TimePasses t') w in
   observed w = [(0, settles_as array o)] /\
   observed w' = [(0, settles_as array o)] /\ quiet w') /\
  (* the timer runs first *)
  ((due < t)%N ->
   let w := run (20 + fuel) [timed (Some d); TimePasses t] w0 in
   let w' := run (20 + fuel) [TimePasses t'; answer] w in
   observed w = [(0, Rejects Timeout)] /\
   observed w' = [(0, Rejects Timeout)] /\ quiet w') /\
  (* the same instant *)
  (let w := run (20 + fuel) [timed (Some d); TimePasses due; answer] w0 in
   let w' := run (20 + fuel) [TimersRun; TimePasses t'] w in
   observed w = [(0, settles_as array o)] /\
   observed w' = [(0, settles_as array o)] /\ quiet w') /\
  (let w := run (20 + fuel) [timed (Some d); TimePasses due; TimersRun] w0 in
   let w' := run (20 + fuel) [answer; TimePasses t'] w in
   observed w = [(0, Rejects Timeout)] /\
   observed w' = [(0, Rejects Timeout)] /\ quiet w') /\
  (* no deadline *)
  (let w := run (20 + fuel) [timed None; TimePasses t; TimersRun] w0 in
   let w' := perform (20 + fuel) answer w in
   timers (rt w) = [] /\ observed w = [] /\
   observed w' = [(0, settles_as array o)] /\
   unhandled (rt w') = [] /\ uncaught (rt w') = []).
Proof.
  intros Ho.
  pose proof (race_won_by_operation h gp tm stm ex array o Ho d t t' fuel) as H1.
  pose proof (race_won_by_timer h gp tm stm ex array o Ho d t t' fuel) as H2.
  pose proof (tie_won_by_operation h gp tm stm ex array o Ho d t' fuel) as H3.
  pose proof (tie_won_by_timer h gp tm stm ex array o Ho d t' fuel) as H4.
  pose proof (no_deadline_no_timer h gp tm stm ex array o Ho t fuel) as H5.
  cbv beta zeta in *.
  exact (conj (timer_delay_kept d) (conj (timer_delay_replaced d)
           (conj H1 (conj H2 (conj H3 (conj H4 H5)))))).
Qed.

Lemma withTimeout_contract_witness :
  let w0 := constructor sample_host networked "/groups/demo" None None in
  let timed := UserCode [Call_timedPromiseByCallback Exec_getChildren (Some 100%N) false] in
  let members := VArr [VStr "node-a"] in
  timer_delay 100 = 100%N /\
  observed (perform 20 (TimePasses 60)
              (run 20 [timed; TimePasses 40; ClientReplies 0 [VNull; members]] w0))
    = [(0, Fulfils members)] /\
  observed (run 20 [TimePasses 5; ClientReplies 0 [VNull; members]]
              (run 20 [timed; TimePasses 101] w0))
    = [(0, Rejects Timeout)].
Proof.
  cbv zeta.
  destruct (withTimeout_contract sample_host "/groups/demo" None None
              Exec_getChildren false (Fulfils (VArr [VStr "node-a"]))
              100%N 40%N 60%N 0 I) as (H0 & _ & H1 & _).
  destruct (withTimeout_contract sample_host "/groups/demo" None None
              Exec_getChildren false (Fulfils (VArr [VStr "node-a"]))
              100%N 101%N 5%N 0 I) as (_ & _ & _ & H2 & _).
  split; [exact (H0 ltac:(vm_compute; split; discriminate))|].
  split.
  - exact (proj1 (proj2 (H1 eq_refl))).
  - exact (proj1 (proj2 (H2 eq_refl))).
Defined.

(** C2, as the specification states it, fails at both ends.  With a
    deadline of 2^31 ms the operation settles after 40 ms, long before the
    deadline has elapsed, and the result is not its outcome but the Timeout
    rejection, the timer of the host having run after 1 ms.  With a
    deadline of 0 ms, which has elapsed before anything can settle, the
    operation answers in the next task and the result is its outcome, not
    the Timeout rejection. *)
Lemma deadline_outside_timer_range :
  let timed d := UserCode [Call_timedPromiseByCallback Exec_getChildren (Some d) false] in
  let members := VArr [VStr "node-a"] in
  let w0 := constructor sample_host networked "/groups/demo" None None in
  let w := run 20 [timed 2147483648%N; TimePasses 40;
                   ClientReplies 0 [VNull; members]] w0 in
  let w' := run 20 [timed 0%N; ClientReplies 0 [VNull; members]] w0 in
  ((40 < 2147483648)%N /\
   observed w = [(0, Rejects Timeout)] /\
   observed w <> [(0, settles_as false (Fulfils members))]) /\
  (observed w' = [(0, Fulfils members)] /\
   observed w' <> [(0, Rejects Timeout)]).
Proof.
  cbv beta zeta. split; [split; [reflexivity|]|].
  - split; [vm_compute; reflexivity|]. vm_compute. discriminate.
  - split; [vm_compute; reflexivity|]. vm_compute. discriminate.
Qed.
(* ================================================================== *)
(** ** Failures of the client *)
(* ================================================================== *)

Section ClientFailure.

Variables (h : host) (gp : string) (tm stm : option N).
Variables (e : value) (t : N).
Hypothesis e_truthy : truthy e = true.

Let w0 : world := constructor h networked gp tm stm.
Let failing (c : api_call) (fuel : nat) : world :=
  run (20 + fuel) [UserCode [c]; TimePasses t; ClientReplies 0 [e]] w0.

Lemma setup_fails_raw (fuel : nat) :
  in_time t stm -> observed (failing Call_setup fuel) = [(0, Rejects e)].
Proof.
  intros Ht. subst failing w0. unfold constructor, networked, fresh_client.
  truthy_cases e e_truthy; destruct stm as [d|]; simpl in Ht; cbv beta.
  all: do 3 step; reflexivity.
Qed.

Lemma getMembers_fails_raw (fuel : nat) :
  in_time t tm -> observed (failing Call_getMembers fuel) = [(0, Rejects e)].
Proof.
  intros Ht. subst failing w0. unfold constructor, networked, fresh_client.
  truthy_cases e e_truthy; destruct tm as [d|]; simpl in Ht; cbv beta.
  all: do 3 step; reflexivity.
Qed.

Lemma registerMember_fails_raw (id : value) (path : string) (fuel : nat) :
  id <> VUndefined ->
  getMemberPath (mg w0) id = Some path ->
  in_time t tm ->
  observed (failing (Call_registerMember id VUndefined) fuel) = [(0, Rejects e)].
Proof.
  intros Hid Hp Ht. subst failing w0. unfold constructor, networked, fresh_client in *.
  truthy_cases e e_truthy; destruct tm as [d|]; simpl in Ht; cbv beta.
  all: rewrite run_cons; erewrite perform_eq by timers_due; expose.
  all: rewrite (registerMember_default id path) by assumption; crunch.
  all: do 2 step; reflexivity.
Qed.

Lemma getMemberData_fails_raw (id : value) (path : string) (fuel : nat) :
  getMemberPath (mg w0) id = Some path ->
  in_time t tm ->
  observed (failing (Call_getMemberData id) fuel) = [(0, Rejects e)].
Proof.
  intros Hp Ht. subst failing w0. unfold constructor, networked, fresh_client in *.
  truthy_cases e e_truthy; destruct tm as [d|]; simpl in Ht; cbv beta.
  all: rewrite run_cons; erewrite perform_eq by timers_due; expose.
  all: rewrite (getMemberData_legal id path) by assumption; crunch.
  all: do 2 step; reflexivity.
Qed.

End ClientFailure.

(** C4 (as amended). When the client reports a failure [e] before any
    deadline has passed, setup(), getMembers(), registerMember() and
    getMemberData() each reject with [e] itself: the error of the client is
    passed on as it is, and no operation-specific error is made. *)
Theorem client_failure_is_passed_on
    (h : host) (gp : string) (tm stm : option N) (e id : value) (path : string)
    (t : N) (fuel : nat) :
  truthy e = true ->
  id <> VUndefined ->
  getMemberPath (mg (constructor h networked gp tm stm)) id = Some path ->
  let rejection (c : api_call) :=
    observed (run (20 + fuel) [UserCode [c]; TimePasses t; ClientReplies 0 [e]]
                (constructor h networked gp tm stm)) in
  (in_time t stm -> rejection Call_setup = [(0, Rejects e)]) /\
  (in_time t tm -> rejection Call_getMembers = [(0, Rejects e)]) /\
  (in_time t tm -> rejection (Call_registerMember id VUndefined) = [(0, Rejects e)]) /\
  (in_time t tm -> rejection (Call_getMemberData id) = [(0, Rejects e)]).
Proof.
  intros He Hid Hp. cbv zeta. repeat split; intros Ht.
  - apply setup_fails_raw; assumption.
  - apply getMembers_fails_raw; assumption.
  - eapply registerMember_fails_raw; eassumption.
  - eapply getMemberData_fails_raw; eassumption.
Qed.

Lemma client_failure_is_passed_on_witness :
  let e := new_Error "CONNECTION_LOSS" in
  let rejection (c : api_call) :=
    observed (run 20 [UserCode [c]; TimePasses 10; ClientReplies 0 [e]]
                (constructor sample_host networked "/groups/demo" (Some 100%N) None)) in
  rejection Call_setup = [(0, Rejects e)] /\
  rejection Call_getMembers = [(0, Rejects e)] /\
  rejection (Call_registerMember (VStr "node-a") VUndefined) = [(0, Rejects e)] /\
  rejection (Call_getMemberData (VStr "node-a")) = [(0, Rejects e)].
Proof.
  cbv zeta.
  destruct (client_failure_is_passed_on sample_host "/groups/demo" (Some 100%N) None
              (new_Error "CONNECTION_LOSS") (VStr "node-a") "/groups/demo/node-a"
              10%N 0 eq_refl ltac:(discriminate) eq_refl) as (H1 & H2 & H3 & H4).
  exact (conj (H1 I) (conj (H2 eq_refl) (conj (H3 eq_refl) (H4 eq_refl)))).
Defined.

(** C4, as the specification states it, fails: setup() rejects with the
    error of the client, which is not a SetupFailed error wrapping it. *)
Lemma setup_failure_is_not_wrapped :
  let e := new_Error "CONNECTION_LOSS" in
  let w := run 20 [UserCode [Call_setup]; ClientReplies 0 [e]]
             (constructor sample_host networked "/groups/default" None None) in
  observed w = [(0, Rejects e)] /\
  ~ (exists r, observed w = [(0, Rejects r)] /\ wraps "SetupFailed" e r).
Proof.
  cbv zeta. split; [vm_compute; reflexivity|].
  intros (r & Hobs & Hr). unfold wraps in Hr. subst r.
  vm_compute in Hobs. discriminate Hobs.
Qed.
(* ================================================================== *)
(** ** A deadline of zero *)
(* ================================================================== *)

Section ZeroDeadline.

Variables (h : host) (gp : string) (tm stm : option N).
Variables (ex : executor) (array : bool) (o : outcome).
Hypothesis o_plain : plain o.

Let timed0 : task :=
  UserCode [Call_timedPromiseByCallback ex (Some 0%N) array].

(** The host runs a delay of zero as a delay of one millisecond. *)
Lemma zero_deadline_is_one (w : world) :
  timedPromiseByCallback ex (Some 0%N) array w =
  timedPromiseByCallback ex (Some 1%N) array w.
Proof.
  unfold timedPromiseByCallback, withTimeout, delay, setTimeout.
  change (timer_delay 0) with (timer_delay 1). reflexivity.
Qed.

(** The operation answers in a later task that runs before the timer: in
    the same instant, or one millisecond later. *)
Lemma zero_deadline_answered (fuel : nat) :
  let w0 := constructor h networked gp tm stm in
  observed (run (20 + fuel) [timed0; ClientReplies 0 (op_reply o)] w0)
    = [(0, settles_as array o)] /\
  observed (run (20 + fuel) [timed0; TimePasses 1; ClientReplies 0 (op_reply o)] w0)
    = [(0, settles_as array o)].
Proof.
  subst timed0. unfold constructor, networked, fresh_client.
  outcome_cases o o_plain; destruct array; cbv zeta.
  all: split; [do 1 step | do 2 step]; change (timer_delay 0) with 1%N.
  all: step; reflexivity.
Qed.

(** The timer runs before the answer: in the same instant, or because more
    than one millisecond has passed. *)
Lemma zero_deadline_missed (t : N) (fuel : nat) :
  let w0 := constructor h networked gp tm stm in
  observed (run (20 + fuel)
              [timed0; TimePasses 1; TimersRun; ClientReplies 0 (op_reply o)] w0)
    = [(0, Rejects Timeout)] /\
  ((1 < t)%N ->
   observed (run (20 + fuel) [timed0; TimePasses t; ClientReplies 0 (op_reply o)] w0)
     = [(0, Rejects Timeout)]).
Proof.
  subst timed0. unfold constructor, networked, fresh_client.
  outcome_cases o o_plain; destruct array; cbv zeta.
  all: split; [|intros Ht]; step; change (timer_delay 0) with 1%N.
  all: try (do 3 step; reflexivity).
  all: do 2 step; reflexivity.
Qed.

(** The operation answers before the call returns: its outcome is the
    result. *)
Lemma zero_deadline_synchronous (t : N) (fuel : nat) :
  let w0 := constructor h (synchronous o) gp tm stm in
  observed (run (20 + fuel) [timed0; TimePasses t] w0) = [(0, settles_as array o)].
Proof.
  subst timed0. unfold constructor, synchronous, fresh_client.
  outcome_cases o o_plain; destruct array; cbv zeta.
  all: step; change (timer_delay 0) with 1%N.
  all: destruct (N.lt_ge_cases 1 t).
  all: step; reflexivity.
Qed.

(** The operation answers from the microtask queue: the call has returned
    with the operation still pending, and yet its outcome is the result. *)
Lemma zero_deadline_microtask (t : N) (fuel : nat) :
  let w0 := constructor h (prompt o) gp tm stm in
  observed (run (20 + fuel) [timed0; TimePasses t] w0) = [(0, settles_as array o)].
Proof.
  subst timed0. unfold constructor, prompt, fresh_client.
  outcome_cases o o_plain; destruct array; cbv zeta.
  all: step; change (timer_delay 0) with 1%N.
  all: destruct (N.lt_ge_cases 1 t).
  all: step; reflexivity.
Qed.

End ZeroDeadline.

(** C8 (as amended). A deadline of zero is no expired deadline: the host
    runs it as a timer of one millisecond, and the call is the call with a
    deadline of 1.  It has the outcome of the operation when the operation
    answers before the call returns, from the microtask queue, or in a
    later task that runs before the timer does; it fails with Timeout when
    the timer runs first, which it does not before one millisecond has
    passed. *)
Theorem zero_deadline_is_a_timer
    (h : host) (gp : string) (tm stm : option N) (ex : executor) (array : bool)
    (o : outcome) (t : N) (fuel : nat) :
  plain o ->
  let timed0 := UserCode [Call_timedPromiseByCallback ex (Some 0%N) array] in
  let answer := ClientReplies 0 (op_reply o) in
  let result (k : client) (script : list task) :=
    observed (run (20 + fuel) (timed0 :: script) (constructor h k gp tm stm)) in
  (* zero is one millisecond *)
  (forall w, timedPromiseByCallback ex (Some 0%N) array w =
             timedPromiseByCallback ex (Some 1%N) array w) /\
  (* the operation answers before the timer runs *)
  result networked [answer] = [(0, settles_as array o)] /\
  result networked [TimePasses 1; answer] = [(0, settles_as array o)] /\
  result (synchronous o) [TimePasses t] = [(0, settles_as array o)] /\
  result (prompt o) [TimePasses t] = [(0, settles_as array o)] /\
  (* the timer runs first *)
  result networked [TimePasses 1; TimersRun; answer] = [(0, Rejects Timeout)] /\
  ((1 < t)%N -> result networked [TimePasses t; answer] = [(0, Rejects Timeout)]).
Proof.
  intros Ho.
  pose proof (zero_deadline_is_one ex array) as H0.
  pose proof (zero_deadline_answered h gp tm stm ex array o Ho fuel) as [H1 H2].
  pose proof (zero_deadline_synchronous h gp tm stm ex array o Ho t fuel) as H3.
  pose proof (zero_deadline_microtask h gp tm stm ex array o Ho t fuel) as H4.
  pose proof (zero_deadline_missed h gp tm stm ex array o Ho t fuel) as [H5 H6].
  cbv beta zeta in *.
  exact (conj H0 (conj H1 (conj H2 (conj H3 (conj H4 (conj H5 H6)))))).
Qed.

Lemma zero_deadline_is_a_timer_witness :
  let timed0 := UserCode [Call_timedPromiseByCallback Exec_mkdirp (Some 0%N) false] in
  let o := Fulfils (VStr "/groups/demo") in
  let result (k : client) (script : list task) :=
    observed (run 20 (timed0 :: script)
                (constructor sample_host k "/groups/demo" None None)) in
  result networked [ClientReplies 0 (op_reply o)] = [(0, o)] /\
  result networked [TimePasses 5; ClientReplies 0 (op_reply o)] = [(0, Rejects Timeout)].
Proof.
  cbv zeta.
  destruct (zero_deadline_is_a_timer sample_host "/groups/demo" None None Exec_mkdirp
              false (Fulfils (VStr "/groups/demo")) 5%N 0 I)
    as (_ & H1 & _ & _ & _ & _ & H6).
  exact (conj H1 (H6 eq_refl)).
Defined.

(** C8, as the specification states it, fails: here the operation is not
    complete when the call returns (its promise is pending), the deadline is
    zero, and the call does not fail with Timeout: it has the outcome of the
    operation, which answered from the microtask queue. *)
Lemma zero_deadline_is_not_expired :
  let timed0 := UserCode [Call_timedPromiseByCallback Exec_mkdirp (Some 0%N) false] in
  let o := Fulfils (VStr "/groups/demo") in
  let w0 := constructor sample_host (prompt o) "/groups/demo" None None in
  p_state <$> promises (rt (task_body timed0 w0)) !! 0 = Some Pending /\
  observed (run 20 [timed0; TimePasses 5] w0) = [(0, o)] /\
  observed (run 20 [timed0; TimePasses 5] w0) <> [(0, Rejects Timeout)].
Proof.
  cbv zeta. split; [vm_compute; reflexivity|].
  split; [vm_compute; reflexivity|]. vm_compute. discriminate.
Qed.
(* ================================================================== *)
(** ** Illegal member identifiers *)
(* ================================================================== *)

Section IllegalIds.

Lemma Promise_reject_spec (e : value) (s : runtime) :
  Promise_reject e s =
    (length (promises s),
     set_tracked (fun tr => tr ++ [length (promises s)])
       (set_flags (fun fl => fl ++ [true])
          (set_promises
             (fun ps => ps ++ [{| p_state := Rejected e; p_reactions := [];
                                   p_handled := false |}]) s))).
Proof.
  unfold Promise_reject, new_promise, reject_fn, flag_is_clear.
  cbn [flags set_flags set_promises].
  rewrite lookup_app_r, Nat.sub_diag by lia. cbn [lookup list_lookup].
  unfold reject_promise. cbn [promises set_flags set_promises].
  rewrite lookup_app_r, Nat.sub_diag by lia. cbn [lookup list_lookup p_handled pending_promise p_reactions trigger map].
  unfold set_tracked, set_microtasks, set_promises, set_flags; cbn.
  rewrite app_nil_r.
  f_equal. f_equal.
  - replace (length (promises s)) with (length (promises s) + 0) at 1 by lia.
    rewrite insert_app_r. reflexivity.
  - replace (length (flags s)) with (length (flags s) + 0) at 1 by lia.
    rewrite insert_app_r. reflexivity.
Qed.

Lemma Promise_reject_at_once (e : value) (w w1 : world) :
  cl w1 = cl w -> mg w1 = mg w ->
  promises (rt w1) = promises (rt w) ->
  microtasks (rt w1) = microtasks (rt w) ->
  timers (rt w1) = timers (rt w) ->
  rejected_at_once e w
    (let '(p, s1) := Promise_reject e (rt w1) in (Normal (VPromise p), set_rt s1 w1)).
Proof.
  intros Hcl Hmg Hps Hmt Htm. rewrite Promise_reject_spec.
  exists (length (promises (rt w))). cbn. rewrite Hps.
  repeat split; try assumption.
  - apply lookup_ge_None. lia.
  - rewrite lookup_app_r, Nat.sub_diag by lia. reflexivity.
Qed.

(** C7. When the derivation of the member path fails for [id], both
    registerMember(id, data) and getMemberData(id) return a promise that is
    already rejected with the 'Illegal member ID' error (they do not throw),
    and the client receives no call. *)
Theorem illegal_id_rejected (w : world) (id data : value) :
  getMemberPath (mg w) id = None ->
  rejected_at_once IllegalMemberId w (registerMember id data w) /\
  rejected_at_once IllegalMemberId w (getMemberData id w).
Proof.
  intros Hp.
  assert (Hid : id <> VUndefined).
  { intros ->. unfold getMemberPath in Hp. simpl in Hp. discriminate. }
  split.
  - unfold registerMember.
    set (dw := match data with
               | VUndefined => let '(l, s1) := alloc [] (rt w) in (VObj l, set_rt s1 w)
               | _ => (data, w)
               end).
    assert (Hdw : cl (snd dw) = cl w /\ mg (snd dw) = mg w /\
                  promises (rt (snd dw)) = promises (rt w) /\
                  microtasks (rt (snd dw)) = microtasks (rt w) /\
                  timers (rt (snd dw)) = timers (rt w)).
    { subst dw. destruct data; cbn; auto. }
    destruct dw as [data' w1]. cbn [snd] in Hdw.
    destruct Hdw as (Hcl & Hmg & Hps & Hmt & Htm).
    destruct id; try congruence;
      rewrite Hmg, getMemberPath_usable, Hp;
      apply Promise_reject_at_once; assumption.
  - unfold getMemberData. rewrite getMemberPath_usable, Hp.
    apply Promise_reject_at_once; reflexivity.
Qed.

Lemma illegal_id_rejected_witness :
  let w := constructor sample_host networked "/groups/demo" None None in
  rejected_at_once IllegalMemberId w (registerMember (VStr "a/b") VUndefined w) /\
  rejected_at_once IllegalMemberId w (getMemberData (VStr "a/b") w).
Proof.
  exact (illegal_id_rejected
           (constructor sample_host networked "/groups/demo" None None)
           (VStr "a/b") VUndefined eq_refl).
Defined.

(** The same holds for an identifier drawn from [uuid()], should it ever
    contain the separator. *)
Lemma illegal_generated_id_rejected (w : world) (data : value) :
  getMemberPath (mg w) (VStr (uuid_v4 (hs w) (uuids (rt w)))) = None ->
  match data with VUndefined | VObj _ => True | _ => False end ->
  rejected_at_once IllegalMemberId w (registerMember VUndefined data w).
Proof.
  intros Hp Hd. unfold registerMember.
  destruct data; try contradiction; cbn [alloc].
  - change (mg (with_rt (set_uuids S)
                  (set_rt (set_heap (fun hp => hp ++ [[]]) (rt w)) w)))
      with (mg w).
    change (VStr (uuid_v4 (hs (set_rt (set_heap (fun hp => hp ++ [[]]) (rt w)) w))
                    (uuids (rt (set_rt (set_heap (fun hp => hp ++ [[]]) (rt w)) w)))))
      with (VStr (uuid_v4 (hs w) (uuids (rt w)))).
    rewrite getMemberPath_usable, Hp.
    exact (Promise_reject_at_once IllegalMemberId w
             (with_rt (set_uuids S)
                (set_rt (set_heap (fun hp => hp ++ [[]]) (rt w)) w))
             eq_refl eq_refl eq_refl eq_refl eq_refl).
  - change (mg (with_rt (set_uuids S) w)) with (mg w).
    rewrite getMemberPath_usable, Hp.
    exact (Promise_reject_at_once IllegalMemberId w (with_rt (set_uuids S) w)
             eq_refl eq_refl eq_refl eq_refl eq_refl).
Qed.

End IllegalIds.
(* ================================================================== *)
(** ** Registration *)
(* ================================================================== *)

Section Registration.

Variables (h : host) (gp : string) (tm stm : option N).
Variables (t0 t1 : N) (created created' : string).

Let w0 : world := constructor h networked gp tm stm.
Let stamp : string * value := ("registrationTimeUTC", VNum (Z.of_N t0)).

(** registerMember() without an id is registerMember(id) for the next
    identifier of [uuid()], which is thereby used up. *)
Lemma registerMember_draws (data : value) (w : world) :
  registerMember VUndefined data w =
  registerMember (VStr (uuid_v4 (hs w) (uuids (rt w)))) data (with_rt (set_uuids S) w).
Proof. unfold registerMember. destruct data; reflexivity. Qed.

Lemma clock_at_start (fuel : nat) :
  clock (rt (run (20 + fuel) [TimePasses t0] w0)) = t0.
Proof.
  subst w0. unfold constructor, networked, fresh_client.
  step. rewrite run_nil. reflexivity.
Qed.

(** registerMember() with neither id nor data, called at [t0]: what the
    client is asked, and that nothing is settled before it answers. *)
Lemma registerMember_defaults_asked (path : string) (fuel : nat) :
  getMemberPath (mg w0) (VStr (uuid_v4 h 0)) = Some path ->
  let asked := run (20 + fuel)
                 [TimePasses t0;
                  UserCode [Call_registerMember VUndefined VUndefined]] w0 in
  call_request <$> calls (cl asked) =
    [Create path (JSON_text h [[stamp]] (VObj 0) []) VNull ZK_CREATE_MODE_EPHEMERAL] /\
  observed asked = [] /\
  read 0 (rt asked) = [stamp].
Proof.
  intros Hp. subst w0 stamp. unfold constructor, networked, fresh_client in *.
  destruct tm as [d|]; cbv zeta.
  all: step.
  all: rewrite run_cons; erewrite perform_eq by timers_due; expose.
  all: rewrite (registerMember_generated path) by exact Hp; crunch.
  all: rewrite run_nil; repeat split; reflexivity.
Qed.

(** The same call, answered with success [t1] later. *)
Lemma registerMember_defaults (path : string) (fuel : nat) :
  getMemberPath (mg w0) (VStr (uuid_v4 h 0)) = Some path ->
  in_time t1 tm ->
  let w := run (20 + fuel)
             [TimePasses t0; UserCode [Call_registerMember VUndefined VUndefined];
              TimePasses t1; ClientReplies 0 [VNull; VStr created]] w0 in
  observed w = [(0, Fulfils (VObj 1))] /\
  read 1 (rt w) = [("id", VStr (uuid_v4 h 0)); ("data", VObj 0)] /\
  read 0 (rt w) = [stamp] /\
  clock (rt w) = (t0 + t1)%N.
Proof.
  intros Hp Ht. subst w0 stamp. unfold constructor, networked, fresh_client in *.
  destruct tm as [d|]; simpl in Ht; cbv zeta.
  all: step.
  all: rewrite run_cons; erewrite perform_eq by timers_due; expose.
  all: rewrite (registerMember_generated path) by exact Hp; crunch.
  all: do 2 step; rewrite run_nil; repeat split; reflexivity.
Qed.

(** registerMember(undefined, data) for an object [data] the caller made
    with the properties [fields], and which can be serialised. *)
Lemma registerMember_augments_asked (fields : object) (path : string) (fuel : nat) :
  getMemberPath (mg w0) (VStr (uuid_v4 h 0)) = Some path ->
  serialisable h [set_field "registrationTimeUTC" (VNum (Z.of_N t0)) fields] (VObj 0)
    = true ->
  let asked := run (20 + fuel)
                 [UserCode [New_object fields]; TimePasses t0;
                  UserCode [Call_registerMember VUndefined (VObj 0)]] w0 in
  call_request <$> calls (cl asked) =
    [Create path
       (JSON_text h [set_field "registrationTimeUTC" (VNum (Z.of_N t0)) fields]
          (VObj 0) [])
       VNull ZK_CREATE_MODE_EPHEMERAL] /\
  observed asked = [].
Proof.
  intros Hp Hs. subst w0 stamp. unfold constructor, networked, fresh_client in *.
  destruct tm as [d|]; cbv zeta.
  all: do 2 step.
  all: rewrite run_cons; erewrite perform_eq by timers_due; expose.
  all: rewrite (registerMember_generated_for (VObj 0) path)
         by first [discriminate | exact Hp].
  all: rewrite create_member_object by exact Hs; crunch.
  all: rewrite run_nil; repeat split; reflexivity.
Qed.

Lemma registerMember_augments (fields : object) (path : string) (fuel : nat) :
  getMemberPath (mg w0) (VStr (uuid_v4 h 0)) = Some path ->
  serialisable h [set_field "registrationTimeUTC" (VNum (Z.of_N t0)) fields] (VObj 0)
    = true ->
  in_time t1 tm ->
  let w := run (20 + fuel)
             [UserCode [New_object fields]; TimePasses t0;
              UserCode [Call_registerMember VUndefined (VObj 0)];
              TimePasses t1; ClientReplies 0 [VNull; VStr created]] w0 in
  observed w = [(1, Fulfils (VObj 1))] /\
  read 1 (rt w) = [("id", VStr (uuid_v4 h 0)); ("data", VObj 0)] /\
  read 0 (rt w) = set_field "registrationTimeUTC" (VNum (Z.of_N t0)) fields.
Proof.
  intros Hp Hs Ht. subst w0 stamp. unfold constructor, networked, fresh_client in *.
  destruct tm as [d|]; simpl in Ht; cbv zeta.
  all: do 2 step.
  all: rewrite run_cons; erewrite perform_eq by timers_due; expose.
  all: rewrite (registerMember_generated_for (VObj 0) path)
         by first [discriminate | exact Hp].
  all: rewrite create_member_object by exact Hs; crunch.
  all: do 2 step; rewrite run_nil; repeat split; reflexivity.
Qed.

(** Two calls without id take two identifiers, the first two of [uuid()]. *)
Lemma registerMember_twice (path path' : string) (fuel : nat) :
  getMemberPath (mg w0) (VStr (uuid_v4 h 0)) = Some path ->
  getMemberPath (mg w0) (VStr (uuid_v4 h 1)) = Some path' ->
  let w := run (20 + fuel)
             [UserCode [Call_registerMember VUndefined VUndefined];
              UserCode [Call_registerMember VUndefined VUndefined];
              ClientReplies 0 [VNull; VStr created];
              ClientReplies 1 [VNull; VStr created']] w0 in
  observed w = [(0, Fulfils (VObj 2)); (1, Fulfils (VObj 3))] /\
  get_field "id" (read 2 (rt w)) = VStr (uuid_v4 h 0) /\
  get_field "id" (read 3 (rt w)) = VStr (uuid_v4 h 1) /\
  get_field "data" (read 2 (rt w)) = VObj 0 /\
  get_field "data" (read 3 (rt w)) = VObj 1.
Proof.
  intros Hp Hp'. subst w0 stamp. unfold constructor, networked, fresh_client in *.
  destruct tm as [d|]; cbv zeta.
  all: rewrite run_cons; erewrite perform_eq by timers_due; expose.
  all: rewrite (registerMember_generated path) by exact Hp; crunch.
  all: rewrite run_cons; erewrite perform_eq by timers_due; expose.
  all: rewrite (registerMember_generated path') by exact Hp'; crunch; settle_timers.
  all: do 2 step; rewrite run_nil; repeat split; reflexivity.
Qed.

End Registration.

(** C5. registerMember() without an id takes the next identifier of
    [uuid()], so that two calls take two identifiers; [data], an empty
    object when it is not given, receives [registrationTimeUTC], the clock
    reading at the call, which lies between the start of the call and its
    resolution; the client is asked to create the node at the member path
    with the serialised data, no ACL and the ephemeral mode; nothing is
    settled before the client answers, and when it reports success the
    promise is fulfilled with { id, data }, data being that object. *)
Theorem registerMember_contract
    (h : host) (gp : string) (tm stm : option N) (t0 t1 : N)
    (created created' path path' : string) (fields : object)
    (data : value) (w : world) (fuel : nat) :
  let w0 := constructor h networked gp tm stm in
  let stamp := ("registrationTimeUTC", VNum (Z.of_N t0)) in
  getMemberPath (mg w0) (VStr (uuid_v4 h 0)) = Some path ->
  getMemberPath (mg w0) (VStr (uuid_v4 h 1)) = Some path' ->
  serialisable h [set_field "registrationTimeUTC" (VNum (Z.of_N t0)) fields] (VObj 0)
    = true ->
  in_time t1 tm ->
  (* the identifier *)
  registerMember VUndefined data w =
    registerMember (VStr (uuid_v4 (hs w) (uuids (rt w)))) data
      (with_rt (set_uuids S) w) /\
  (let w2 := run (20 + fuel)
               [UserCode [Call_registerMember VUndefined VUndefined];
                UserCode [Call_registerMember VUndefined VUndefined];
                ClientReplies 0 [VNull; VStr created];
                ClientReplies 1 [VNull; VStr created']] w0 in
   observed w2 = [(0, Fulfils (VObj 2)); (1, Fulfils (VObj 3))] /\
   get_field "id" (read 2 (rt w2)) = VStr (uuid_v4 h 0) /\
   get_field "id" (read 3 (rt w2)) = VStr (uuid_v4 h 1) /\
   get_field "data" (read 2 (rt w2)) = VObj 0 /\
   get_field "data" (read 3 (rt w2)) = VObj 1) /\
  (* neither id nor data *)
  (let start := run (20 + fuel) [TimePasses t0] w0 in
   let asked := run (20 + fuel)
                  [TimePasses t0;
                   UserCode [Call_registerMember VUndefined VUndefined]] w0 in
   let done := run (20 + fuel)
                 [TimePasses t0; UserCode [Call_registerMember VUndefined VUndefined];
                  TimePasses t1; ClientReplies 0 [VNull; VStr created]] w0 in
   call_request <$> calls (cl asked) =
     [Create path (JSON_text h [[stamp]] (VObj 0) []) VNull ZK_CREATE_MODE_EPHEMERAL] /\
   observed asked = [] /\
   observed done = [(0, Fulfils (VObj 1))] /\
   read 1 (rt done) = [("id", VStr (uuid_v4 h 0)); ("data", VObj 0)] /\
   read 0 (rt done) = [stamp] /\
   exists ts,
     get_field "registrationTimeUTC" (read 0 (rt done)) = VNum ts /\
     (Z.of_N (clock (rt start)) <= ts <= Z.of_N (clock (rt done)))%Z) /\
  (* data of the caller *)
  (let asked := run (20 + fuel)
                  [UserCode [New_object fields]; TimePasses t0;
                   UserCode [Call_registerMember VUndefined (VObj 0)]] w0 in
   let done := run (20 + fuel)
                 [UserCode [New_object fields]; TimePasses t0;
                  UserCode [Call_registerMember VUndefined (VObj 0)];
                  TimePasses t1; ClientReplies 0 [VNull; VStr created]] w0 in
   call_request <$> calls (cl asked) =
     [Create path
        (JSON_text h [set_field "registrationTimeUTC" (VNum (Z.of_N t0)) fields]
           (VObj 0) [])
        VNull ZK_CREATE_MODE_EPHEMERAL] /\
   observed asked = [] /\
   observed done = [(1, Fulfils (VObj 1))] /\
   read 1 (rt done) = [("id", VStr (uuid_v4 h 0)); ("data", VObj 0)] /\
   read 0 (rt done) = set_field "registrationTimeUTC" (VNum (Z.of_N t0)) fields).
Proof.
  intros w0 stamp Hp Hp' Hs Ht.
  pose proof (registerMember_draws data w) as H0.
  pose proof (registerMember_twice h gp tm stm created created' path path' fuel Hp Hp')
    as H1.
  pose proof (clock_at_start h gp tm stm t0 fuel) as Hc.
  pose proof (registerMember_defaults_asked h gp tm stm t0 path fuel Hp) as (A1 & A2 & _).
  pose proof (registerMember_defaults h gp tm stm t0 t1 created path fuel Hp Ht)
    as (D1 & D2 & D3 & D4).
  pose proof (registerMember_augments_asked h gp tm stm t0 fields path fuel Hp Hs)
    as (B1 & B2).
  pose proof (registerMember_augments h gp tm stm t0 t1 created fields path fuel Hp Hs Ht)
    as (E1 & E2 & E3).
  subst w0 stamp. cbv beta zeta in *.
  refine (conj H0 (conj H1 (conj (conj A1 (conj A2 (conj D1 (conj D2 (conj D3 _)))))
            (conj B1 (conj B2 (conj E1 (conj E2 E3))))))).
  rewrite D3, Hc, D4. exists (Z.of_N t0). split; [reflexivity|lia].
Qed.

Lemma registerMember_contract_witness :
  let w0 := constructor sample_host networked "/groups/demo" (Some 1000%N) None in
  let asked := run 20 [TimePasses 5;
                       UserCode [Call_registerMember VUndefined VUndefined]] w0 in
  let done := run 20 [TimePasses 5; UserCode [Call_registerMember VUndefined VUndefined];
                      TimePasses 30;
                      ClientReplies 0 [VNull; VStr "/groups/demo/member-0"]] w0 in
  call_request <$> calls (cl asked) = [Create "/groups/demo/member-0" "{}" VNull 1] /\
  observed asked = [] /\
  observed done = [(0, Fulfils (VObj 1))] /\
  read 1 (rt done) = [("id", VStr "member-0"); ("data", VObj 0)] /\
  read 0 (rt done) = [("registrationTimeUTC", VNum 5)].
Proof.
  cbv zeta.
  destruct (registerMember_contract sample_host "/groups/demo" (Some 1000%N) None
              5%N 30%N "/groups/demo/member-0" "/groups/demo/member-1"
              "/groups/demo/member-0" "/groups/demo/member-1"
              [("weight", VNum 1)] VUndefined
              (constructor sample_host networked "/groups/demo" (Some 1000%N) None)
              0 eq_refl eq_refl eq_refl eq_refl)
    as (_ & _ & (H1 & H2 & H3 & H4 & H5 & _) & _).
  exact (conj H1 (conj H2 (conj H3 (conj H4 H5)))).
Defined.
(* ================================================================== *)
(** ** The data object of the caller *)
(* ================================================================== *)

Section InPlace.

Variables (h : host) (gp : string) (tm stm : option N).
Variables (t0 t1 : N) (created : string) (id : value) (fields : object).

Let w0 : world := constructor h networked gp tm stm.
Let doc : object := set_field "registrationTimeUTC" (VNum (Z.of_N t0)) fields.
Let called : list task :=
  [UserCode [New_object fields]; TimePasses t0;
   UserCode [Call_registerMember id (VObj 0)]].

Hypothesis id_given : id <> VUndefined.

(** The call, for data that can be serialised. *)
Lemma registerMember_in_place (path : string) (fuel : nat) :
  getMemberPath (mg w0) id = Some path ->
  in_time t1 tm ->
  serialisable h [doc] (VObj 0) = true ->
  let w := run (20 + fuel) called w0 in
  let w' := run (20 + fuel) [TimePasses t1; ClientReplies 0 [VNull; VStr created]] w in
  read 0 (rt w) = doc /\
  (exists p, returned w = [Normal (VObj 0); Normal (VPromise p)]) /\
  observed w' = [(1, Fulfils (VObj 1))] /\
  get_field "data" (read 1 (rt w')) = VObj 0 /\
  get_field "id" (read 1 (rt w')) = id /\
  get_field "registrationTimeUTC" (read 0 (rt w')) = VNum (Z.of_N t0).
Proof.
  intros Hp Ht Hs. subst w0 doc called.
  unfold constructor, networked, fresh_client in *.
  destruct tm as [d|]; simpl in Ht; cbv zeta.
  all: do 2 step.
  all: rewrite run_cons; erewrite perform_eq by timers_due; expose.
  all: rewrite (registerMember_object id 0 path) by assumption.
  all: rewrite create_member_object by exact Hs; crunch.
  all: rewrite !run_nil; split; [reflexivity|]; split; [eexists; reflexivity|].
  all: do 2 step; rewrite run_nil.
  all: do 3 (split; [reflexivity|]).
  all: exact (get_field_set_field "registrationTimeUTC" (VNum (Z.of_N t0)) fields).
Qed.

(** The call, for data that cannot be serialised: the write has been made
    when [JSON.stringify] throws. *)
Lemma registerMember_writes_first (path : string) (fuel : nat) :
  getMemberPath (mg w0) id = Some path ->
  serialisable h [doc] (VObj 0) = false ->
  let w := run (20 + fuel) called w0 in
  read 0 (rt w) = doc /\
  (exists e, returned w = [Normal (VObj 0); Throw e]) /\
  calls (cl w) = [].
Proof.
  intros Hp Hs. subst w0 doc called.
  unfold constructor, networked, fresh_client in *.
  destruct tm as [d|]; cbv zeta.
  all: do 2 step.
  all: rewrite run_cons; erewrite perform_eq by timers_due; expose.
  all: rewrite (registerMember_object id 0 path) by assumption.
  all: rewrite create_member_unserialisable by exact Hs; crunch.
  all: rewrite !run_nil; split; [reflexivity|]; split; [eexists; reflexivity|].
  all: reflexivity.
Qed.

(** C9. registerMember(id, data) writes [registrationTimeUTC] into the
    object the caller passed, not into a copy: the caller's object has the
    property as soon as the call returns (or throws, which it does after
    the write when the data cannot be serialised), and the [data] of the
    result is the reference that was passed in. *)
Theorem registerMember_mutates_argument (path : string) (fuel : nat) :
  getMemberPath (mg w0) id = Some path ->
  in_time t1 tm ->
  let w := run (20 + fuel) called w0 in
  let w' := run (20 + fuel) [TimePasses t1; ClientReplies 0 [VNull; VStr created]] w in
  read 0 (rt w) = doc /\
  (serialisable h [doc] (VObj 0) = false ->
   (exists e, returned w = [Normal (VObj 0); Throw e]) /\
   calls (cl w) = []) /\
  (serialisable h [doc] (VObj 0) = true ->
   (exists p, returned w = [Normal (VObj 0); Normal (VPromise p)]) /\
   observed w' = [(1, Fulfils (VObj 1))] /\
   get_field "data" (read 1 (rt w')) = VObj 0 /\
   get_field "id" (read 1 (rt w')) = id /\
   get_field "registrationTimeUTC" (read 0 (rt w')) = VNum (Z.of_N t0)).
Proof.
  intros Hp Ht.
  pose proof (registerMember_in_place path fuel Hp Ht) as H1.
  pose proof (registerMember_writes_first path fuel Hp) as H2.
  cbv beta zeta in *.
  destruct (serialisable h [doc] (VObj 0)).
  - destruct (H1 eq_refl) as [Hw H1']. split; [exact Hw|].
    split; [discriminate|]. intros _. exact H1'.
  - destruct (H2 eq_refl) as [Hw H2']. split; [exact Hw|].
    split; [|discriminate]. intros _. exact H2'.
Qed.

End InPlace.

Lemma registerMember_mutates_argument_witness :
  let w0 := constructor sample_host networked "/groups/demo" None None in
  let called fields := [UserCode [New_object fields]; TimePasses 7;
                        UserCode [Call_registerMember (VStr "node-a") (VObj 0)]] in
  (let w := run 20 (called [("weight", VNum 1)]) w0 in
   let w' := run 20 [TimePasses 3; ClientReplies 0 [VNull; VStr "/groups/demo/node-a"]] w in
   read 0 (rt w) = [("weight", VNum 1); ("registrationTimeUTC", VNum 7)] /\
   (exists p, returned w = [Normal (VObj 0); Normal (VPromise p)]) /\
   observed w' = [(1, Fulfils (VObj 1))] /\
   get_field "data" (read 1 (rt w')) = VObj 0 /\
   get_field "id" (read 1 (rt w')) = VStr "node-a" /\
   get_field "registrationTimeUTC" (read 0 (rt w')) = VNum 7) /\
  (let w := run 20 (called [("self", VObj 0)]) w0 in
   read 0 (rt w) = [("self", VObj 0); ("registrationTimeUTC", VNum 7)] /\
   (exists e, returned w = [Normal (VObj 0); Throw e]) /\
   calls (cl w) = []).
Proof.
  cbv beta zeta.
  destruct (registerMember_mutates_argument sample_host "/groups/demo" None None
              7%N 3%N "/groups/demo/node-a" (VStr "node-a") [("weight", VNum 1)]
              ltac:(discriminate) "/groups/demo/node-a" 0 eq_refl I)
    as (H1 & _ & H2).
  destruct (registerMember_mutates_argument sample_host "/groups/demo" None None
              7%N 3%N "/groups/demo/node-a" (VStr "node-a") [("self", VObj 0)]
              ltac:(discriminate) "/groups/demo/node-a" 0 eq_refl I)
    as (H3 & H4 & _).
  exact (conj (conj H1 (H2 eq_refl)) (conj H3 (H4 eq_refl))).
Defined.
(* ================================================================== *)
(** ** The handlers that wait: nothing in the run time makes more of them *)
(* ================================================================== *)

Section Potential.

Lemma weight_insert (ps : list promise) (p : nat) (pr x : promise) :
  ps !! p = Some pr ->
  sum_list_with promise_weight (<[p := x]> ps) + promise_weight pr =
  sum_list_with promise_weight (ps) + promise_weight x.
Proof.
  revert p. induction ps as [|a ps IH]; intros [|p] H; simplify_eq/=; try lia.
  specialize (IH _ H). lia.
Qed.

Lemma weight_alter (ps : list promise) (p : nat) (f : promise -> promise) (pr : promise) :
  ps !! p = Some pr ->
  sum_list_with promise_weight (alter f p ps) + promise_weight pr =
  sum_list_with promise_weight (ps) + promise_weight (f pr).
Proof.
  revert p. induction ps as [|a ps IH]; intros [|p] H; simplify_eq/=; try lia.
  specialize (IH _ H). lia.
Qed.

Lemma alter_absent {A} (l : list A) (i : nat) (f : A -> A) :
  l !! i = None -> alter f i l = l.
Proof.
  revert i. induction l as [|a l IH]; intros [|i] H; simplify_eq/=; try reflexivity.
  f_equal. apply IH. assumption.
Qed.

Lemma trigger_weight (rs : list reaction) (rejected : bool) (arg : value) :
  sum_list_with job_weight (trigger rs rejected arg) <= sum_list_with reaction_weight (rs).
Proof.
  unfold trigger. induction rs as [|rc rs IH]; csimpl in *; [lia|].
  unfold reaction_weight at 1. destruct rejected; csimpl in *; lia.
Qed.

Lemma potential_enqueue (j : job) (s : runtime) :
  potential (enqueue j s) = potential s + job_weight j.
Proof.
  unfold potential, enqueue; cbn. rewrite sum_list_with_app. simpl. lia.
Qed.

Lemma potential_new_promise (s : runtime) :
  potential (snd (new_promise s)) = potential s.
Proof.
  unfold potential, new_promise; cbn. rewrite sum_list_with_app. simpl. lia.
Qed.

Lemma potential_new_flag (s : runtime) :
  potential (snd (new_flag s)) = potential s.
Proof. reflexivity. Qed.

Lemma potential_set_flags f (s : runtime) : potential (set_flags f s) = potential s.
Proof. reflexivity. Qed.

Lemma potential_fulfill (p : pid) (v : value) (s : runtime) :
  potential (fulfill_promise p v s) <= potential s.
Proof.
  unfold fulfill_promise. destruct (promises s !! p) as [pr|] eqn:E; [|lia].
  unfold potential; cbn. rewrite sum_list_with_app.
  pose proof (weight_insert (promises s) p pr
                {| p_state := Fulfilled v; p_reactions := []; p_handled := p_handled pr |} E) as H.
  pose proof (trigger_weight (p_reactions pr) false v) as Ht.
  unfold promise_weight at 2 4 in H. simpl in H. lia.
Qed.

Lemma potential_reject (p : pid) (e : value) (s : runtime) :
  potential (reject_promise p e s) <= potential s.
Proof.
  unfold reject_promise. destruct (promises s !! p) as [pr|] eqn:E; [|lia].
  assert (H0 : forall s', potential (if p_handled pr then s'
                                     else set_tracked (fun t => t ++ [p]) s')
                          = potential s') by (intros; destruct (p_handled pr); reflexivity).
  rewrite H0. unfold potential; cbn. rewrite sum_list_with_app.
  pose proof (weight_insert (promises s) p pr
                {| p_state := Rejected e; p_reactions := []; p_handled := p_handled pr |} E) as H.
  pose proof (trigger_weight (p_reactions pr) true e) as Ht.
  unfold promise_weight at 2 4 in H. simpl in H. lia.
Qed.

Lemma potential_resolve_fn (p : pid) (r : rid) (v : value) (s : runtime) :
  potential (resolve_fn p r v s) <= potential s.
Proof.
  unfold resolve_fn. destruct (flag_is_clear r s); [|lia].
  destruct v; try (etransitivity; [apply potential_fulfill|]; rewrite potential_set_flags; lia).
  destruct (Nat.eqb _ _).
  - etransitivity; [apply potential_reject|]. rewrite potential_set_flags. lia.
  - rewrite potential_enqueue, potential_set_flags. simpl. lia.
Qed.

Lemma potential_reject_fn (p : pid) (r : rid) (e : value) (s : runtime) :
  potential (reject_fn p r e s) <= potential s.
Proof.
  unfold reject_fn. destruct (flag_is_clear r s); [|lia].
  etransitivity; [apply potential_reject|]. rewrite potential_set_flags. lia.
Qed.

Lemma potential_mark_handled (p : pid) (s : runtime) :
  potential (mark_handled p s) = potential s.
Proof.
  unfold potential, mark_handled; cbn. f_equal.
  destruct (promises s !! p) as [pr|] eqn:E.
  - pose proof (weight_alter (promises s) p
                  (fun pr => {| p_state := p_state pr; p_reactions := p_reactions pr;
                                p_handled := true |}) pr E) as H.
    unfold promise_weight at 2 4 in H. simpl in H. lia.
  - rewrite alter_absent by assumption. reflexivity.
Qed.

Lemma potential_add_reaction (p : pid) (rc : reaction) (s : runtime) :
  potential (add_reaction p rc s) <= potential s + reaction_weight rc.
Proof.
  unfold potential, add_reaction; cbn.
  destruct (promises s !! p) as [pr|] eqn:E.
  - pose proof (weight_alter (promises s) p
                  (fun pr => {| p_state := p_state pr;
                                p_reactions := p_reactions pr ++ [rc];
                                p_handled := p_handled pr |}) pr E) as H.
    unfold promise_weight at 2 4 in H. simpl in H.
    rewrite sum_list_with_app in H. simpl in H. lia.
  - rewrite alter_absent by assumption. lia.
Qed.

Lemma potential_untrack (p : pid) (s : runtime) : potential (untrack p s) = potential s.
Proof. reflexivity. Qed.

Lemma potential_then (p : pid) (onF onR : option handler) (s : runtime) :
  potential (snd (then_ p onF onR s)) <= potential s + emits onF + emits onR.
Proof.
  unfold then_.
  pose proof (potential_new_promise s) as Hn.
  destruct (new_promise s) as [[d r] s1]. simpl in Hn.
  destruct (promises s1 !! p) as [pr|]; simpl; [|lia].
  rewrite potential_mark_handled.
  destruct (p_state pr).
  - etransitivity; [apply potential_add_reaction|]. unfold reaction_weight; simpl. lia.
  - rewrite potential_enqueue. simpl. lia.
  - rewrite potential_enqueue, potential_untrack. simpl. lia.
Qed.

Lemma potential_Promise_reject (e : value) (s : runtime) :
  potential (snd (Promise_reject e s)) <= potential s.
Proof.
  unfold Promise_reject.
  pose proof (potential_new_promise s) as Hn.
  destruct (new_promise s) as [[p r] s1]. simpl in *.
  etransitivity; [apply potential_reject_fn|]. lia.
Qed.

Lemma potential_Promise_race (items : list pid) (s : runtime) :
  potential (snd (Promise_race items s)) <= potential s.
Proof.
  unfold Promise_race.
  pose proof (potential_new_promise s) as Hn.
  destruct (new_promise s) as [[p r] s1]. simpl in *.
  rewrite <- Hn. clear Hn. revert s1.
  induction items as [|item items IH]; intros s1; simpl; [lia|].
  etransitivity; [apply IH|].
  etransitivity; [apply potential_then|]. simpl. lia.
Qed.

Lemma potential_delay (ms : N) (s : runtime) :
  potential (snd (delay ms s)) = potential s.
Proof.
  unfold delay.
  pose proof (potential_new_promise s) as Hn.
  destruct (new_promise s) as [[p r] s1]. simpl in *. exact Hn.
Qed.

Lemma potential_withTimeout (p : pid) (timeout : option N) (s : runtime) :
  potential (snd (withTimeout p timeout s)) <= potential s.
Proof.
  unfold withTimeout. destruct timeout as [ms|]; [|simpl; lia].
  pose proof (potential_delay ms s) as Hd.
  destruct (delay ms s) as [pd s1]. simpl in Hd.
  pose proof (potential_then pd (Some TimeoutThrower) None s1) as Ht.
  destruct (then_ pd (Some TimeoutThrower) None s1) as [pt s2]. simpl in Ht.
  etransitivity; [apply potential_Promise_race|]. lia.
Qed.

Lemma potential_alloc (o : object) (s : runtime) :
  potential (snd (alloc o s)) = potential s.
Proof. reflexivity. Qed.

Lemma potential_call_node_callback (cb : node_callback) (args : list value) (s : runtime) :
  potential (call_node_callback cb args s) <= potential s.
Proof.
  unfold call_node_callback.
  repeat match goal with |- context [if ?b then _ else _] => destruct b end;
    auto using potential_resolve_fn, potential_reject_fn.
Qed.

Lemma potential_report_rejections (s : runtime) :
  potential (report_rejections s) = potential s.
Proof. reflexivity. Qed.

End Potential.
(* ================================================================== *)
(** ** How the program changes the client and the manager *)
(* ================================================================== *)

Ltac still :=
  split; rewrite ?app_nil_r; auto;
  try (unfold members_events; simpl; lia); try (simpl; constructor).

Section Evolution.

Lemma evolves_refl (w : world) : evolves 0 [] w w.
Proof. still. Qed.

Lemma evolves_trans (k1 k2 : nat) (n1 n2 : list client_call) (w w1 w2 : world) :
  evolves k1 n1 w w1 -> evolves k2 n2 w1 w2 -> evolves (k1 + k2) (n1 ++ n2) w w2.
Proof.
  intros [R1 S1 C1 A1 K1 B1] [R2 S2 C2 A2 K2 B2]. split.
  - congruence.
  - congruence.
  - rewrite C2, C1, app_assoc. reflexivity.
  - rewrite A2, A1. unfold new_watchers. rewrite omap_app, app_assoc. reflexivity.
  - apply Forall_app. split; [assumption|]. rewrite <- R1. assumption.
  - lia.
Qed.

Lemma evolves_step (k : nat) (n : list client_call) (w w1 w2 : world) :
  evolves k n w w1 -> evolves 0 [] w1 w2 -> evolves k n w w2.
Proof.
  intros H1 H2. rewrite <- (app_nil_r n), <- (Nat.add_0_r k).
  eapply evolves_trans; eassumption.
Qed.

Lemma evolves_pets (k : nat) (n : list client_call) (w w1 w2 : world) :
  evolves 0 [] w w1 -> evolves k n w1 w2 -> evolves k n w w2.
Proof.
  intros H1 H2. change n with ([] ++ n). change k with (0 + k).
  eapply evolves_trans; eassumption.
Qed.

Lemma evolves_weaken (k k' : nat) (n : list client_call) (w w' : world) :
  k <= k' -> evolves k n w w' -> evolves k' n w w'.
Proof. intros Hk [R S C A K B]. split; auto. lia. Qed.

(** Changes of the run time alone. *)
Lemma evolves_set_rt (k : nat) (s : runtime) (w : world) :
  potential s <= potential (rt w) + k -> evolves k [] w (set_rt s w).
Proof.
  intros H. still.
Qed.

Lemma evolves_with_rt (f : runtime -> runtime) (w : world) :
  potential (f (rt w)) <= potential (rt w) -> evolves 0 [] w (with_rt f w).
Proof. intros H. apply evolves_set_rt. lia. Qed.

Lemma evolves_set_observed f (w : world) : evolves 0 [] w (set_observed f w).
Proof. still. Qed.

Lemma evolves_set_returned f (w : world) : evolves 0 [] w (set_returned f w).
Proof. still. Qed.

Lemma evolves_subscribe name (w : world) : evolves 0 [] w (with_mg (subscribe name) w).
Proof. still. Qed.

Lemma members_events_emit (name : string) (arg : value) (w : world) :
  members_events (snd (emit name arg w)) =
  members_events w + (if String.eqb name "members" then 1 else 0).
Proof.
  assert (H : members_events (with_mg (log_emit name arg) w) =
              members_events w + (if String.eqb name "members" then 1 else 0)).
  { unfold members_events; cbn. rewrite filter_app, length_app. f_equal.
    destruct (String.eqb_spec name "members") as [->|Hn].
    - reflexivity.
    - rewrite filter_cons_False by exact Hn. reflexivity. }
  unfold emit. repeat match goal with |- context [if ?b then _ else _] =>
    match b with
    | String.eqb name "members" => fail 1
    | _ => destruct b
    end end; exact H.
Qed.

Lemma emit_frame (name : string) (arg : value) (w : world) :
  rt (snd (emit name arg w)) = rt w /\ cl (snd (emit name arg w)) = cl w /\
  relay_of (snd (emit name arg w)) = relay_of w.
Proof.
  unfold emit. repeat match goal with |- context [if ?b then _ else _] => destruct b end;
    auto.
Qed.

Lemma evolves_emit (name : string) (arg : value) (w : world) :
  evolves (if String.eqb name "members" then 1 else 0) [] w (snd (emit name arg w)).
Proof.
  destruct (emit_frame name arg w) as (Hrt & Hcl & Hr).
  pose proof (members_events_emit name arg w) as He.
  split; rewrite ?Hcl, ?Hrt, ?app_nil_r; auto; lia.
Qed.

(** A call of a client method. *)
Lemma evolves_client_invoke (c : client_call) (w : world) :
  carries (relay_of w) c -> evolves 0 [c] w (client_invoke c w).
Proof.
  intros Hc. unfold client_invoke.
  assert (H1 : evolves 0 [c] w (with_cl (log_call c) w)).
  { split.
    - reflexivity.
    - reflexivity.
    - reflexivity.
    - simpl. unfold new_watchers. simpl. destruct (call_watcher c); reflexivity.
    - repeat constructor. exact Hc.
    - unfold members_events. simpl. lia. }
  destruct (replies (cl w) (length (calls (cl w))) c).
  - exact H1.
  - eapply evolves_step; [exact H1|]. apply evolves_with_rt, potential_call_node_callback.
  - eapply evolves_step; [exact H1|]. apply evolves_with_rt.
    rewrite potential_enqueue. simpl. lia.
Qed.

Lemma carries_request_of (ex : executor) (cb : node_callback) (w : world) :
  carries (relay_of w) {| call_request := request_of ex (mg w); call_cb := cb |}.
Proof. destruct ex; reflexivity. Qed.

Lemma evolves_timedPromiseByCallback (ex : executor) (timeout : option N)
    (array : bool) (w : world) :
  exists cb,
    evolves 0 [{| call_request := request_of ex (mg w); call_cb := cb |}] w
      (snd (timedPromiseByCallback ex timeout array w)).
Proof.
  unfold timedPromiseByCallback.
  pose proof (potential_new_promise (rt w)) as Hn.
  destruct (new_promise (rt w)) as [[p r] s1]. simpl in Hn.
  exists (resolverAsCallback p r array).
  set (w1 := run_executor ex (resolverAsCallback p r array) (set_rt s1 w)).
  assert (H1 : evolves 0 [{| call_request := request_of ex (mg w);
                             call_cb := resolverAsCallback p r array |}] w w1).
  { eapply evolves_pets; [apply (evolves_set_rt 0 s1); lia|].
    subst w1. unfold run_executor.
    apply evolves_client_invoke, (carries_request_of ex _ (set_rt s1 w)). }
  pose proof (potential_withTimeout p timeout (rt w1)) as Hw.
  destruct (withTimeout p timeout (rt w1)) as [res s2]. simpl in *.
  eapply evolves_step; [exact H1|]. apply evolves_set_rt. lia.
Qed.

Lemma evolves_then (p : pid) (onF onR : option handler) (w : world) :
  evolves (emits onF + emits onR) [] w (set_rt (snd (then_ p onF onR (rt w))) w).
Proof.
  apply evolves_set_rt. etransitivity; [apply potential_then|]. lia.
Qed.

(** The functions passed to [then]. *)
Lemma evolves_call_handler (h : handler) (arg : value) (w : world) :
  evolves (emits (Some h)) [] w (snd (call_handler h arg w)).
Proof.
  destruct h; cbn [call_handler emits].
  - apply evolves_with_rt, potential_resolve_fn.
  - apply evolves_with_rt, potential_reject_fn.
  - apply evolves_refl.
  - apply (evolves_emit "members").
  - apply (evolves_emit "error").
  - pose proof (potential_Promise_reject (new_Error "Timeout") (rt w)) as H.
    destruct (Promise_reject _ _) as [q s1]. cbn [snd] in *.
    apply evolves_set_rt. lia.
  - unfold alloc. cbn [snd]. apply evolves_set_rt.
    unfold potential; cbn [promises microtasks set_heap]; lia.
  - destruct arg; try apply evolves_refl.
    destruct (default VUndefined (vs !! 0)); try apply evolves_refl;
      destruct (JSON_parse _ _); try apply evolves_refl;
      unfold alloc; cbn [snd]; apply evolves_set_rt;
        unfold potential; cbn [promises microtasks set_heap]; lia.
  - apply evolves_set_observed.
  - apply evolves_set_observed.
Qed.

(** One microtask, and the emptying of the queue. *)
Lemma evolves_run_job (j : job) (w : world) :
  evolves (job_weight j) [] w (run_job j w).
Proof.
  destruct j as [[h|] rejected cp cr arg|p q|cb args]; simpl.
  - pose proof (evolves_call_handler h arg w) as H.
    destruct (call_handler h arg w) as [[v|e] w1]; simpl in H;
      (eapply evolves_step; [exact H|]); apply evolves_with_rt;
      auto using potential_resolve_fn, potential_reject_fn.
  - destruct rejected; apply evolves_with_rt;
      auto using potential_resolve_fn, potential_reject_fn.
  - pose proof (potential_then q (Some (H_resolve p (length (flags (rt w)))))
                  (Some (H_reject p (length (flags (rt w)))))
                  (set_flags (fun fl => fl ++ [false]) (rt w))) as H.
    unfold new_flag. destruct (then_ _ _ _ _) as [d s2]. simpl in H.
    apply evolves_set_rt. rewrite potential_set_flags in H. lia.
  - apply evolves_with_rt, potential_call_node_callback.
Qed.

Lemma evolves_pop (j : job) (rest : list job) (w w' : world) :
  microtasks (rt w) = j :: rest ->
  evolves (job_weight j) [] (with_rt (set_microtasks (fun _ => rest)) w) w' ->
  evolves 0 [] w w'.
Proof.
  intros Hq [R S C A K B]. rewrite app_nil_r in C, A.
  assert (HP : potential (rt w) =
               potential (rt (with_rt (set_microtasks (fun _ => rest)) w)) + job_weight j).
  { unfold potential. simpl. rewrite Hq. simpl. lia. }
  unfold members_events in *. simpl in *.
  split; rewrite ?app_nil_r; auto. unfold members_events. lia.
Qed.

Lemma evolves_drain (fuel : nat) (w : world) : evolves 0 [] w (drain fuel w).
Proof.
  revert w. induction fuel as [|n IH]; intros w; simpl.
  - destruct (microtasks (rt w)); apply evolves_refl.
  - destruct (microtasks (rt w)) as [|j rest] eqn:E; [apply evolves_refl|].
    eapply evolves_step; [|apply IH].
    eapply evolves_pop; [exact E|]. apply evolves_run_job.
Qed.

Lemma evolves_finish (fuel : nat) (w : world) : evolves 0 [] w (finish fuel w).
Proof.
  unfold finish. eapply evolves_step; [apply evolves_drain|].
  apply evolves_with_rt. rewrite potential_report_rejections. lia.
Qed.

Lemma evolves_fire (fuel : nat) (w : world) (t : pid * rid) :
  evolves 0 [] w (fire fuel w t).
Proof.
  unfold fire. eapply evolves_step; [|apply evolves_finish].
  apply evolves_with_rt, potential_resolve_fn.
Qed.

Lemma evolves_fire_timers (fuel : nat) (before : N) (w : world) :
  evolves 0 [] w (fire_timers fuel before w).
Proof.
  unfold fire_timers. destruct (split_due _ _) as [due later].
  eapply evolves_pets; [apply (evolves_with_rt (set_timers (fun _ => later))); reflexivity|].
  generalize (with_rt (set_timers (fun _ => later)) w). clear w.
  induction due as [|t due IH]; intros w; simpl; [apply evolves_refl|].
  eapply evolves_pets; [apply evolves_fire|]. apply IH.
Qed.

Lemma evolves_advance (t : task) (w : world) : evolves 0 [] w (advance t w).
Proof.
  destruct t; try apply evolves_refl. apply evolves_with_rt. reflexivity.
Qed.

(** The two listeners. *)
Lemma evolves_getMembers (w : world) :
  exists cb,
    evolves 0 [{| call_request := GetChildren (_groupPath (mg w)) (relay_of w);
                  call_cb := cb |}] w (snd (getMembers w)).
Proof. apply (evolves_timedPromiseByCallback Exec_getChildren). Qed.

Lemma call_listener_relay (k : nat) (args : list value) (w : world) :
  fst (call_listener (Relay k) args w) = Normal VUndefined /\
  exists cb,
    evolves 1 [{| call_request := GetChildren (_groupPath (mg w)) (relay_of w);
                  call_cb := cb |}] w (snd (call_listener (Relay k) args w)).
Proof.
  cbn [call_listener].
  destruct (evolves_getMembers w) as [cb H].
  destruct (getMembers w) as [p w1]. cbn [snd] in H.
  pose proof (evolves_then p (Some EmitMembers) (Some EmitError) w1) as Ht.
  destruct (then_ p _ _ (rt w1)) as [d s2]. cbn [snd emits] in Ht.
  split; [reflexivity|]. exists cb. cbn [snd].
  rewrite <- (app_nil_r [_]). change 1 with (0 + (1 + 0)).
  eapply evolves_trans; eassumption.
Qed.

Lemma call_listener_state (k : nat) (args : list value) (w : world) :
  evolves 0 [] w (snd (call_listener (StateListener k) args w)).
Proof.
  cbn [call_listener].
  destruct (state_name _ _) as [v|e]; [|apply evolves_refl].
  destruct (is_string v "SYNC_CONNECTED"); [apply evolves_refl|].
  pose proof (evolves_emit "error" (new_Error "Disconnected") w) as H.
  cbn [String.eqb Ascii.eqb Bool.eqb] in H.
  destruct (emit _ _ _) as [[?|?] ?]; exact H.
Qed.

Lemma evolves_call_listener (f : listener) (args : list value) (w : world) :
  exists new,
    evolves (length new) new w (snd (call_listener f args w)) /\ length new <= 1.
Proof.
  destruct f as [k|k].
  - destruct (call_listener_relay k args w) as (_ & cb & H).
    exists [{| call_request := GetChildren (_groupPath (mg w)) (relay_of w);
               call_cb := cb |}].
    split; [exact H|]. simpl. lia.
  - exists []. split; [apply call_listener_state|]. simpl. lia.
Qed.

Lemma evolves_uncaught (e : value) (w : world) :
  evolves 0 [] w (with_rt (set_uncaught (fun u => u ++ [e])) w).
Proof. apply evolves_with_rt. reflexivity. Qed.

Lemma evolves_notify (fs : list listener) (args : list value) (w : world) :
  exists new,
    evolves (length new) new w (notify fs args w) /\ length new <= length fs.
Proof.
  revert w. induction fs as [|f fs IH]; intros w; cbn [notify].
  - exists []. split; [apply evolves_refl|]. simpl. lia.
  - destruct (evolves_call_listener f args w) as (n1 & H1 & L1).
    destruct (call_listener f args w) as [[v|e] w1]; cbn [snd] in H1.
    + destruct (IH w1) as (n2 & H2 & L2). exists (n1 ++ n2).
      rewrite length_app. split; [eapply evolves_trans; eassumption|]. simpl. lia.
    + exists n1. split; [|simpl; lia].
      eapply evolves_step; [exact H1|]. apply evolves_uncaught.
Qed.

(** The methods of the class. *)
Lemma startMonitor_again (w : world) :
  relay_of w <> None -> startMonitor w = (Normal VThis, w).
Proof.
  unfold startMonitor, relay_of. destruct (_membersChangedListener (mg w)); congruence.
Qed.

Lemma startMonitor_installs (w : world) :
  relay_of w = None ->
  let relay := Relay (closures (rt w)) in
  let w' := snd (startMonitor w) in
  fst (startMonitor w) = Normal VThis /\
  relay_of w' = Some relay /\
  (exists k', state_listeners (cl w') = state_listeners (cl w) ++ [StateListener k']) /\
  (exists cb, calls (cl w') = calls (cl w) ++
     [{| call_request := GetChildren (_groupPath (mg w)) (Some relay); call_cb := cb |}]) /\
  armed (cl w') = armed (cl w) ++ [relay] /\
  members_events w' + potential (rt w') <= members_events w + potential (rt w) + 1.
Proof.
  intros Hr. cbv zeta. unfold startMonitor. unfold relay_of in Hr. rewrite Hr.
  set (relay := Relay (closures (rt w))).
  set (w1 := with_mg (set_listener (Some relay)) (with_rt (set_closures S) w)).
  destruct (call_listener_relay (closures (rt w)) [] w1) as (Hn & cb & H).
  fold relay in Hn, H.
  destruct (call_listener relay [] w1) as [c w2]. cbn [fst snd] in Hn, H. subst c.
  destruct H as [R S C A K B]. cbn [fst snd].
  change (relay_of w1) with (Some relay) in *.
  change (_groupPath (mg w1)) with (_groupPath (mg w)) in *.
  change (calls (cl w1)) with (calls (cl w)) in C.
  change (armed (cl w1)) with (armed (cl w)) in A.
  change (state_listeners (cl w1)) with (state_listeners (cl w)) in S.
  change (members_events w1) with (members_events w) in B.
  change (potential (rt w1)) with (potential (rt w)) in B.
  repeat split.
  - exact R.
  - exists (closures (rt w2)). cbn. rewrite S. reflexivity.
  - exists cb. exact C.
  - exact A.
  - exact B.
Qed.

Lemma evolves_setup (w : world) : exists new, evolves 0 new w (snd (setup w)).
Proof.
  unfold setup.
  destruct (evolves_timedPromiseByCallback Exec_mkdirp (_setupTimeout (mg w)) false w)
    as [cb H].
  destruct (timedPromiseByCallback _ _ _ w) as [p w1]. cbn [snd] in H.
  pose proof (evolves_then p (Some ReturnThis) None w1) as Ht.
  destruct (then_ p _ _ (rt w1)) as [d s2]. cbn [snd emits] in *.
  eexists. eapply evolves_step; eassumption.
Qed.

Lemma evolves_Promise_reject (e : value) (w : world) :
  evolves 0 [] w (set_rt (snd (Promise_reject e (rt w))) w).
Proof.
  apply evolves_set_rt. pose proof (potential_Promise_reject e (rt w)). lia.
Qed.

Lemma evolves_assign_registrationTime (data now : value) (w w1 : world) (own : object) :
  assign_registrationTime data now w = Some (w1, own) -> evolves 0 [] w w1.
Proof.
  destruct data; cbn [assign_registrationTime]; intros E;
    try discriminate E; injection E as <- _; try apply evolves_refl.
  apply evolves_with_rt. reflexivity.
Qed.

Lemma evolves_send_member (path : string) (id data : value) (asBuffer : string)
    (w : world) :
  exists new, evolves 0 new w (snd (send_member path id data asBuffer w)).
Proof.
  unfold send_member.
  destruct (evolves_timedPromiseByCallback (Exec_create path asBuffer)
              (_timeout (mg w)) false w) as [cb H].
  destruct (timedPromiseByCallback _ _ _ w) as [p w1]. cbn [snd] in H.
  pose proof (evolves_then p (Some (RegisterResult id data)) None w1) as Ht.
  destruct (then_ p _ _ (rt w1)) as [d s2]. cbn [snd emits] in *.
  eexists. eapply evolves_step; eassumption.
Qed.

Lemma evolves_create_member (path : string) (id data : value) (w : world) :
  exists new, evolves 0 new w (snd (create_member path id data w)).
Proof.
  unfold create_member.
  destruct (assign_registrationTime _ _ w) as [[w1 own]|] eqn:E;
    [|exists []; apply evolves_refl].
  apply evolves_assign_registrationTime in E.
  destruct (JSON_stringify _ _ _ _) as [asBuffer|]; [|exists []; exact E].
  destruct (evolves_send_member path id data asBuffer w1) as [new H].
  exists new. eapply evolves_pets; eassumption.
Qed.

Lemma evolves_registerMember (id data : value) (w : world) :
  exists new, evolves 0 new w (snd (registerMember id data w)).
Proof.
  unfold registerMember.
  set (dw := match data with
             | VUndefined => let '(l, s1) := alloc [] (rt w) in (VObj l, set_rt s1 w)
             | _ => (data, w)
             end).
  assert (Hd : evolves 0 [] w (snd dw)).
  { subst dw. destruct data; try apply evolves_refl.
    unfold alloc. cbn [snd]. apply evolves_set_rt.
    unfold potential; cbn [promises microtasks set_heap]; lia. }
  destruct dw as [data' w1]. cbn [snd] in Hd.
  set (iw := match id with
             | VUndefined =>
                 (VStr (uuid_v4 (hs w1) (uuids (rt w1))), with_rt (set_uuids S) w1)
             | _ => (id, w1)
             end).
  assert (Hi : evolves 0 [] w1 (snd iw)).
  { subst iw. destruct id; try apply evolves_refl.
    apply evolves_with_rt. reflexivity. }
  destruct iw as [id' w2]. cbn [snd] in Hi.
  assert (H2 : evolves 0 [] w w2) by (eapply evolves_step; eassumption).
  destruct (usable_path _) as [path|].
  - destruct (evolves_create_member path id' data' w2) as [new H].
    exists new. eapply evolves_pets; eassumption.
  - pose proof (evolves_Promise_reject (new_Error "Illegal member ID") w2) as H.
    destruct (Promise_reject _ _) as [p s1]. cbn [snd] in *.
    exists []. eapply evolves_step; eassumption.
Qed.

Lemma evolves_getMemberData (id : value) (w : world) :
  exists new, evolves 0 new w (snd (getMemberData id w)).
Proof.
  unfold getMemberData. destruct (usable_path _) as [path|].
  - unfold fetch_member.
    destruct (evolves_timedPromiseByCallback (Exec_getData path) (_timeout (mg w)) true w)
      as [cb H].
    destruct (timedPromiseByCallback _ _ _ w) as [p w1]. cbn [snd] in H.
    pose proof (evolves_then p (Some (MemberDataResult id)) None w1) as Ht.
    destruct (then_ p _ _ (rt w1)) as [d s2]. cbn [snd emits] in *.
    eexists. eapply evolves_step; eassumption.
  - pose proof (evolves_Promise_reject (new_Error "Illegal member ID") w) as H.
    destruct (Promise_reject _ _) as [p s1]. cbn [snd] in *.
    exists []. exact H.
Qed.

Lemma evolves_api_body (c : api_call) (w : world) :
  (c = Call_startMonitor -> relay_of w <> None) ->
  exists new, evolves 0 new w (snd (api_body c w)).
Proof.
  intros Hc. destruct c; cbn [api_body].
  - apply evolves_setup.
  - destruct (evolves_getMembers w) as [cb H].
    destruct (getMembers w) as [p w1]. eexists. exact H.
  - rewrite startMonitor_again by auto. exists []. apply evolves_refl.
  - apply evolves_registerMember.
  - apply evolves_getMemberData.
  - destruct (evolves_timedPromiseByCallback ex timeout array w) as [cb H].
    destruct (timedPromiseByCallback _ _ _ w) as [p w1]. eexists. exact H.
  - exists []. apply evolves_subscribe.
  - exists []. unfold alloc. cbn [snd]. apply evolves_set_rt.
    unfold potential; cbn [promises microtasks set_heap]; lia.
Qed.

Lemma quiet_api_body (c : api_call) (w : world) :
  quiet_call c -> relay_of w <> None ->
  evolves 0 [] w (snd (api_body c w)) /\
  match fst (api_body c w) with Normal (VPromise _) => False | _ => True end.
Proof.
  intros Hq Hr. destruct c; try contradiction; cbn [api_body].
  - rewrite startMonitor_again by assumption. split; [apply evolves_refl|exact I].
  - split; [apply evolves_subscribe|exact I].
  - split; [|exact I]. unfold alloc. cbn [snd]. apply evolves_set_rt.
    unfold potential; cbn [promises microtasks set_heap]; lia.
Qed.

Lemma evolves_observe (res : completion) (k : nat) (w : world) :
  evolves 0 [] w
    (snd (match res with
          | Normal (VPromise p) =>
              let '(_, s3) := then_ p (Some (Observe k)) (Some (ObserveErr k)) (rt w) in
              (res, set_rt s3 w)
          | _ => (res, w)
          end)).
Proof.
  destruct res as [v|e]; [|apply evolves_refl].
  destruct v; try apply evolves_refl.
  pose proof (evolves_then p (Some (Observe k)) (Some (ObserveErr k)) w) as H.
  destruct (then_ _ _ _ _) as [d s3]. exact H.
Qed.

Lemma evolves_user_call (c : api_call) (w : world) :
  (c = Call_startMonitor -> relay_of w <> None) ->
  exists new, evolves 0 new w (snd (user_call c w)).
Proof.
  intros Hc. unfold user_call.
  destruct (evolves_api_body c w Hc) as [new H].
  destruct (api_body c w) as [res w1]. cbn [snd] in H.
  exists new. eapply evolves_step; [exact H|].
  eapply evolves_pets; [apply (evolves_set_returned (fun l => l ++ [res]))|].
  apply (evolves_observe res (length (returned w))).
Qed.

Lemma quiet_user_call (c : api_call) (w : world) :
  quiet_call c -> relay_of w <> None ->
  evolves 0 [] w (snd (user_call c w)).
Proof.
  intros Hq Hr. unfold user_call.
  destruct (quiet_api_body c w Hq Hr) as [H Hres].
  destruct (api_body c w) as [res w1]. cbn [fst snd] in H, Hres.
  eapply evolves_step; [exact H|].
  eapply evolves_pets; [apply (evolves_set_returned (fun l => l ++ [res]))|].
  apply (evolves_observe res (length (returned w))).
Qed.

Lemma relay_stays (k : nat) (new : list client_call) (w w' : world) :
  evolves k new w w' -> relay_of w <> None -> relay_of w' <> None.
Proof. intros [R _ _ _ _ _]. congruence. Qed.

Lemma evolves_user_code (cs : list api_call) (w : world) :
  (relay_of w <> None \/ Forall (fun c => c <> Call_startMonitor) cs) ->
  exists new, evolves 0 new w (user_code cs w).
Proof.
  revert w. induction cs as [|c cs IH]; intros w Hcs; cbn [user_code].
  - exists []. apply evolves_refl.
  - assert (Hc : c = Call_startMonitor -> relay_of w <> None).
    { intros ->. destruct Hcs as [H|H]; [exact H|]. inversion H; congruence. }
    destruct (evolves_user_call c w Hc) as [n1 H1].
    destruct (user_call c w) as [[v|e] w1]; cbn [snd] in H1.
    + destruct (IH w1) as [n2 H2].
      { destruct Hcs as [H|H]; [left; eapply relay_stays; eassumption|].
        right. inversion H; assumption. }
      exists (n1 ++ n2). change 0 with (0 + 0). eapply evolves_trans; eassumption.
    + exists n1. eapply evolves_step; [exact H1|]. apply evolves_uncaught.
Qed.

Lemma quiet_user_code (cs : list api_call) (w : world) :
  Forall quiet_call cs -> relay_of w <> None -> evolves 0 [] w (user_code cs w).
Proof.
  revert w. induction cs as [|c cs IH]; intros w Hcs Hr; cbn [user_code].
  - apply evolves_refl.
  - inversion Hcs as [|? ? Hc Hcs']; subst.
    pose proof (quiet_user_call c w Hc Hr) as H1.
    destruct (user_call c w) as [[v|e] w1]; cbn [snd] in H1.
    + eapply evolves_step; [exact H1|]. apply IH; [assumption|].
      eapply relay_stays; eassumption.
    + eapply evolves_step; [exact H1|]. apply evolves_uncaught.
Qed.

End Evolution.
(* ================================================================== *)
(** ** Invariants of a run *)
(* ================================================================== *)

Section Invariants.

Lemma evolves_task_body_quietly (t : task) (w : world) :
  match t with
  | UserCode _ | StructuralChange | ConnectionState _ => False
  | _ => True
  end ->
  evolves 0 [] w (task_body t w).
Proof.
  destruct t; try contradiction; intros _; cbn [task_body].
  - apply evolves_refl.
  - apply evolves_refl.
  - destruct (calls (cl w) !! call); [|apply evolves_refl].
    apply evolves_with_rt, potential_call_node_callback.
Qed.

Lemma evolves_connection_state (state : object) (w : world) :
  exists new, evolves (length new) new w (task_body (ConnectionState state) w).
Proof.
  cbn [task_body]. unfold alloc.
  set (w1 := set_rt _ w).
  assert (H1 : evolves 0 [] w w1).
  { apply evolves_set_rt. unfold potential; cbn [promises microtasks set_heap]; lia. }
  destruct (evolves_notify (state_listeners (cl w)) [VObj (length (heap (rt w)))] w1)
    as (new & H & _).
  exists new. eapply evolves_pets; eassumption.
Qed.

(** *** Calls carry the relay *)

Lemma carrying_evolves (r : option listener) (n0 k : nat) (new : list client_call)
    (w w' : world) :
  evolves k new w w' -> carrying r n0 w -> carrying r n0 w'.
Proof.
  intros [R _ C _ K _] [Hr Hc]. split; [congruence|].
  intros i c Hi Hl. rewrite C in Hl.
  apply lookup_app_Some in Hl as [Hl|[_ Hl]].
  - eapply Hc; eassumption.
  - rewrite Hr in K. eapply Forall_lookup_1 in K; eassumption.
Qed.

Lemma carrying_disarm (r : option listener) (n0 : nat) (w : world) :
  carrying r n0 w -> carrying r n0 (with_cl disarm w).
Proof. intros H. exact H. Qed.

Lemma carrying_perform (r : option listener) (n0 fuel : nat) (t : task) (w : world) :
  (r <> None \/ match t with
                | UserCode cs => Forall (fun c => c <> Call_startMonitor) cs
                | _ => True
                end) ->
  carrying r n0 w -> carrying r n0 (perform fuel t w).
Proof.
  intros Ht Hw. unfold perform. cbv zeta.
  eapply carrying_evolves; [apply evolves_finish|].
  assert (H0 : carrying r n0 (fire_timers fuel (horizon t (rt (advance t w))) (advance t w))).
  { eapply carrying_evolves; [apply evolves_fire_timers|].
    eapply carrying_evolves; [apply evolves_advance|]. exact Hw. }
  revert H0. generalize (fire_timers fuel (horizon t (rt (advance t w))) (advance t w)). clear w Hw. intros w Hw.
  destruct t.
  - cbn [task_body]. destruct (evolves_user_code cs w) as [new H].
    { destruct Ht as [Ht|Ht]; [left|right; exact Ht]. destruct Hw as [-> _]. exact Ht. }
    eapply carrying_evolves; eassumption.
  - exact Hw.
  - exact Hw.
  - eapply carrying_evolves; [apply evolves_task_body_quietly; exact I|exact Hw].
  - cbn [task_body].
    destruct (evolves_notify (armed (cl w)) [] (with_cl disarm w)) as (new & H & _).
    eapply carrying_evolves; [exact H|]. apply carrying_disarm. exact Hw.
  - destruct (evolves_connection_state state w) as [new H].
    eapply carrying_evolves; eassumption.
Qed.

Lemma carrying_run (r : option listener) (n0 fuel : nat) (script : list task) (w : world) :
  (r <> None \/ never_monitors script) ->
  carrying r n0 w -> carrying r n0 (run fuel script w).
Proof.
  revert w. induction script as [|t script IH]; intros w Hs Hw; [exact Hw|].
  rewrite run_cons. apply IH.
  - destruct Hs as [Hs|Hs]; [left; exact Hs|right]. inversion Hs; assumption.
  - apply carrying_perform; [|exact Hw].
    destruct Hs as [Hs|Hs]; [left; exact Hs|right]. inversion Hs; assumption.
Qed.

(** *** No watcher is armed before monitoring starts *)

Lemma new_watchers_none (new : list client_call) :
  Forall (carries None) new -> new_watchers new = [].
Proof.
  induction 1 as [|c new Hc _ IH]; [reflexivity|].
  unfold new_watchers in *. cbn [omap list_omap]. fold (omap call_watcher new).
  unfold carries in Hc. rewrite IH.
  destruct (call_request c); rewrite Hc; reflexivity.
Qed.

Lemma unarmed_evolves (k : nat) (new : list client_call) (w w' : world) :
  evolves k new w w' -> unarmed w -> unarmed w'.
Proof.
  intros [R _ _ A K _] [Hr Ha]. split; [congruence|].
  rewrite A, Ha. rewrite Hr in K. rewrite (new_watchers_none new K). reflexivity.
Qed.

Lemma unarmed_perform (fuel : nat) (t : task) (w : world) :
  match t with
  | UserCode cs => Forall (fun c => c <> Call_startMonitor) cs
  | _ => True
  end ->
  unarmed w -> unarmed (perform fuel t w).
Proof.
  intros Ht Hw. unfold perform. cbv zeta.
  eapply unarmed_evolves; [apply evolves_finish|].
  assert (H0 : unarmed (fire_timers fuel (horizon t (rt (advance t w))) (advance t w))).
  { eapply unarmed_evolves; [apply evolves_fire_timers|].
    eapply unarmed_evolves; [apply evolves_advance|]. exact Hw. }
  revert H0. generalize (fire_timers fuel (horizon t (rt (advance t w))) (advance t w)). clear w Hw. intros w Hw.
  destruct t.
  - cbn [task_body]. destruct (evolves_user_code cs w (or_intror Ht)) as [new H].
    eapply unarmed_evolves; eassumption.
  - exact Hw.
  - exact Hw.
  - eapply unarmed_evolves; [apply evolves_task_body_quietly; exact I|exact Hw].
  - cbn [task_body]. destruct Hw as [Hr Ha]. rewrite Ha. cbn [notify].
    split; [exact Hr|reflexivity].
  - destruct (evolves_connection_state state w) as [new H].
    eapply unarmed_evolves; eassumption.
Qed.

Lemma unarmed_run (fuel : nat) (script : list task) (w : world) :
  never_monitors script -> unarmed w -> unarmed (run fuel script w).
Proof.
  revert w. induction script as [|t script IH]; intros w Hs Hw; [exact Hw|].
  rewrite run_cons. inversion Hs; subst. apply IH; [assumption|].
  apply unarmed_perform; assumption.
Qed.

(** *** While monitoring *)

Lemma monitoring_evolves (relay : listener) (sl n : nat) (w w' : world) :
  evolves 0 [] w w' -> monitoring relay sl n w -> monitoring relay sl n w'.
Proof.
  intros [R S C A _ B] [Mr Ms Ma Mb Mc]. rewrite app_nil_r in C, A.
  split; try congruence. rewrite C. lia.
Qed.

Lemma monitoring_later (relay : listener) (sl n n' : nat) (w : world) :
  n <= n' -> monitoring relay sl n w -> monitoring relay sl n' w.
Proof. intros Hn [Mr Ms Ma Mb Mc]. split; auto. lia. Qed.

Lemma evolves_notify_state (k : nat) (args : list value) (w : world) :
  evolves 0 [] w (notify [StateListener k] args w).
Proof.
  cbn [notify]. pose proof (call_listener_state k args w) as H.
  destruct (call_listener _ _ _) as [[v|e] w1]; cbn [snd] in H; [exact H|].
  eapply evolves_step; [exact H|]. apply evolves_uncaught.
Qed.

Lemma length_new_watchers (new : list client_call) :
  length (new_watchers new) <= length new.
Proof.
  unfold new_watchers. induction new as [|c new IH]; [reflexivity|].
  cbn [omap list_omap]. fold (omap call_watcher new).
  destruct (call_watcher c); simpl; lia.
Qed.

Lemma monitoring_change (relay : listener) (sl n : nat) (w : world) :
  monitoring relay sl n w ->
  monitoring relay sl (S n) (task_body StructuralChange w).
Proof.
  intros [Mr Ms Ma Mb Mc]. cbn [task_body].
  destruct (evolves_notify (armed (cl w)) [] (with_cl disarm w))
    as (new & [R S C A _ B] & L).
  pose proof (length_new_watchers new) as Lw.
  change (relay_of (with_cl disarm w)) with (relay_of w) in R.
  change (state_listeners (cl (with_cl disarm w))) with (state_listeners (cl w)) in S.
  change (calls (cl (with_cl disarm w))) with (calls (cl w)) in C.
  change (armed (cl (with_cl disarm w))) with (@nil listener) in A.
  change (members_events (with_cl disarm w)) with (members_events w) in B.
  change (potential (rt (with_cl disarm w))) with (potential (rt w)) in B.
  split.
  - congruence.
  - congruence.
  - rewrite A. simpl. lia.
  - rewrite C, length_app. lia.
  - rewrite C, length_app. lia.
Qed.

Lemma monitoring_perform (relay : listener) (sl n fuel : nat) (t : task) (w : world) :
  match t with
  | UserCode cs => Forall quiet_call cs
  | _ => True
  end ->
  monitoring relay sl n w ->
  monitoring relay sl (changes [t] + n) (perform fuel t w).
Proof.
  intros Ht Hw. unfold perform. cbv zeta.
  eapply monitoring_evolves; [apply evolves_finish|].
  assert (H0 : monitoring relay sl n (fire_timers fuel (horizon t (rt (advance t w))) (advance t w))).
  { eapply monitoring_evolves; [apply evolves_fire_timers|].
    eapply monitoring_evolves; [apply evolves_advance|]. exact Hw. }
  revert H0. generalize (fire_timers fuel (horizon t (rt (advance t w))) (advance t w)). clear w Hw. intros w Hw.
  destruct t; cbn [changes Nat.add].
  - cbn [task_body]. eapply monitoring_evolves; [|exact Hw].
    apply quiet_user_code; [exact Ht|]. destruct Hw as [-> _ _ _ _]. discriminate.
  - exact Hw.
  - exact Hw.
  - eapply monitoring_evolves; [apply evolves_task_body_quietly; exact I|exact Hw].
  - apply monitoring_change. exact Hw.
  - cbn [task_body]. unfold alloc.
    set (w1 := set_rt _ w).
    assert (H1 : evolves 0 [] w w1).
    { apply evolves_set_rt. unfold potential; cbn [promises microtasks set_heap]; lia. }
    destruct Hw as [Mr Ms Ma Mb Mc]. rewrite Ms.
    eapply monitoring_evolves; [apply evolves_notify_state|].
    eapply monitoring_evolves; [exact H1|]. split; assumption.
Qed.

Lemma changes_cons (t : task) (script : list task) :
  changes (t :: script) = changes [t] + changes script.
Proof. destruct t; reflexivity. Qed.

Lemma monitoring_run (relay : listener) (sl n fuel : nat) (script : list task) (w : world) :
  monitoring_only script ->
  monitoring relay sl n w ->
  monitoring relay sl (changes script + n) (run fuel script w).
Proof.
  revert n w. induction script as [|t script IH]; intros n w Hs Hw; [exact Hw|].
  rewrite run_cons, changes_cons. inversion Hs; subst.
  replace (changes [t] + changes script + n) with (changes script + (changes [t] + n)) by lia.
  apply IH; [assumption|]. apply monitoring_perform; assumption.
Qed.

(** The task in which the monitor is started for the first time. *)
Lemma monitoring_starts (fuel : nat) (cs : list api_call) (w : world) :
  relay_of w = None ->
  calls (cl w) = [] -> armed (cl w) = [] -> state_listeners (cl w) = [] ->
  members_events w + potential (rt w) = 0 ->
  Forall quiet_call cs ->
  exists sl,
    monitoring (Relay (closures (rt (fire_timers fuel (clock (rt w)) w)))) sl 0
      (perform fuel (UserCode (Call_startMonitor :: cs)) w).
Proof.
  intros Hr Hc Ha Hs Hb Hcs. unfold perform. cbn [advance horizon]. cbv zeta.
  pose proof (evolves_fire_timers fuel (clock (rt w)) w) as [R0 S0 C0 A0 _ B0].
  rewrite app_nil_r in C0, A0.
  set (w0 := fire_timers fuel (clock (rt w)) w) in *.
  assert (Hr0 : relay_of w0 = None) by congruence.
  destruct (startMonitor_installs w0 Hr0) as (Hres & Hrel & (sl & Hsl) & (cb & Hcalls) & Harm & Hbud).
  cbv zeta in *.
  cbn [task_body user_code]. unfold user_call at 1. cbn [api_body].
  destruct (startMonitor w0) as [res w1]. cbn [fst snd] in *. subst res.
  exists sl.
  eapply monitoring_evolves; [apply evolves_finish|].
  eapply monitoring_evolves.
  { apply quiet_user_code; [exact Hcs|].
    change (relay_of w1 <> None). rewrite Hrel. discriminate. }
  eapply monitoring_evolves; [apply (evolves_set_returned (fun l => l ++ [Normal VThis]))|].
  split.
  - exact Hrel.
  - rewrite Hsl, S0, Hs. reflexivity.
  - rewrite Harm, A0, Ha. simpl. lia.
  - rewrite Hcalls, C0, Hc. simpl. lia.
  - rewrite Hcalls, C0, Hc. simpl. lia.
Qed.

(** The task in which the monitor is started, seen from the calls. *)
Lemma carrying_starts (fuel : nat) (cs : list api_call) (w : world) :
  relay_of w = None ->
  exists relay,
    carrying (Some relay) (length (calls (cl w)))
      (perform fuel (UserCode (Call_startMonitor :: cs)) w).
Proof.
  intros Hr. unfold perform. cbn [advance horizon]. cbv zeta.
  pose proof (evolves_fire_timers fuel (clock (rt w)) w) as [R0 S0 C0 A0 _ B0].
  rewrite app_nil_r in C0, A0.
  set (w0 := fire_timers fuel (clock (rt w)) w) in *.
  assert (Hr0 : relay_of w0 = None) by congruence.
  destruct (startMonitor_installs w0 Hr0)
    as (Hres & Hrel & _ & (cb & Hcalls) & _ & _).
  cbv zeta in *.
  cbn [task_body user_code]. unfold user_call at 1. cbn [api_body].
  destruct (startMonitor w0) as [res w1]. cbn [fst snd] in *. subst res.
  exists (Relay (closures (rt w0))).
  eapply carrying_evolves; [apply evolves_finish|].
  destruct (evolves_user_code cs
              (set_returned (fun l => l ++ [Normal VThis]) w1)) as [new H].
  { left. change (relay_of w1 <> None). rewrite Hrel. discriminate. }
  eapply carrying_evolves; [exact H|].
  split; [exact Hrel|].
  intros i c Hi Hl. change (calls (cl w1) !! i = Some c) in Hl.
  rewrite Hcalls, C0 in Hl.
  apply lookup_app_Some in Hl as [Hl|[_ Hl]].
  - apply lookup_lt_Some in Hl. lia.
  - destruct (i - length (calls (cl w))) as [|j]; [|discriminate Hl].
    simpl in Hl. injection Hl as <-. reflexivity.
Qed.

End Invariants.
(* ================================================================== *)
(** ** Before monitoring *)
(* ================================================================== *)

(** C10. The constructor leaves the relay field null, and as long as
    startMonitor() has not been called it stays null: every call the client
    receives, getChildren included, comes without a watcher, and no watcher
    is armed. *)
Theorem no_watch_before_monitoring
    (h : host) (r : nat -> client_call -> reply_mode) (gp : string)
    (tm stm : option N) (script : list task) (fuel : nat) :
  never_monitors script ->
  let w0 := constructor h (fresh_client r) gp tm stm in
  let w := run fuel script w0 in
  relay_of w0 = None /\
  relay_of w = None /\
  armed (cl w) = [] /\
  forall c, c ∈ calls (cl w) -> call_watcher c = None.
Proof.
  intros Hs. cbv zeta.
  set (w0 := constructor h (fresh_client r) gp tm stm).
  assert (Hc : carrying None 0 (run fuel script w0)).
  { apply carrying_run; [right; exact Hs|]. split; [reflexivity|].
    intros i c _ Hl. discriminate Hl. }
  assert (Hu : unarmed (run fuel script w0)).
  { apply unarmed_run; [exact Hs|]. split; reflexivity. }
  destruct Hc as [Hr Hc]. destruct Hu as [_ Ha].
  repeat split; try assumption.
  intros c Hin. apply list_elem_of_lookup in Hin as [i Hi].
  specialize (Hc i c (Nat.le_0_l i) Hi). unfold carries in Hc.
  rewrite Hc. destruct (call_request c); reflexivity.
Qed.

Lemma no_watch_before_monitoring_witness :
  let w0 := constructor sample_host networked "/groups/demo" None None in
  let w := run 20 [UserCode [Call_setup; Call_getMembers];
                   ClientReplies 0 [VNull]; StructuralChange;
                   UserCode [Call_getMembers]] w0 in
  relay_of w0 = None /\
  relay_of w = None /\
  armed (cl w) = [] /\
  forall c, c ∈ calls (cl w) -> call_watcher c = None.
Proof.
  apply (no_watch_before_monitoring sample_host (fun _ _ => Reply_later)
           "/groups/demo" None None).
  repeat constructor; discriminate.
Defined.
(* ================================================================== *)
(** ** One relay *)
(* ================================================================== *)

(** C3. startMonitor() on a manager whose relay is installed changes
    nothing and returns the manager.  After two calls of startMonitor(), and
    whatever the client does afterwards and however often startMonitor() is
    called again, the relay is the one installed by the first call, the
    client has one 'state' listener, and N structural changes have produced
    at most N + 1 'members' events. *)
Theorem startMonitor_once
    (h : host) (r : nat -> client_call -> reply_mode) (gp : string)
    (tm stm : option N) (script : list task) (fuel : nat) (w : world) :
  monitoring_only script ->
  (relay_of w <> None -> startMonitor w = (Normal VThis, w)) /\
  let w' := run fuel (UserCode [Call_startMonitor; Call_startMonitor] :: script)
              (constructor h (fresh_client r) gp tm stm) in
  relay_of w' = Some (Relay 0) /\
  (exists sl, state_listeners (cl w') = [StateListener sl]) /\
  members_events w' <= changes script + 1.
Proof.
  intros Hs. split; [apply startMonitor_again|]. cbv zeta.
  rewrite run_cons.
  destruct (monitoring_starts fuel [Call_startMonitor]
              (constructor h (fresh_client r) gp tm stm))
    as [sl H0]; try reflexivity.
  { repeat constructor. }
  change (closures (rt (fire_timers fuel
                          (clock (rt (constructor h (fresh_client r) gp tm stm)))
                          (constructor h (fresh_client r) gp tm stm))))
    with 0 in H0.
  pose proof (monitoring_run (Relay 0) sl 0 fuel script _ Hs H0) as [Mr Ms Ma Mb Mc].
  split; [exact Mr|]. split; [exists sl; exact Ms|]. lia.
Qed.

Lemma startMonitor_once_witness :
  let w0 := constructor sample_host networked "/groups/demo" None None in
  let script := [ClientReplies 0 [VNull; VArr [VStr "node-a"]];
                 StructuralChange;
                 ClientReplies 1 [VNull; VArr [VStr "node-a"; VStr "node-b"]];
                 UserCode [Call_startMonitor];
                 StructuralChange;
                 ClientReplies 2 [VNull; VArr [VStr "node-b"]]] in
  let w' := run 20 (UserCode [Call_startMonitor; Call_startMonitor] :: script) w0 in
  relay_of w' = Some (Relay 0) /\
  (exists sl, state_listeners (cl w') = [StateListener sl]) /\
  members_events w' <= 2 + 1.
Proof.
  refine (proj2 (startMonitor_once sample_host (fun _ _ => Reply_later)
                   "/groups/demo" None None _ 20
                   (constructor sample_host networked "/groups/demo" None None) _)).
  repeat constructor.
Defined.
(* ================================================================== *)
(** ** The relay *)
(* ================================================================== *)

Section InitialEvent.

Variables (h : host) (gp : string) (tm stm : option N) (o : outcome).
Hypothesis o_plain : plain o.

Let w0 : world := constructor h networked gp tm stm.

(** startMonitor() on a new manager: the relay has run once when the call
    returns, and the answer to its getChildren call becomes one event. *)
Lemma initial_event (t : N) (fuel : nat) :
  in_time t tm ->
  let w := run (20 + fuel) [UserCode [Call_startMonitor]] w0 in
  let w' := run (20 + fuel)
              [UserCode [Call_startMonitor]; TimePasses t;
               ClientReplies 0 (op_reply o)] w0 in
  calls (cl w) =
    [{| call_request := GetChildren gp (Some (Relay 0));
        call_cb := resolverAsCallback 0 0 false |}] /\
  emitted (mg w) = [] /\
  emitted (mg w') = [relayed o].
Proof.
  intros Ht. subst w0. unfold constructor, networked, fresh_client.
  outcome_cases o o_plain; destruct tm as [d|]; simpl in Ht; cbv zeta.
  all: split; [step; reflexivity|].
  all: split; [step; reflexivity|].
  all: do 3 step; reflexivity.
Qed.

Lemma initial_timeout (d t : N) (fuel : nat) :
  tm = Some d -> (timer_delay d < t)%N ->
  emitted (mg (run (20 + fuel) [UserCode [Call_startMonitor]; TimePasses t] w0))
    = [("error", Timeout)].
Proof.
  intros -> Ht. subst w0. unfold constructor, networked, fresh_client.
  do 2 step. reflexivity.
Qed.

End InitialEvent.

(** C1. startMonitor() on a manager without relay installs one and runs it
    once before it returns; every run of the relay, the first included, is
    one getMembers() call, and every getMembers() call hands the relay field
    to getChildren as the watcher; from the installation on that field is
    the installed relay, so every getChildren call of any later run carries
    it.  On a new manager the answer to the first call is emitted as a
    'members' event when it is a success and as an 'error' event when it is
    a failure. *)
Theorem relay_rearms
    (h : host) (gp : string) (tm stm : option N) (o : outcome) (t : N)
    (w : world) (k : nat) (args : list value)
    (cs : list api_call) (script : list task) (fuel : nat) :
  plain o ->
  (* installation, and the run at installation time *)
  (relay_of w = None ->
   let relay := Relay (closures (rt w)) in
   let w1 := snd (startMonitor w) in
   relay_of w1 = Some relay /\
   exists cb, calls (cl w1) = calls (cl w) ++
     [{| call_request := GetChildren (_groupPath (mg w)) (Some relay);
         call_cb := cb |}]) /\
  (* a run of the relay is a getMembers call *)
  (exists cb,
     calls (cl (snd (call_listener (Relay k) args w))) = calls (cl w) ++
       [{| call_request := GetChildren (_groupPath (mg w)) (relay_of w);
           call_cb := cb |}]) /\
  (* a getMembers call passes the relay field *)
  (exists cb,
     calls (cl (snd (getMembers w))) = calls (cl w) ++
       [{| call_request := GetChildren (_groupPath (mg w)) (relay_of w);
           call_cb := cb |}]) /\
  (* the relay stays *)
  (relay_of w = None ->
   let w' := run fuel (UserCode (Call_startMonitor :: cs) :: script) w in
   exists relay,
     relay_of w' = Some relay /\
     forall i c, length (calls (cl w)) <= i ->
       calls (cl w') !! i = Some c -> carries (Some relay) c) /\
  (* the initial event *)
  (in_time t tm ->
   emitted (mg (run (20 + fuel)
                  [UserCode [Call_startMonitor]; TimePasses t;
                   ClientReplies 0 (op_reply o)]
                  (constructor h networked gp tm stm))) = [relayed o]).
Proof.
  intros Ho. repeat apply conj.
  - intros Hr. cbv zeta.
    destruct (startMonitor_installs w Hr) as (_ & Hrel & _ & Hcalls & _).
    split; assumption.
  - destruct (call_listener_relay k args w) as (_ & cb & [_ _ C _ _ _]).
    exists cb. exact C.
  - destruct (evolves_getMembers w) as (cb & [_ _ C _ _ _]).
    exists cb. exact C.
  - intros Hr. cbv zeta. rewrite run_cons.
    destruct (carrying_starts fuel cs w Hr) as [relay H].
    exists relay. apply (carrying_run (Some relay) _ fuel script) in H.
    + exact H.
    + left. discriminate.
  - intros Ht.
    exact (proj2 (proj2 (initial_event h gp tm stm o Ho t fuel Ht))).
Qed.

Lemma relay_rearms_witness :
  let w0 := constructor sample_host networked "/groups/demo" (Some 1000%N) None in
  let members := VArr [VStr "node-a"] in
  (let w1 := snd (startMonitor w0) in
   relay_of w1 = Some (Relay 0) /\
   exists cb, calls (cl w1) =
     [{| call_request := GetChildren "/groups/demo" (Some (Relay 0));
         call_cb := cb |}]) /\
  (let w' := run 20 [UserCode [Call_startMonitor; Call_getMembers];
                     StructuralChange] w0 in
   exists relay,
     relay_of w' = Some relay /\
     forall i c, 0 <= i -> calls (cl w') !! i = Some c -> carries (Some relay) c) /\
  emitted (mg (run 20 [UserCode [Call_startMonitor]; TimePasses 10;
                       ClientReplies 0 [VNull; members]] w0))
    = [("members", members)].
Proof.
  cbv zeta.
  destruct (relay_rearms sample_host "/groups/demo" (Some 1000%N) None
              (Fulfils (VArr [VStr "node-a"])) 10%N
              (constructor sample_host networked "/groups/demo" (Some 1000%N) None)
              0 [] [Call_getMembers] [StructuralChange] 0 I)
    as (Ha & _ & _ & _ & Hd).
  destruct (relay_rearms sample_host "/groups/demo" (Some 1000%N) None
              (Fulfils (VArr [VStr "node-a"])) 10%N
              (constructor sample_host networked "/groups/demo" (Some 1000%N) None)
              0 [] [Call_getMembers] [StructuralChange] 20 I)
    as (_ & _ & _ & Hc & _).
  split; [exact (Ha eq_refl)|]. split; [exact (Hc eq_refl)|]. exact (Hd eq_refl).
Defined.
(* ================================================================== *)
(** ** More stepping *)
(* ================================================================== *)

Section Microtasks.

Lemma drain_cons (n : nat) (w : world) (j : job) (rest : list job) :
  microtasks (rt w) = j :: rest ->
  drain (S n) w = drain n (run_job j (with_rt (set_microtasks (fun _ => rest)) w)).
Proof. intros H. simpl. rewrite H. reflexivity. Qed.

Lemma drain_nil (n : nat) (w : world) :
  microtasks (rt w) = [] -> drain n w = w.
Proof. intros H. destruct n; simpl; rewrite H; reflexivity. Qed.

(** The job that parses the payload, for a given result of [JSON.parse]. *)
Lemma run_job_parse (id stat : value) (bytes : string) (rejected : bool)
    (cp : pid) (cr : rid) (r : parsed) (w : world) :
  JSON_parse (hs w) bytes = r ->
  run_job (ReactionJob (Some (MemberDataResult id)) rejected cp cr
             (VArr [VBuffer bytes; stat])) w =
  match r with
  | SyntaxError => with_rt (reject_fn cp cr (new_Error "SyntaxError")) w
  | Primitive v =>
      with_rt (resolve_fn cp cr (VObj (length (heap (rt w)))))
        (with_rt (set_heap (fun hp => hp ++ [[("id", id); ("data", v); ("stat", stat)]])) w)
  | Document fields =>
      with_rt (resolve_fn cp cr (VObj (S (length (heap (rt w))))))
        (with_rt (set_heap (fun hp =>
                    (hp ++ [fields]) ++
                    [[("id", id); ("data", VObj (length (heap (rt w)))); ("stat", stat)]]))
           w)
  end.
Proof.
  intros <-. unfold run_job, call_handler. simpl.
  destruct (JSON_parse (hs w) bytes); try reflexivity.
  unfold with_rt, set_rt; cbn. rewrite length_app, Nat.add_1_r. reflexivity.
Qed.

End Microtasks.

Ltac step' := step; settle_timers.

Ltac evaluate t :=
  let x := fresh "x" in
  set (x := t); lazy -[N.add N.leb N.ltb Z.of_N timer_delay] in (value of x); subst x.

(** [begin_task] evaluates the synchronous part of the next task, [micro]
    the next microtask, [end_task] what follows the last one. *)
Ltac begin_task :=
  rewrite run_cons; erewrite perform_eq by timers_due; unfold finish;
  match goal with
  | |- context [drain _ ?w] => evaluate w
  end.

Ltac next_job :=
  match goal with
  | |- context [drain (?k + ?f) ?w] =>
      let k' := eval compute in (Nat.pred k) in
      change (drain (k + f) w) with (drain (S (k' + f)) w);
      erewrite (drain_cons (k' + f) w)
        by (lazy -[N.add N.leb N.ltb Z.of_N timer_delay]; reflexivity)
  end.

Ltac run_it :=
  match goal with
  | |- context [drain _ (run_job ?j ?w)] => evaluate (run_job j w)
  end.

Ltac parse_with H :=
  match goal with
  | |- context [drain _ (run_job (ReactionJob (Some (MemberDataResult ?id)) ?b ?cp ?cr
                                    (VArr [VBuffer ?bytes; ?stat])) ?w)] =>
      rewrite (run_job_parse id stat bytes b cp cr _ w H);
      match goal with
      | |- context [drain _ ?w'] => evaluate w'
      end
  end.

Ltac micro := next_job; run_it.
Ltac micro_with H := next_job; first [parse_with H | run_it].

Ltac end_task :=
  rewrite drain_nil by reflexivity;
  match goal with
  | |- context [with_rt report_rejections ?w] => evaluate (with_rt report_rejections w)
  end.

Ltac falsy_cases e H :=
  unfold falsy in H;
  destruct e as [| |[|]|[|?|?]|[|? ?]| | | | | |]; try discriminate H.

Ltac value_cases v H :=
  destruct v; try contradiction H.
(* ================================================================== *)
(** ** Successful operations *)
(* ================================================================== *)

Section Successes.

Variables (h : host) (gp : string) (tm stm : option N).

(** X1. setup() asks the client for mkdirp(groupPath) and, when the client
    reports success in time, resolves with the manager itself and not with
    what the client passed; a second setup() asks the client again and
    resolves the same way. *)
Theorem setup_resolves_with_manager (err : value) (made made' : string) (t : N)
    (fuel : nat) :
  falsy err ->
  in_time t stm ->
  let w := run (20 + fuel)
             [UserCode [Call_setup]; ClientReplies 0 [err; VStr made];
              UserCode [Call_setup]; TimePasses t;
              ClientReplies 1 [VNull; VStr made']]
             (constructor h networked gp tm stm) in
  observed w = [(0, Fulfils VThis); (1, Fulfils VThis)] /\
  requests w = [Mkdirp gp; Mkdirp gp].
Proof.
  intros He Ht. unfold constructor, networked, fresh_client, requests.
  falsy_cases err He; destruct stm as [d|]; simpl in Ht; cbv zeta.
  all: do 5 step'; rewrite run_nil; split; reflexivity.
Qed.

(** X3. getMembers() resolves with the second argument of the callback, the
    list of children: any falsy first argument counts as "no error" and any
    further argument (the stat) is dropped.  Called by the user it emits no
    event and, before monitoring, passes no watcher. *)
Theorem getMembers_resolves_with_children
    (err : value) (children rest : list value) (t : N) (fuel : nat) :
  falsy err ->
  in_time t tm ->
  let w := run (20 + fuel)
             [UserCode [Call_getMembers]; TimePasses t;
              ClientReplies 0 (err :: VArr children :: rest)]
             (constructor h networked gp tm stm) in
  observed w = [(0, Fulfils (VArr children))] /\
  emitted (mg w) = [] /\
  requests w = [GetChildren gp None].
Proof.
  intros He Ht. unfold constructor, networked, fresh_client, requests.
  falsy_cases err He; destruct tm as [d|]; simpl in Ht; cbv zeta.
  all: do 3 step; rewrite run_nil; repeat split; reflexivity.
Qed.

End Successes.

Lemma setup_resolves_with_manager_witness :
  let w := run 20
             [UserCode [Call_setup]; ClientReplies 0 [VNull; VStr "/groups/demo"];
              UserCode [Call_setup]; TimePasses 5;
              ClientReplies 1 [VNull; VStr "/groups/demo"]]
             (constructor sample_host networked "/groups/demo" None (Some 100%N)) in
  observed w = [(0, Fulfils VThis); (1, Fulfils VThis)] /\
  requests w = [Mkdirp "/groups/demo"; Mkdirp "/groups/demo"].
Proof.
  exact (setup_resolves_with_manager sample_host "/groups/demo" None (Some 100%N)
           VNull "/groups/demo" "/groups/demo" 5%N 0 eq_refl eq_refl).
Defined.

Lemma getMembers_resolves_with_children_witness :
  let w := run 20
             [UserCode [Call_getMembers]; TimePasses 5;
              ClientReplies 0 [VNull; VArr [VStr "node-a"; VStr "node-b"]; VNum 3]]
             (constructor sample_host networked "/groups/demo" (Some 100%N) None) in
  observed w = [(0, Fulfils (VArr [VStr "node-a"; VStr "node-b"]))] /\
  emitted (mg w) = [] /\
  requests w = [GetChildren "/groups/demo" None].
Proof.
  exact (getMembers_resolves_with_children sample_host "/groups/demo" (Some 100%N) None
           VNull [VStr "node-a"; VStr "node-b"] [VNum 3] 5%N 0 eq_refl eq_refl).
Defined.
(* ================================================================== *)
(** ** Which deadline bounds which operation *)
(* ================================================================== *)

Section Deadlines.

Variables (h : host) (gp : string) (id : value) (path : string) (d t : N).
Hypothesis id_given : id <> VUndefined.
Hypothesis id_legal :
  getMemberPath (mg (constructor h networked gp None None)) id = Some path.
Hypothesis too_late : (timer_delay d < t)%N.

Lemma setup_deadline (fuel : nat) :
  standing (run (20 + fuel) [UserCode [Call_setup]; TimePasses t]
              (constructor h networked gp None (Some d)))
    = ([(0, Rejects Timeout)], []) /\
  standing (run (20 + fuel) [UserCode [Call_setup]; TimePasses t]
              (constructor h networked gp (Some d) None))
    = ([], []).
Proof.
  unfold standing, constructor, networked, fresh_client.
  split; do 2 step; reflexivity.
Qed.

Lemma getMembers_deadline (fuel : nat) :
  standing (run (20 + fuel) [UserCode [Call_getMembers]; TimePasses t]
              (constructor h networked gp (Some d) None))
    = ([(0, Rejects Timeout)], []) /\
  standing (run (20 + fuel) [UserCode [Call_getMembers]; TimePasses t]
              (constructor h networked gp None (Some d)))
    = ([], []).
Proof.
  unfold standing, constructor, networked, fresh_client.
  split; do 2 step; reflexivity.
Qed.

Lemma registerMember_deadline (fuel : nat) :
  standing (run (20 + fuel) [UserCode [Call_registerMember id VUndefined]; TimePasses t]
              (constructor h networked gp (Some d) None))
    = ([(0, Rejects Timeout)], []) /\
  standing (run (20 + fuel) [UserCode [Call_registerMember id VUndefined]; TimePasses t]
              (constructor h networked gp None (Some d)))
    = ([], []).
Proof.
  unfold standing, constructor, networked, fresh_client in *.
  split.
  all: rewrite run_cons; erewrite perform_eq by timers_due; expose.
  all: rewrite (registerMember_default id path) by first [assumption | exact id_legal].
  all: crunch; step; reflexivity.
Qed.

Lemma getMemberData_deadline (fuel : nat) :
  standing (run (20 + fuel) [UserCode [Call_getMemberData id]; TimePasses t]
              (constructor h networked gp (Some d) None))
    = ([(0, Rejects Timeout)], []) /\
  standing (run (20 + fuel) [UserCode [Call_getMemberData id]; TimePasses t]
              (constructor h networked gp None (Some d)))
    = ([], []).
Proof.
  unfold standing, constructor, networked, fresh_client in *.
  split.
  all: rewrite run_cons; erewrite perform_eq by timers_due; expose.
  all: rewrite (getMemberData_legal id path) by exact id_legal.
  all: crunch; step; reflexivity.
Qed.

End Deadlines.

(** X2. Each operation has its own deadline: setup() is bounded by
    [setupTimeout] and by nothing else, getMembers(), registerMember() and
    getMemberData() by [timeout] and by nothing else.  With only the other
    deadline configured, an operation the client does not answer sets no
    timer and stays pending. *)
Theorem each_operation_has_its_deadline
    (h : host) (gp : string) (id : value) (path : string) (d t : N) (fuel : nat) :
  id <> VUndefined ->
  getMemberPath (mg (constructor h networked gp None None)) id = Some path ->
  (timer_delay d < t)%N ->
  let unanswered (c : api_call) (tm stm : option N) :=
    standing (run (20 + fuel) [UserCode [c]; TimePasses t]
                (constructor h networked gp tm stm)) in
  let timed_out := ([(0, Rejects Timeout)], []) in
  let waiting := ([], []) in
  (unanswered Call_setup None (Some d) = timed_out /\
   unanswered Call_setup (Some d) None = waiting) /\
  (unanswered Call_getMembers (Some d) None = timed_out /\
   unanswered Call_getMembers None (Some d) = waiting) /\
  (unanswered (Call_registerMember id VUndefined) (Some d) None = timed_out /\
   unanswered (Call_registerMember id VUndefined) None (Some d) = waiting) /\
  (unanswered (Call_getMemberData id) (Some d) None = timed_out /\
   unanswered (Call_getMemberData id) None (Some d) = waiting).
Proof.
  intros Hid Hp Ht.
  pose proof (setup_deadline h gp d t Ht fuel) as H1.
  pose proof (getMembers_deadline h gp d t Ht fuel) as H2.
  pose proof (registerMember_deadline h gp id path d t Hid Hp Ht fuel) as H3.
  pose proof (getMemberData_deadline h gp id path d t Hp Ht fuel) as H4.
  cbv beta zeta in *.
  exact (conj H1 (conj H2 (conj H3 H4))).
Qed.

Lemma each_operation_has_its_deadline_witness :
  let unanswered (c : api_call) (tm stm : option N) :=
    standing (run 20 [UserCode [c]; TimePasses 50]
                (constructor sample_host networked "/groups/demo" tm stm)) in
  unanswered Call_setup None (Some 30%N) = ([(0, Rejects Timeout)], []) /\
  unanswered Call_setup (Some 30%N) None = ([], []).
Proof.
  cbv beta zeta.
  exact (proj1 (each_operation_has_its_deadline sample_host "/groups/demo"
                  (VStr "node-a") "/groups/demo/node-a" 30%N 50%N 0
                  ltac:(discriminate) eq_refl eq_refl)).
Defined.
(* ================================================================== *)
(** ** The callback *)
(* ================================================================== *)

Section Callback.

Variables (h : host) (gp : string) (tm stm : option N).
Variables (ex : executor) (timeout : option N).

(** A callback whose promise is settled does nothing. *)
Lemma late_callback (i : nat) (args : list value) (w : world) :
  match calls (cl w) !! i with
  | Some c => flag_is_clear (cb_flag (call_cb c)) (rt w)
  | None => false
  end = false ->
  task_body (ClientReplies i args) w =
    match calls (cl w) !! i with
    | Some _ => set_rt (rt w) w
    | None => w
    end.
Proof.
  cbn [task_body]. destruct (calls (cl w) !! i) as [c|]; [|reflexivity].
  intros Hf. unfold with_rt, call_node_callback, resolve_fn, reject_fn.
  rewrite Hf. destruct (truthy _); [reflexivity|]. destruct (cb_array _); reflexivity.
Qed.

(** X4. The callback of [resolverAsCallback] with a falsy first argument
    is a success: in array mode the promise is fulfilled with the array of
    all the arguments that follow it (the empty array when there is none),
    otherwise with the first of them ([undefined] when there is none), and
    the others are dropped. *)
Theorem callback_success (err : value) (vs : list value) (t : N) (fuel : nat) :
  falsy err ->
  settled_value (default VUndefined (head vs)) ->
  in_time t timeout ->
  let result (array : bool) :=
    observed (run (20 + fuel)
                [UserCode [Call_timedPromiseByCallback ex timeout array];
                 TimePasses t; ClientReplies 0 (err :: vs)]
                (constructor h networked gp tm stm)) in
  result true = [(0, Fulfils (VArr vs))] /\
  result false = [(0, Fulfils (default VUndefined (head vs)))].
Proof.
  intros He Hv Ht. unfold constructor, networked, fresh_client.
  falsy_cases err He; destruct timeout as [d|]; simpl in Ht; cbv beta zeta.
  all: split; [do 3 step; reflexivity|].
  all: destruct vs as [|v vs']; [do 3 step; reflexivity|].
  all: cbn [head default] in *; value_cases v Hv.
  all: do 3 step; reflexivity.
Qed.

(** X5. The callback settles its promise once: whatever the client passes
    when it calls back a second time, for a success after a failure or a
    failure after a success, the result stays what the first call made it,
    it reaches the caller once, and nothing is left unhandled. *)
Theorem callback_settles_once
    (array : bool) (o : outcome) (again : list value) (t : N) (fuel : nat) :
  plain o ->
  in_time t timeout ->
  let w := run (20 + fuel)
             [UserCode [Call_timedPromiseByCallback ex timeout array];
              TimePasses t; ClientReplies 0 (op_reply o); ClientReplies 0 again]
             (constructor h networked gp tm stm) in
  observed w = [(0, settles_as array o)] /\
  unhandled (rt w) = [] /\ uncaught (rt w) = [] /\ microtasks (rt w) = [].
Proof.
  intros Ho Ht. unfold constructor, networked, fresh_client.
  outcome_cases o Ho; destruct array; destruct timeout as [d|]; simpl in Ht; cbv zeta.
  all: do 3 step.
  all: rewrite run_cons; erewrite perform_eq by timers_due.
  all: rewrite late_callback
         by (lazy -[N.add N.leb N.ltb Z.of_N timer_delay]; reflexivity).
  all: crunch; rewrite run_nil; repeat split; reflexivity.
Qed.

End Callback.

Lemma callback_success_witness :
  let result (array : bool) :=
    observed (run 20
                [UserCode [Call_timedPromiseByCallback (Exec_getData "/groups/demo/a")
                             (Some 100%N) array];
                 TimePasses 5; ClientReplies 0 [VNull; VBuffer "{}"; VNum 7]]
                (constructor sample_host networked "/groups/demo" None None)) in
  result true = [(0, Fulfils (VArr [VBuffer "{}"; VNum 7]))] /\
  result false = [(0, Fulfils (VBuffer "{}"))].
Proof.
  exact (callback_success sample_host "/groups/demo" None None
           (Exec_getData "/groups/demo/a") (Some 100%N) VNull [VBuffer "{}"; VNum 7]
           5%N 0 eq_refl I eq_refl).
Defined.

Lemma callback_settles_once_witness :
  let w := run 20
             [UserCode [Call_timedPromiseByCallback Exec_mkdirp (Some 100%N) false];
              TimePasses 5; ClientReplies 0 [VNull; VStr "/groups/demo"];
              ClientReplies 0 [new_Error "CONNECTION_LOSS"]]
             (constructor sample_host networked "/groups/demo" None None) in
  observed w = [(0, Fulfils (VStr "/groups/demo"))] /\
  unhandled (rt w) = [] /\ uncaught (rt w) = [] /\ microtasks (rt w) = [].
Proof.
  exact (callback_settles_once sample_host "/groups/demo" None None Exec_mkdirp
           (Some 100%N) false (Fulfils (VStr "/groups/demo"))
           [new_Error "CONNECTION_LOSS"] 5%N 0 I eq_refl).
Defined.

(* ================================================================== *)
(** ** Retrieval *)
(* ================================================================== *)

Section Retrieval.

Variables (h : host) (gp : string) (tm stm : option N).
Variables (id : value) (path : string) (bytes : string) (stat : value) (t : N).

Let w0 : world := constructor h networked gp tm stm.
Let fetched : list task :=
  [UserCode [Call_getMemberData id]; TimePasses t;
   ClientReplies 0 [VNull; VBuffer bytes; stat]].

Hypothesis id_legal : getMemberPath (mg w0) id = Some path.
Hypothesis on_time : in_time t tm.

(** X6. getMemberData(id) asks the client for the data at the member path,
    without a watcher, and on success resolves with a new object
    { id, data, stat }: [id] as it was given, [data] the parsed text of the
    buffer, and [stat] the third argument of the callback as it is. *)
Theorem getMemberData_returns_document (fields : object) (fuel : nat) :
  JSON_parse h bytes = Document fields ->
  let w := run (20 + fuel) fetched w0 in
  requests w = [GetData path None] /\
  observed w = [(0, Fulfils (VObj 1))] /\
  read 1 (rt w) = [("id", id); ("data", VObj 0); ("stat", stat)] /\
  read 0 (rt w) = fields.
Proof.
  intros Hparse. subst w0 fetched.
  unfold constructor, networked, fresh_client, requests in *.
  destruct tm as [d|]; simpl in on_time; cbv zeta.
  all: rewrite run_cons; erewrite perform_eq by timers_due; expose.
  all: rewrite (getMemberData_legal id path) by exact id_legal; crunch.
  all: step; begin_task.
  all: repeat micro_with Hparse.
  all: end_task; rewrite run_nil; repeat split; reflexivity.
Qed.

(** X7. A payload that is no JSON text, or a success of the client that
    comes without a buffer, does not make getMemberData() throw: the error
    raised in the handler rejects the promise, no result object is made,
    and the caller who handles the rejection leaves nothing unhandled. *)
Theorem getMemberData_rejects_bad_payload (fuel : nat) :
  JSON_parse h bytes = SyntaxError ->
  let w := run (20 + fuel) fetched w0 in
  let w' := run (20 + fuel)
              [UserCode [Call_getMemberData id]; TimePasses t; ClientReplies 0 [VNull]]
              w0 in
  ((exists p, returned w = [Normal (VPromise p)]) /\
   (exists e, observed w = [(0, Rejects e)]) /\
   unhandled (rt w) = [] /\ uncaught (rt w) = [] /\ heap (rt w) = []) /\
  ((exists e, observed w' = [(0, Rejects e)]) /\
   unhandled (rt w') = [] /\ uncaught (rt w') = [] /\ heap (rt w') = []).
Proof.
  intros Hparse. subst w0 fetched.
  unfold constructor, networked, fresh_client, requests in *.
  destruct tm as [d|]; simpl in on_time; cbv zeta.
  all: split.
  all: rewrite run_cons; erewrite perform_eq by timers_due; expose.
  all: rewrite (getMemberData_legal id path) by exact id_legal; crunch.
  all: step.
  all: match goal with
       | |- context [VBuffer bytes] =>
           begin_task; repeat micro_with Hparse; end_task; rewrite run_nil;
           split; [eexists; reflexivity|]
       | _ => step; rewrite run_nil
       end.
  all: split; [eexists; reflexivity|]; repeat split; reflexivity.
Qed.

End Retrieval.

Lemma getMemberData_returns_document_witness :
  let w := run 20
             [UserCode [Call_getMemberData (VStr "node-a")]; TimePasses 5;
              ClientReplies 0 [VNull; VBuffer "{..}"; VNum 7]]
             (constructor sample_host networked "/groups/demo" (Some 100%N) None) in
  requests w = [GetData "/groups/demo/node-a" None] /\
  observed w = [(0, Fulfils (VObj 1))] /\
  read 1 (rt w) = [("id", VStr "node-a"); ("data", VObj 0); ("stat", VNum 7)] /\
  read 0 (rt w) = [].
Proof.
  exact (getMemberData_returns_document sample_host "/groups/demo" (Some 100%N) None
           (VStr "node-a") "/groups/demo/node-a" "{..}" (VNum 7) 5%N eq_refl eq_refl
           [] 0 eq_refl).
Defined.

Lemma getMemberData_rejects_bad_payload_witness :
  let w := run 20
             [UserCode [Call_getMemberData (VStr "node-a")]; TimePasses 5;
              ClientReplies 0 [VNull; VBuffer "{.."; VNum 7]]
             (constructor
                {| uuid_v4 := uuid_v4 sample_host;
                   JSON_text := JSON_text sample_host;
                   JSON_parse := fun _ => SyntaxError;
                   client_has_JSON := false |}
                networked "/groups/demo" (Some 100%N) None) in
  (exists e, observed w = [(0, Rejects e)]) /\
  unhandled (rt w) = [] /\ uncaught (rt w) = [] /\ heap (rt w) = [].
Proof.
  cbv zeta.
  destruct (getMemberData_rejects_bad_payload
              {| uuid_v4 := uuid_v4 sample_host;
                 JSON_text := JSON_text sample_host;
                 JSON_parse := fun _ => SyntaxError;
                 client_has_JSON := false |}
              "/groups/demo" (Some 100%N) None
              (VStr "node-a") "/groups/demo/node-a" "{.." (VNum 7) 5%N eq_refl eq_refl
              0 eq_refl) as [(_ & H) _].
  exact H.
Defined.
(* ================================================================== *)
(** ** The connection state, and errors nobody listens to *)
(* ================================================================== *)

Section Connection.

Variables (h : host) (gp : string) (tm stm : option N).

Let w0 : world := constructor h networked gp tm stm.

(** The task in which the client announces a connection state to the one
    listener the monitor has registered. *)
Lemma connection_state_task (k : nat) (state : object) (w : world) :
  state_listeners (cl w) = [StateListener k] ->
  task_body (ConnectionState state) w =
    let w1 := with_rt (set_heap (fun hp => hp ++ [state])) w in
    if is_string (get_field "name" state) "SYNC_CONNECTED" then w1
    else match emit "error" (new_Error "Disconnected") w1 with
         | (Throw e, w2) => with_rt (set_uncaught (fun u => u ++ [e])) w2
         | (Normal _, w2) => w2
         end.
Proof.
  intros Hs. cbn [task_body alloc]. rewrite Hs.
  cbn [notify call_listener head default]. unfold state_name, read, id.
  cbn [set_rt rt set_heap heap].
  rewrite list_lookup_middle by reflexivity. cbn [default].
  cbv zeta. unfold with_rt.
  destruct (is_string _ _); [reflexivity|].
  destruct (emit _ _ _) as [[v|e] w2]; reflexivity.
Qed.

(** X8. While the monitor is on, a connection state whose name is not
    'SYNC_CONNECTED' makes the manager emit one 'error' event with
    Error('Disconnected'); the state SYNC_CONNECTED emits nothing; and as
    long as startMonitor() has not been called no connection state emits
    anything. *)
Theorem disconnection_is_reported (state : object) (fuel : nat) :
  let monitored := UserCode [Call_on "error"; Call_startMonitor] in
  let connected := is_string (get_field "name" state) "SYNC_CONNECTED" in
  let w := run (20 + fuel) [monitored; ConnectionState state] w0 in
  let w' := run (20 + fuel) [UserCode [Call_on "error"]; ConnectionState state] w0 in
  emitted (mg w) =
    (if connected then [] else [("error", new_Error "Disconnected")]) /\
  uncaught (rt w) = [] /\
  emitted (mg w') = [].
Proof.
  subst w0. unfold constructor, networked, fresh_client.
  destruct tm as [d|]; cbv zeta.
  all: split; [|split]; [| |do 2 step; reflexivity].
  all: step; rewrite run_cons; erewrite perform_eq by timers_due.
  all: rewrite (connection_state_task 1) by reflexivity.
  all: destruct (is_string _ _); crunch; reflexivity.
Qed.

(** X9. An 'error' event nobody listens to is thrown by [emit]: when the
    fetch of the relay fails and the user has no 'error' listener, the
    exception is raised inside the rejection handler of the relay, and
    surfaces as an unhandled rejection carrying the error of the client. *)
Theorem unheard_error_is_unhandled
    (message : string) (cause : option value) (t : N) (fuel : nat) :
  in_time t tm ->
  let e := VError message cause in
  let failed := [TimePasses t; ClientReplies 0 [e]] in
  let w := run (20 + fuel) (UserCode [Call_startMonitor] :: failed) w0 in
  let w' := run (20 + fuel)
              (UserCode [Call_on "error"; Call_startMonitor] :: failed) w0 in
  (exists p, unhandled (rt w) = [p] /\
             p_state <$> promises (rt w) !! p = Some (Rejected e)) /\
  emitted (mg w) = [("error", e)] /\
  uncaught (rt w) = [] /\
  unhandled (rt w') = [] /\
  emitted (mg w') = [("error", e)].
Proof.
  intros Ht. subst w0. unfold constructor, networked, fresh_client.
  destruct tm as [d|]; simpl in Ht; cbv zeta.
  all: split; [do 3 step; rewrite run_nil; eexists; split; reflexivity|].
  all: split; [do 3 step; reflexivity|].
  all: split; [do 3 step; reflexivity|].
  all: split; do 3 step; reflexivity.
Qed.

End Connection.

Lemma unheard_error_is_unhandled_witness :
  let e := VError "CONNECTION_LOSS" None in
  let failed := [TimePasses 5; ClientReplies 0 [e]] in
  let w := run 20 (UserCode [Call_startMonitor] :: failed)
             (constructor sample_host networked "/groups/demo" (Some 100%N) None) in
  (exists p, unhandled (rt w) = [p] /\
             p_state <$> promises (rt w) !! p = Some (Rejected e)) /\
  emitted (mg w) = [("error", e)].
Proof.
  cbv zeta.
  destruct (unheard_error_is_unhandled sample_host "/groups/demo" (Some 100%N) None
              "CONNECTION_LOSS" None 5%N 0 eq_refl) as (H1 & H2 & _).
  exact (conj H1 H2).
Defined.
(* ================================================================== *)
(** ** More on registration *)
(* ================================================================== *)

Section Unusable.

(** X10. registerMember(id, data) with a [data] that is null or a
    primitive does not return a rejected promise: once the path is
    derived, the assignment of l.152 throws.  No promise is made and the
    client is not called; the identifier drawn for an omitted id is used
    up. *)
Theorem registerMember_throws_on_primitive_data
    (id data : value) (path : string) (w : world) :
  primitive data ->
  (id <> VUndefined ->
   getMemberPath (mg w) id = Some path ->
   exists e, registerMember id data w = (Throw e, w)) /\
  (getMemberPath (mg w) (VStr (uuid_v4 (hs w) (uuids (rt w)))) = Some path ->
   exists e, registerMember VUndefined data w = (Throw e, with_rt (set_uuids S) w)).
Proof.
  intros Hd. split.
  - intros Hid Hp. eexists. unfold registerMember.
    destruct data; try contradiction Hd;
      (destruct id; try congruence; rewrite getMemberPath_usable, Hp; reflexivity).
  - intros Hp. eexists. rewrite (registerMember_generated_for data path).
    + destruct data; try contradiction Hd; reflexivity.
    + destruct data; try contradiction Hd; discriminate.
    + exact Hp.
Qed.

Lemma append_cancel (a b c : string) : a +:+ b = a +:+ c -> b = c.
Proof.
  induction a as [|x a IH]; simpl; intros H; [exact H|].
  injection H as H. apply IH. exact H.
Qed.

(** X11. Two identifiers are given the same member path exactly when they
    have the same string form: the number 5 and the string '5' name the
    same member, and different strings never do. *)
Theorem member_paths_distinguish_strings (m : manager) (id id' : value) (path : string) :
  getMemberPath m id = Some path ->
  (getMemberPath m id' = Some path <-> ToString id' = ToString id).
Proof.
  unfold getMemberPath. rewrite !ToString_string_arg.
  destruct (includes (ToString id) "/") eqn:E; [discriminate|].
  intros [= <-]. split.
  - destruct (includes (ToString id') "/"); [discriminate|].
    intros [= H]. cbn [join] in H.
    apply append_cancel in H. injection H as H. exact H.
  - intros ->. rewrite E. reflexivity.
Qed.

End Unusable.

Lemma registerMember_throws_on_primitive_data_witness :
  let w := constructor sample_host networked "/groups/demo" None None in
  exists e, registerMember (VStr "node-a") VNull w = (Throw e, w).
Proof.
  exact (proj1 (registerMember_throws_on_primitive_data (VStr "node-a") VNull
                  "/groups/demo/node-a"
                  (constructor sample_host networked "/groups/demo" None None) I)
           ltac:(discriminate) eq_refl).
Defined.

Lemma member_paths_distinguish_strings_witness :
  let m := mg (constructor sample_host networked "/groups/demo" None None) in
  getMemberPath m (VStr "5") = Some "/groups/demo/5" <-> ToString (VStr "5") = ToString (VNum 5).
Proof.
  exact (member_paths_distinguish_strings
           (mg (constructor sample_host networked "/groups/demo" None None))
           (VNum 5) (VStr "5") "/groups/demo/5" eq_refl).
Defined.

Section Expired.

Variables (h : host) (gp : string) (stm : option N).
Variables (id : value) (path created : string) (d t0 t : N).

Let w0 : world := constructor h networked gp (Some d) stm.
Let stamp : string * value := ("registrationTimeUTC", VNum (Z.of_N t0)).

(** X12. A deadline that expires takes nothing back: the object has its
    time stamp, the client has been asked to create the node and is not
    told otherwise, and when it reports success afterwards the promise
    stays rejected with Timeout and no result object is made. *)
Theorem timeout_does_not_cancel (fuel : nat) :
  id <> VUndefined ->
  getMemberPath (mg w0) id = Some path ->
  (timer_delay d < t)%N ->
  let w := run (20 + fuel)
             [TimePasses t0; UserCode [Call_registerMember id VUndefined];
              TimePasses t; ClientReplies 0 [VNull; VStr created]] w0 in
  observed w = [(0, Rejects Timeout)] /\
  requests w =
    [Create path (JSON_text h [[stamp]] (VObj 0) []) VNull ZK_CREATE_MODE_EPHEMERAL] /\
  heap (rt w) = [[stamp]] /\
  unhandled (rt w) = [] /\ uncaught (rt w) = [].
Proof.
  intros Hid Hp Ht. subst w0 stamp.
  unfold constructor, networked, fresh_client, requests in *. cbv zeta.
  step.
  rewrite run_cons; erewrite perform_eq by timers_due; expose.
  rewrite (registerMember_default id path) by assumption; crunch.
  do 2 step; rewrite run_nil; repeat split; reflexivity.
Qed.

End Expired.

Lemma timeout_does_not_cancel_witness :
  let w := run 20
             [TimePasses 3; UserCode [Call_registerMember (VStr "node-a") VUndefined];
              TimePasses 200; ClientReplies 0 [VNull; VStr "/groups/demo/node-a"]]
             (constructor sample_host networked "/groups/demo" (Some 100%N) None) in
  observed w = [(0, Rejects Timeout)] /\
  requests w = [Create "/groups/demo/node-a" "{}" VNull 1] /\
  heap (rt w) = [[("registrationTimeUTC", VNum 3)]] /\
  unhandled (rt w) = [] /\ uncaught (rt w) = [].
Proof.
  exact (timeout_does_not_cancel sample_host "/groups/demo" None (VStr "node-a")
           "/groups/demo/node-a" "/groups/demo/node-a" 100%N 3%N 200%N 0
           ltac:(discriminate) eq_refl eq_refl).
Defined.

Section RoundTrip.

Variables (h : host) (gp : string) (tm stm : option N).
Variables (id : value) (path created : string) (stat : value) (fields : object) (t0 : N).

Let w0 : world := constructor h networked gp tm stm.
Let doc : object := set_field "registrationTimeUTC" (VNum (Z.of_N t0)) fields.
Let payload : string := JSON_text h [doc] (VObj 0) [].

(** X13. What is registered is what is retrieved: when [JSON.parse] gives
    back the document whose text [JSON.stringify] made, and the client
    hands out the payload it was given, getMemberData(id) after
    registerMember(id, data) resolves with a [data] that has the
    properties of the registered object, time stamp included, and is a new
    object, not the one the caller registered. *)
Theorem register_then_retrieve (fuel : nat) :
  id <> VUndefined ->
  getMemberPath (mg w0) id = Some path ->
  serialisable h [doc] (VObj 0) = true ->
  JSON_parse h payload = Document doc ->
  let w := run (20 + fuel)
             [UserCode [New_object fields]; TimePasses t0;
              UserCode [Call_registerMember id (VObj 0)];
              ClientReplies 0 [VNull; VStr created];
              UserCode [Call_getMemberData id];
              ClientReplies 1 [VNull; VBuffer payload; stat]] w0 in
  requests w = [Create path payload VNull ZK_CREATE_MODE_EPHEMERAL; GetData path None] /\
  observed w = [(1, Fulfils (VObj 1)); (2, Fulfils (VObj 3))] /\
  read 1 (rt w) = [("id", id); ("data", VObj 0)] /\
  read 3 (rt w) = [("id", id); ("data", VObj 2); ("stat", stat)] /\
  read 2 (rt w) = read 0 (rt w) /\
  read 0 (rt w) = doc.
Proof.
  intros Hid Hp Hs Hparse. subst w0 doc payload.
  unfold constructor, networked, fresh_client, requests in *.
  destruct tm as [d|]; cbv zeta.
  all: try pose proof (timer_delay_positive d).
  all: do 2 step.
  all: rewrite run_cons; erewrite perform_eq by timers_due; expose.
  all: rewrite (registerMember_object id 0 path) by assumption.
  all: rewrite create_member_object by exact Hs; crunch.
  all: step.
  all: rewrite run_cons; erewrite perform_eq by timers_due; expose.
  all: rewrite (getMemberData_legal id path) by assumption; crunch; settle_timers.
  all: begin_task; repeat micro_with Hparse; end_task; rewrite run_nil.
  all: repeat split; reflexivity.
Qed.

End RoundTrip.

Lemma register_then_retrieve_witness :
  let w := run 20
             [UserCode [New_object [("weight", VNum 1)]]; TimePasses 7;
              UserCode [Call_registerMember (VStr "node-a") (VObj 0)];
              ClientReplies 0 [VNull; VStr "/groups/demo/node-a"];
              UserCode [Call_getMemberData (VStr "node-a")];
              ClientReplies 1 [VNull; VBuffer "{}"; VNum 4]]
             (constructor
                {| uuid_v4 := uuid_v4 sample_host;
                   JSON_text := JSON_text sample_host;
                   JSON_parse := fun _ =>
                     Document [("weight", VNum 1); ("registrationTimeUTC", VNum 7)];
                   client_has_JSON := false |}
                networked "/groups/demo" None None) in
  observed w = [(1, Fulfils (VObj 1)); (2, Fulfils (VObj 3))] /\
  read 3 (rt w) = [("id", VStr "node-a"); ("data", VObj 2); ("stat", VNum 4)] /\
  read 2 (rt w) = [("weight", VNum 1); ("registrationTimeUTC", VNum 7)].
Proof.
  cbv zeta.
  destruct (register_then_retrieve
              {| uuid_v4 := uuid_v4 sample_host;
                 JSON_text := JSON_text sample_host;
                 JSON_parse := fun _ =>
                   Document [("weight", VNum 1); ("registrationTimeUTC", VNum 7)];
                 client_has_JSON := false |}
              "/groups/demo" None None (VStr "node-a") "/groups/demo/node-a"
              "/groups/demo/node-a" (VNum 4) [("weight", VNum 1)] 7%N 0
              ltac:(discriminate) eq_refl eq_refl eq_refl)
    as (_ & H1 & _ & H2 & H3 & H4).
  split; [exact H1|]. split; [exact H2|].
  exact (eq_trans H3 H4).
Defined.
(* ================================================================== *)
(** ** A complete run *)
(* ================================================================== *)

(** Group path /groups/demo: setup, registration of node-a with
    { weight: 1 }, a first listing, the start of the monitor with its
    initial event, the registration of node-b by another process reported
    as a structural change, and the retrieval of the data of node-a. *)
Example end_to_end :
  let w :=
    run 40
      [UserCode [Call_setup];
       ClientReplies 0 [VNull; VStr "/groups/demo"];
       UserCode [New_object [("weight", VNum 1)];
                 Call_registerMember (VStr "node-a") (VObj 0)];
       ClientReplies 1 [VNull; VStr "/groups/demo/node-a"];
       UserCode [Call_getMembers];
       ClientReplies 2 [VNull; VArr [VStr "node-a"]];
       UserCode [Call_on "members"; Call_on "error"; Call_startMonitor];
       ClientReplies 3 [VNull; VArr [VStr "node-a"]];
       StructuralChange;
       ClientReplies 4 [VNull; VArr [VStr "node-a"; VStr "node-b"]];
       UserCode [Call_getMemberData (VStr "node-a")];
       ClientReplies 5 [VNull; VBuffer "{..}"; VNum 7]]
      (constructor sample_host networked "/groups/demo" (Some 10000%N) (Some 10000%N)) in
  observed w =
    [(0, Fulfils VThis); (2, Fulfils (VObj 1));
     (3, Fulfils (VArr [VStr "node-a"])); (7, Fulfils (VObj 3))] /\
  read 1 (rt w) = [("id", VStr "node-a"); ("data", VObj 0)] /\
  read 0 (rt w) = [("weight", VNum 1); ("registrationTimeUTC", VNum 0)] /\
  emitted (mg w) =
    [("members", VArr [VStr "node-a"]);
     ("members", VArr [VStr "node-a"; VStr "node-b"])] /\
  unhandled (rt w) = [] /\ uncaught (rt w) = [].
Proof. vm_compute. repeat split. Qed.
